(** * Tool-output type generation and renderer dispatch

    A shallow embedding of the build-time type generator
    ([frontend/scripts/generate-types.js]), of the generated registry
    ([frontend/src/types/tools.ts]), of the renderer map and the tool part
    extractor ([frontend/src/components/ToolResults/toolRenderers.tsx]), of
    the [SQLQueryResult] and [WeatherResult] components and of the helpers
    of [frontend/src/types/tool-utils.ts]; further on, of the chart
    component ([ChartResult.tsx]) and of the message renderer and the
    submit handler of the chat view ([frontend/src/components/Chat.tsx]).

    JavaScript values are the values a JSON stream can carry, plus
    [undefined].  Strings are byte strings (UTF-8); every string operation
    the code performs is on ASCII prefixes, where bytes and UTF-16 code
    units coincide, but for [trim] and [toLowerCase], which are given on
    the UTF-8 encoding. *)

From Stdlib Require Import String Ascii List ZArith Bool Lia DecimalString Sorted.
Import ListNotations.
Open Scope string_scope.
Set Warnings "-register-all".

(* ===================================================================== *)
(** ** JavaScript values                                                  *)
(* ===================================================================== *)

Module JS.

(** Numbers are integer valued: the code under study only tests numbers
    against [0] and [1] and for truthiness. *)
Inductive value : Type :=
| VUndefined
| VNull
| VBool (b : bool)
| VNum (n : Z)
| VStr (s : string)
| VArr (items : list value)
| VObj (props : list (string * value)).

(** Exceptions: the constructor name and the message. *)
Inductive exn : Type :=
| Exn (name message : string).

Definition TypeError (message : string) : exn := Exn "TypeError" message.
Definition Error (message : string) : exn := Exn "Error" message.

Definition message_of (e : exn) : string :=
  match e with Exn _ m => m end.

(** Completion of an evaluation: a value or a thrown exception. *)
Inductive outcome (A : Type) : Type :=
| Ok (a : A)
| Throw (e : exn).
Arguments Ok {A} a.
Arguments Throw {A} e.

Definition bind {A B} (m : outcome A) (k : A -> outcome B) : outcome B :=
  match m with
  | Ok a => k a
  | Throw e => Throw e
  end.

Declare Scope js_scope.
Delimit Scope js_scope with js.
Notation "x <- m ;; k" := (bind m (fun x => k))
  (at level 61, m at next level, right associativity) : js_scope.
Open Scope js_scope.

Fixpoint mapM {A B} (f : A -> outcome B) (l : list A) : outcome (list B) :=
  match l with
  | [] => Ok []
  | a :: l' => b <- f a ;; bs <- mapM f l' ;; Ok (b :: bs)
  end.

(** [Array.prototype.map] with the index as second argument. *)
Fixpoint mapM_idx {A B} (f : A -> nat -> outcome B) (i : nat) (l : list A)
  : outcome (list B) :=
  match l with
  | [] => Ok []
  | a :: l' => b <- f a i ;; bs <- mapM_idx f (S i) l' ;; Ok (b :: bs)
  end.

Definition typeof (v : value) : string :=
  match v with
  | VUndefined => "undefined"
  | VNull => "object"
  | VBool _ => "boolean"
  | VNum _ => "number"
  | VStr _ => "string"
  | VArr _ => "object"
  | VObj _ => "object"
  end.

(** [ToBoolean]. *)
Definition truthy (v : value) : bool :=
  match v with
  | VUndefined => false
  | VNull => false
  | VBool b => b
  | VNum n => negb (n =? 0)%Z
  | VStr s => negb (s =? "")
  | VArr _ => true
  | VObj _ => true
  end.

(** [v === null]. *)
Definition is_null (v : value) : bool :=
  match v with
  | VNull => true
  | _ => false
  end.

(** A non-null object: a plain object or an array. *)
Definition is_object (v : value) : bool :=
  match v with
  | VArr _ | VObj _ => true
  | _ => false
  end.

Definition nat_to_string (n : nat) : string :=
  NilZero.string_of_uint (Nat.to_uint n).

Definition Z_to_string (z : Z) : string :=
  NilZero.string_of_int (Z.to_int z).

(** *** Ordered property lists *)

(** Own properties of an ordinary object, kept in the order in which
    [Object.entries] and [for ... in] enumerate them. *)
Definition obj (A : Type) : Type := list (string * A).

Definition keys {A} (o : obj A) : list string := map fst o.

Fixpoint lookup {A} (k : string) (o : obj A) : option A :=
  match o with
  | [] => None
  | (k', v) :: o' => if k' =? k then Some v else lookup k o'
  end.

Definition has_own {A} (k : string) (o : obj A) : bool :=
  match lookup k o with Some _ => true | None => false end.

Definition is_digit (c : ascii) : bool :=
  let n := nat_of_ascii c in (48 <=? n)%nat && (n <=? 57)%nat.

Fixpoint all_digits (s : string) : bool :=
  match s with
  | EmptyString => true
  | String c s' => is_digit c && all_digits s'
  end.

Fixpoint digits_value (acc : Z) (s : string) : Z :=
  match s with
  | EmptyString => acc
  | String c s' => digits_value (10 * acc + Z.of_nat (nat_of_ascii c) - 48)%Z s'
  end.

Definition index_value (k : string) : Z := digits_value 0 k.

(** An array index: a key that is the canonical decimal form of an
    integer in [0, 2^32 - 2], that is, a digit string that prints back
    from its value.  Such keys are enumerated first, in ascending
    order. *)
Definition is_array_index (k : string) : bool :=
  all_digits k
  && negb (k =? "")
  && (Z_to_string (index_value k) =? k)
  && (index_value k <=? 4294967294)%Z.

Fixpoint replace {A} (k : string) (v : A) (o : obj A) : obj A :=
  match o with
  | [] => []
  | (k', v') :: o' =>
      if k' =? k then (k', v) :: o' else (k', v') :: replace k v o'
  end.

(** Insert an array-index key at its place in the ascending index prefix. *)
Fixpoint insert_index {A} (k : string) (v : A) (o : obj A) : obj A :=
  match o with
  | [] => [(k, v)]
  | (k', v') :: o' =>
      if is_array_index k' && (index_value k' <? index_value k)%Z
      then (k', v') :: insert_index k v o'
      else (k, v) :: (k', v') :: o'
  end.

(** [CreateDataProperty]: an existing key keeps its place and takes the
    new value; a new array-index key joins the index prefix; any other new
    key goes last. *)
Definition define {A} (k : string) (v : A) (o : obj A) : obj A :=
  if has_own k o then replace k v o
  else if is_array_index k then insert_index k v o
  else (o ++ [(k, v)])%list.

(** Names defined by [Object.prototype], which every object literal
    inherits. *)
Definition object_prototype_keys : list string :=
  [ "constructor"; "__defineGetter__"; "__defineSetter__"; "hasOwnProperty";
    "__lookupGetter__"; "__lookupSetter__"; "isPrototypeOf";
    "propertyIsEnumerable"; "toString"; "valueOf"; "__proto__";
    "toLocaleString" ].

Definition str_mem (k : string) (l : list string) : bool :=
  existsb (String.eqb k) l.

(** The [in] operator on an object literal: own keys, then the keys of
    [Object.prototype]. *)
Definition js_in {A} (k : string) (o : obj A) : bool :=
  has_own k o || str_mem k object_prototype_keys.

(** Assignment [o[k] = v] of a primitive [v] to an object literal.
    [__proto__] is an accessor of [Object.prototype] whose setter ignores
    primitives, so no own property appears; every other inherited member
    is a writable data property, so the assignment defines an own one. *)
Definition assign_primitive {A} (k : string) (v : A) (o : obj A) : obj A :=
  if k =? "__proto__" then o else define k v o.

(** *** Property reads *)

Fixpoint chars (s : string) : list value :=
  match s with
  | EmptyString => []
  | String c s' => VStr (String c EmptyString) :: chars s'
  end.

(** [v.k] and [v[k]] for own data: the fields of an object, the elements
    and the length of an array or a string.  The fixed names the code
    reads ([type], [output], [tools], [success], [query], ...) are defined
    by no prototype.  Reading a property of [undefined] or [null]
    throws. *)
Definition get (v : value) (k : string) : outcome value :=
  match v with
  | VUndefined =>
      Throw (TypeError ("Cannot read properties of undefined (reading '" ++ k ++ "')"))
  | VNull =>
      Throw (TypeError ("Cannot read properties of null (reading '" ++ k ++ "')"))
  | VObj props =>
      match lookup k props with
      | Some x => Ok x
      | None => Ok VUndefined
      end
  | VArr items =>
      if k =? "length" then Ok (VNum (Z.of_nat (length items)))
      else if is_array_index k
      then Ok (nth (Z.to_nat (index_value k)) items VUndefined)
      else Ok VUndefined
  | VStr s =>
      if k =? "length" then Ok (VNum (Z.of_nat (String.length s)))
      else if is_array_index k
      then Ok (nth (Z.to_nat (index_value k)) (chars s) VUndefined)
      else Ok VUndefined
  | VBool _ | VNum _ => Ok VUndefined
  end.

(** [get] on a value already known to be a non-null object. *)
Definition field (v : value) (k : string) : value :=
  match get v k with
  | Ok x => x
  | Throw _ => VUndefined
  end.

(** Strict equality with a string. *)
Definition strict_eq_string (v : value) (s : string) : bool :=
  match v with
  | VStr s' => s' =? s
  | _ => false
  end.

(** Strict equality with a number. *)
Definition strict_eq_num (v : value) (n : Z) : bool :=
  match v with
  | VNum m => (m =? n)%Z
  | _ => false
  end.

Fixpoint join (sep : string) (l : list string) : string :=
  match l with
  | [] => ""
  | [s] => s
  | s :: l' => s ++ sep ++ join sep l'
  end.

(** [String(v)] / [ToPropertyKey(v)] on JSON data.  A number prints as
    its decimal digits, as JavaScript prints the integers below [10^21]
    in absolute value.  A plain object prints
    as [[object Object]] unless it carries an own [toString] property: JSON
    data is never callable, [valueOf] then returns the object itself, and
    the conversion throws.  Arrays join their elements with commas, holes
    of [null] and [undefined] printing empty. *)
Fixpoint to_string (v : value) : outcome string :=
  match v with
  | VUndefined => Ok "undefined"
  | VNull => Ok "null"
  | VBool true => Ok "true"
  | VBool false => Ok "false"
  | VNum n => Ok (Z_to_string n)
  | VStr s => Ok s
  | VArr items =>
      let fix elems (l : list value) : outcome (list string) :=
        match l with
        | [] => Ok []
        | x :: l' =>
            s <- match x with
                 | VUndefined | VNull => Ok ""
                 | _ => to_string x
                 end ;;
            ss <- elems l' ;;
            Ok (s :: ss)
        end in
      ss <- elems items ;; Ok (join "," ss)
  | VObj props =>
      if has_own "toString" props
      then Throw (TypeError "Cannot convert object to primitive value")
      else Ok "[object Object]"
  end.

(** *** JSON documents *)

(** A JSON text as written: object members in document order, repeated
    names allowed. *)
Inductive json : Type :=
| JNull
| JBool (b : bool)
| JNumber (n : Z)
| JString (s : string)
| JArray (items : list json)
| JObject (members : list (string * json)).

(** [JSON.parse]: each member is defined on the object under
    construction, so a repeated name keeps its first place with its last
    value, and array-index names move to the front. *)
Fixpoint parse (j : json) : value :=
  match j with
  | JNull => VNull
  | JBool b => VBool b
  | JNumber n => VNum n
  | JString s => VStr s
  | JArray items => VArr (map parse items)
  | JObject members =>
      VObj (fold_left (fun o m => define (fst m) (parse (snd m)) o) members [])
  end.

Fixpoint indexed {A} (i : nat) (l : list A) : list (string * A) :=
  match l with
  | [] => []
  | a :: l' => (nat_to_string i, a) :: indexed (S i) l'
  end.

(** [Object.entries(v)] for a value other than [undefined] and [null]:
    the own enumerable string-keyed properties.  A string enumerates its
    characters (bytes here), a boolean or a number has none. *)
Definition Object_entries (v : value) : list (string * value) :=
  match v with
  | VObj props => props
  | VArr items => indexed 0 items
  | VStr s => indexed 0 (chars s)
  | _ => []
  end.

(** [s.startsWith(p)]. *)
Definition startsWith (s p : string) : bool := String.prefix p s.

(** [s.slice(n)] for [0 <= n]. *)
Definition slice (s : string) (n : nat) : string :=
  substring n (String.length s - n) s.

End JS.

(* ===================================================================== *)
(** ** The type generator: [frontend/scripts/generate-types.js]           *)
(* ===================================================================== *)

Module GenerateTypes.
Import JS.

Definition nl : string := String (ascii_of_nat 10) EmptyString.
Definition dquote : string := String (ascii_of_nat 34) EmptyString.

(** *** The process and its surroundings *)

(** What the script does to the outside, in order. *)
Inductive event : Type :=
| ConsoleLog (line : string)
| ConsoleError (line : string)
| MkdirSync (path : string)
| WriteFileSync (path content : string).

(** The disk is taken to work: [dirs] are the directories, no regular
    file sits where the script wants a directory, and [mkdirSync] and
    [writeFileSync] do not fail.  In the script both calls stand inside
    the [try] block, so a disk that fails ends the run with status 1;
    what is stated below about the disk is stated of runs that exit with
    status 0, in which every disk call has succeeded, or of runs that
    fail before the disk is reached. *)
Record world : Type := mkWorld {
  dirs : list string;          (* existing directories *)
  files : obj string;          (* path to content *)
  events : list event          (* most recent last *)
}.

(** The reply of the schema endpoint: [response.ok],
    [response.statusText] and the completion of [response.json()]. *)
Record response : Type := mkResponse {
  ok : bool;
  statusText : string;
  json_body : outcome json
}.

(** A computation of the script: it reads and changes the world and
    either yields a value or throws. *)
Definition script (A : Type) : Type := world -> outcome A * world.

Definition ret {A} (a : A) : script A := fun w => (Ok a, w).

Definition throw {A} (e : exn) : script A := fun w => (Throw e, w).

Definition sbind {A B} (m : script A) (k : A -> script B) : script B :=
  fun w =>
    match m w with
    | (Ok a, w') => k a w'
    | (Throw e, w') => (Throw e, w')
    end.

(** [await] of a promise that is already settled. *)
Definition await {A} (o : outcome A) : script A := fun w => (o, w).

Declare Scope script_scope.
Delimit Scope script_scope with script.
Notation "x <- m ;; k" := (sbind m (fun x => k))
  (at level 61, m at next level, right associativity) : script_scope.
Notation "m ;; k" := (sbind m (fun _ => k))
  (at level 61, right associativity) : script_scope.

Definition emit (e : event) : script unit :=
  fun w => (Ok tt, mkWorld (dirs w) (files w) (events w ++ [e])).

Definition console_log (line : string) : script unit := emit (ConsoleLog line).
Definition console_error (line : string) : script unit := emit (ConsoleError line).

(** [fs.existsSync(path)], asked of a directory path. *)
Definition existsSync (path : string) : script bool :=
  fun w => (Ok (str_mem path (dirs w)), w).

(** [fs.mkdirSync(path, { recursive: true })], when it succeeds. *)
Definition mkdirSync (path : string) : script unit :=
  fun w => (Ok tt, mkWorld (path :: dirs w) (files w)
                           (events w ++ [MkdirSync path])).

(** [fs.writeFileSync(path, content)], when it succeeds: the file holds
    exactly [content] afterwards. *)
Definition writeFileSync (path content : string) : script unit :=
  fun w => (Ok tt, mkWorld (dirs w) (define path content (files w))
                           (events w ++ [WriteFileSync path content])).

(** *** String helpers of the script *)

Fixpoint split_on (sep : ascii) (cur : string) (s : string) : list string :=
  match s with
  | EmptyString => [cur]
  | String c s' =>
      if Ascii.eqb c sep then cur :: split_on sep "" s'
      else split_on sep (cur ++ String c EmptyString) s'
  end.

(** [path.dirname] on a relative path without trailing or doubled
    separators, which is the shape of [OUTPUT_FILE]. *)
Definition dirname (p : string) : string :=
  match removelast (split_on "/"%char "" p) with
  | [] => "."
  | segs => join "/" segs
  end.

Definition is_word_char (c : ascii) : bool :=
  let n := nat_of_ascii c in
  ((48 <=? n) && (n <=? 57) || (65 <=? n) && (n <=? 90)
   || (97 <=? n) && (n <=? 122) || (n =? 95))%nat.

Fixpoint take_word (s : string) : string :=
  match s with
  | EmptyString => ""
  | String c s' => if is_word_char c then String c (take_word s') else ""
  end.

(** [code.match(/export interface (\w+)/)], returning capture group 1
    of the leftmost match. *)
Fixpoint match_export_interface (code : string) : option string :=
  match code with
  | EmptyString => None
  | String _ rest =>
      if startsWith code "export interface " then
        let w := take_word (slice code 17) in
        if w =? "" then match_export_interface rest else Some w
      else match_export_interface rest
  end.

(** *** The script *)

Definition OUTPUT_FILE : string := "./src/types/tools.ts".

Definition banner : string :=
  "/**" ++ nl ++ " * Auto-generated types from backend tool schemas" ++ nl
  ++ " * Do not edit manually - run " ++ dquote ++ "npm run generate:types"
  ++ dquote ++ " to update" ++ nl ++ " */" ++ nl ++ nl.
Arguments banner : simpl never.

(** The second loop: one line per entry of [toolOutputTypes]. *)
Fixpoint mapping_lines (entries : list (string * string)) : string :=
  match entries with
  | [] => ""
  | (toolName, typeName) :: rest =>
      "  " ++ toolName ++ ": " ++ typeName ++ ";" ++ nl ++ mapping_lines rest
  end.

Definition mapping_block (toolOutputTypes : obj string) : string :=
  nl ++ "// Tool output type mapping" ++ nl
  ++ "// Used in toolRenderers.tsx to ensure type safety" ++ nl
  ++ "export type ToolOutputTypes = {" ++ nl
  ++ mapping_lines toolOutputTypes
  ++ "};" ++ nl.

(** [data.tools || {}], given the value of [data.tools]. *)
Definition tools_of (data_tools : value) : value :=
  if truthy data_tools then data_tools else VObj [].

Section Script.

(** [process.env.BACKEND_URL]. *)
Variable env_BACKEND_URL : option string.

(** The network: what [fetch(url)] settles to. *)
Variable fetch : string -> outcome response.

(** [compile] of json-schema-to-typescript with the options the script
    passes: the schema, the name, and the TypeScript code or a rejection. *)
Variable compile : value -> string -> outcome string.

Definition BACKEND_URL : string :=
  match env_BACKEND_URL with
  | Some url => if url =? "" then "http://localhost:8000" else url
  | None => "http://localhost:8000"
  end.

Open Scope script_scope.

(** The first loop, over [Object.entries(tools)]. *)
Fixpoint compile_tools (entries : list (string * value))
    (typeDefinitions : string) (toolOutputTypes : obj string)
  : script (string * obj string) :=
  match entries with
  | [] => ret (typeDefinitions, toolOutputTypes)
  | (toolName, toolConfig) :: rest =>
      let toolData := toolConfig in
      output <- await (get toolData "output") ;;
      if truthy output then
        console_log ("Generating types for " ++ toolName ++ "...") ;;
        tsCode <- await (compile output toolName) ;;
        let typeDefinitions := typeDefinitions ++ tsCode ++ nl in
        let typeMatch := match_export_interface tsCode in
        let toolOutputTypes :=
          match typeMatch with
          | Some typeName => assign_primitive toolName typeName toolOutputTypes
          | None => toolOutputTypes
          end in
        compile_tools rest typeDefinitions toolOutputTypes
      else compile_tools rest typeDefinitions toolOutputTypes
  end.

(** The body of the [try] block. *)
Definition try_block : script unit :=
  console_log "Fetching tool schemas from backend..." ;;
  response <- await (fetch (BACKEND_URL ++ "/tools-schema")) ;;
  (if negb (ok response)
   then throw (Error ("Failed to fetch schemas: " ++ statusText response))
   else ret tt) ;;
  document <- await (json_body response) ;;
  let data := parse document in
  data_tools <- await (get data "tools") ;;
  let tools := tools_of data_tools in
  let outputDir := dirname OUTPUT_FILE in
  present <- existsSync outputDir ;;
  (if negb present then mkdirSync outputDir else ret tt) ;;
  let typeDefinitions := banner in
  r <- compile_tools (Object_entries tools) typeDefinitions [] ;;
  let typeDefinitions := fst r in
  let toolOutputTypes := snd r in
  let typeDefinitions := typeDefinitions ++ mapping_block toolOutputTypes in
  writeFileSync OUTPUT_FILE typeDefinitions ;;
  console_log ("✓ Types generated successfully at " ++ OUTPUT_FILE).

(** [generateTypes()]: the exit status of the process and the world it
    leaves.  The [catch] block reports and exits with status 1; without
    it the process ends with status 0. *)
Definition generateTypes (w : world) : Z * world :=
  match try_block w with
  | (Ok _, w') => (0%Z, w')
  | (Throw error, w') =>
      match console_error ("Failed to generate types: " ++ message_of error) w' with
      | (_, w'') => (1%Z, w'')
      end
  end.

Close Scope script_scope.

(** *** Views of a run, used to state its properties *)

(** The interface name the first loop records for one entry of [tools],
    when it records one. *)
Definition interface_of (toolName : string) (toolConfig : value)
  : option string :=
  match get toolConfig "output" with
  | Ok output =>
      if truthy output then
        match compile output toolName with
        | Ok tsCode => match_export_interface tsCode
        | Throw _ => None
        end
      else None
  | Throw _ => None
  end.

(** The first loop with the world erased: what it returns or throws. *)
Fixpoint loop_result (entries : list (string * value))
    (typeDefinitions : string) (toolOutputTypes : obj string)
  : outcome (string * obj string) :=
  match entries with
  | [] => Ok (typeDefinitions, toolOutputTypes)
  | (toolName, toolConfig) :: rest =>
      output <- get toolConfig "output" ;;
      if truthy output then
        tsCode <- compile output toolName ;;
        loop_result rest (typeDefinitions ++ tsCode ++ nl)
          match match_export_interface tsCode with
          | Some typeName => assign_primitive toolName typeName toolOutputTypes
          | None => toolOutputTypes
          end
      else loop_result rest typeDefinitions toolOutputTypes
  end.

(** The [try] block with the world erased, up to the write: the type
    definitions and the registry, or the exception thrown by the fetch,
    the response, its body or the compiler. *)
Definition run_result : outcome (string * obj string) :=
  response <- fetch (BACKEND_URL ++ "/tools-schema") ;;
  _ <- (if negb (ok response)
        then Throw (Error ("Failed to fetch schemas: " ++ statusText response))
        else Ok tt) ;;
  document <- json_body response ;;
  data_tools <- get (parse document) "tools" ;;
  loop_result (Object_entries (tools_of data_tools)) banner [].

(** The artifact a successful run writes. *)
Definition artifact (r : string * obj string) : string :=
  fst r ++ mapping_block (snd r).

(** One step of the loop on the registry. *)
Definition record (toolName : string) (toolConfig : value)
    (toolOutputTypes : obj string) : obj string :=
  match interface_of toolName toolConfig with
  | Some typeName => assign_primitive toolName typeName toolOutputTypes
  | None => toolOutputTypes
  end.

(** A tool is recorded when its name is not [__proto__] and the loop
    finds an interface name for it. *)
Definition recorded (toolName : string) (toolConfig : value) : bool :=
  negb (toolName =? "__proto__")
  && match interface_of toolName toolConfig with
     | Some _ => true
     | None => false
     end.

End Script.

(** The [writeFileSync] calls among some events, oldest first. *)
Fixpoint writes (evs : list event) : list (string * string) :=
  match evs with
  | [] => []
  | WriteFileSync path content :: evs' => (path, content) :: writes evs'
  | _ :: evs' => writes evs'
  end.


End GenerateTypes.

(* ===================================================================== *)
(** ** The generated registry: [frontend/src/types/tools.ts]              *)
(* ===================================================================== *)

Module ToolsTs.
Import JS.

(** [export type ToolOutputTypes = { ... }]: tool name to the name of its
    primary generated type, as checked in. *)
Definition ToolOutputTypes : obj string :=
  [ ("execute_sql", "SQLQueryResult");
    ("render_chart", "ChartResult") ].

End ToolsTs.

(* ===================================================================== *)
(** ** React elements                                                     *)
(* ===================================================================== *)

Module React.
Import JS.

(** What a JSX expression evaluates to.  An element records its tag (a
    host tag or a component name), its props and its children; component
    functions are run later by React, not by the expression that builds
    the element. *)
Inductive jsx : Type :=
| Elem (tag : string) (props : list (string * value)) (children : list jsx)
| Text (s : string)
| Expr (v : value)             (* a value in braces *)
| Items (l : list jsx)         (* an array of children *)
| Formatted (n : Z)            (* new Intl.NumberFormat().format(n) *)
| Foreign (what : string).     (* an object or function that is not data *)

Definition className (c : string) : list (string * value) :=
  [("className", VStr c)].

End React.

(* ===================================================================== *)
(** ** Result components                                                  *)
(* ===================================================================== *)

Module Components.
Import JS React.

(** [WeatherResult({ data })]. *)
Definition WeatherResult (data : value) : outcome jsx :=
  city <- get data "city" ;;
  condition <- get data "condition" ;;
  temperature <- get data "temperature" ;;
  unit <- get data "unit" ;;
  Ok (Elem "div" (className "tool-result weather")
        [ Elem "div" (className "tool-result-header")
            [ Text "🌤️ Weather for "; Expr city ];
          Elem "div" (className "tool-result-content")
            [ Elem "p" []
                [ Elem "strong" [] [Text "Condition:"]; Text " ";
                  Expr condition ];
              Elem "p" []
                [ Elem "strong" [] [Text "Temperature:"]; Text " ";
                  Expr temperature; Text "°"; Expr unit ] ] ]).

(** [formatValue(value)]; the result is a string, kept symbolic where it
    comes from [Intl.NumberFormat]. *)
Definition formatValue (value : JS.value) : outcome jsx :=
  match value with
  | VNull | VUndefined => Ok (Text "—")
  | VBool b => Ok (Text (if b then "true" else "false"))
  | VNum n => Ok (Formatted n)
  | _ => s <- to_string value ;; Ok (Text s)
  end.

(** [formatValue(row[col])].  The key is [ToPropertyKey(col)].  On a plain
    object, which is what the declared row type describes, a name found
    on [Object.prototype] only reads a builtin: [__proto__] reads the
    prototype object, any other name a native function, and [String]
    prints its source.  Of a row that is an array or a primitive only the
    own data is read. *)
Definition format_cell (row col : value) : outcome jsx :=
  match row with
  | VUndefined =>
      Throw (TypeError "Cannot read properties of undefined")
  | VNull =>
      Throw (TypeError "Cannot read properties of null")
  | VObj props =>
      k <- to_string col ;;
      match lookup k props with
      | Some x => formatValue x
      | None =>
          if k =? "__proto__" then Ok (Text "[object Object]")
          else if str_mem k object_prototype_keys
          then Ok (Foreign ("String(Object.prototype." ++ k ++ ")"))
          else formatValue VUndefined
      end
  | _ =>
      k <- to_string col ;;
      x <- get row k ;;
      formatValue x
  end.

(** [xs.map(f)]: only an array has [map]. *)
Definition array_map (xs : value) (f : value -> nat -> outcome jsx)
  : outcome jsx :=
  match xs with
  | VArr items => l <- mapM_idx f 0 items ;; Ok (Items l)
  | VUndefined =>
      Throw (TypeError "Cannot read properties of undefined (reading 'map')")
  | VNull =>
      Throw (TypeError "Cannot read properties of null (reading 'map')")
  | _ => Throw (TypeError "map is not a function")
  end.

(** [SQLQueryResult({ data })]. *)
Definition SQLQueryResult (data : value) : outcome jsx :=
  success <- get data "success" ;;
  if negb (truthy success) then
    query <- get data "query" ;;
    error <- get data "error" ;;
    Ok (Elem "div" (className "tool-result sql-error")
          [ Elem "div" (className "tool-result-header")
              [ Text "❌ SQL Query Error" ];
            Elem "div" (className "tool-result-content")
              [ Elem "div" (className "query-display")
                  [ Elem "code" [] [Expr query] ];
                Elem "p" (className "error-message") [Expr error] ] ])
  else
    row_count <- get data "row_count" ;;
    id <- get data "id" ;;
    query <- get data "query" ;;
    body <-
      (if strict_eq_num row_count 0 then
         Ok (Elem "p" (className "no-results") [Text "No results returned"])
       else
         column_names <- get data "column_names" ;;
         head <- array_map column_names
                   (fun col _ => Ok (Elem "th" [("key", col)] [Expr col])) ;;
         rows <- get data "rows" ;;
         body_rows <- array_map rows
           (fun row idx =>
              column_names <- get data "column_names" ;;
              cells <- array_map column_names
                (fun col _ =>
                   c <- to_string col ;;
                   cell <- format_cell row col ;;
                   Ok (Elem "td"
                         [("key", VStr (nat_to_string idx ++ "-" ++ c))]
                         [cell])) ;;
              Ok (Elem "tr" [("key", VNum (Z.of_nat idx))] [cells])) ;;
         Ok (Elem "div" (className "table-container")
               [ Elem "table" (className "results-table")
                   [ Elem "thead" [] [ Elem "tr" [] [head] ];
                     Elem "tbody" [] [body_rows] ] ])) ;;
    Ok (Elem "div" (className "tool-result sql-query")
          [ Elem "div" (className "tool-result-header")
              [ Text "📊 SQL Query Results ("; Expr row_count; Text " row";
                Text (if negb (strict_eq_num row_count 1) then "s" else "");
                Text ")";
                Elem "span" (className "result-id") [Text "#"; Expr id] ];
            Elem "div" (className "tool-result-content")
              [ Elem "div" (className "query-display")
                  [ Elem "code" [] [Expr query] ];
                body ] ]).

End Components.

(* ===================================================================== *)
(** ** The renderer map and the extractor: [toolRenderers.tsx]            *)
(* ===================================================================== *)

Module ToolRenderers.
Import JS React.

(** [toolRenderers]: each entry builds the element of its component. *)
Definition toolRenderers : obj (value -> jsx) :=
  [ ("get_weather", fun data => Elem "WeatherResult" [("data", data)] []);
    ("execute_sql", fun data => Elem "SQLQueryResult" [("data", data)] []);
    ("render_chart", fun data => Elem "ChartResult" [("data", data)] []) ].

(** [hasToolRenderer(toolName)]: [toolName in toolRenderers]. *)
Definition hasToolRenderer (toolName : string) : bool :=
  js_in toolName toolRenderers.

(** [Object.prototype[member].call(toolRenderers, output)] for an
    [output] that is a non-null object: what the call
    [toolRenderers[toolName](output)] runs when [toolName] is not an own
    key. *)
Definition call_inherited (member : string) (output : value) : outcome jsx :=
  if member =? "constructor" then Ok (Expr output)
  else if (member =? "toString") || (member =? "toLocaleString")
  then Ok (Text "[object Object]")
  else if member =? "valueOf" then Ok (Foreign "toolRenderers")
  else if (member =? "hasOwnProperty") || (member =? "propertyIsEnumerable")
  then k <- to_string output ;; Ok (Expr (VBool (has_own k toolRenderers)))
  else if member =? "isPrototypeOf" then Ok (Expr (VBool false))
  else if member =? "__lookupGetter__"
  then k <- to_string output ;;
       Ok (if k =? "__proto__" then Foreign "get __proto__" else Expr VUndefined)
  else if member =? "__lookupSetter__"
  then k <- to_string output ;;
       Ok (if k =? "__proto__" then Foreign "set __proto__" else Expr VUndefined)
  else if member =? "__defineGetter__"
  then Throw (TypeError "Object.prototype.__defineGetter__: Expecting function")
  else if member =? "__defineSetter__"
  then Throw (TypeError "Object.prototype.__defineSetter__: Expecting function")
  else Throw (TypeError "toolRenderers[toolName] is not a function").

(** [callToolRenderer(toolName, output)]. *)
Definition callToolRenderer (toolName : string) (output : value)
  : outcome jsx :=
  match lookup toolName toolRenderers with
  | Some renderer => Ok (renderer output)
  | None => call_inherited toolName output
  end.

(** [renderToolPart(part)]: the completion (a node, [null] as [None], or
    an exception) and the lines passed to [console.warn]. *)
Definition renderToolPart (part : value) : outcome (option jsx) * list string :=
  if negb (typeof part =? "object") || is_null part then (Ok None, [])
  else
    let partObj := part in
    let type := field partObj "type" in
    let output := field partObj "output" in
    match type with
    | VStr type_string =>
        if negb (startsWith type_string "tool-") then (Ok None, [])
        else
          let toolName := slice type_string 5 in
          if negb (hasToolRenderer toolName) then
            (Ok None, ["No renderer found for tool: " ++ toolName])
          else if negb (typeof output =? "object") || is_null output
          then (Ok None, ["Invalid output for tool: " ++ toolName])
          else
            match callToolRenderer toolName output with
            | Ok rendered =>
                (Ok (Some (Elem "ToolResultWrapper"
                             [ ("toolName", VStr toolName);
                               ("toolOutput", output) ]
                             [rendered])), [])
            | Throw e => (Throw e, [])
            end
    | _ => (Ok None, [])
    end.

End ToolRenderers.

(* ===================================================================== *)
(** ** Helpers: [frontend/src/types/tool-utils.ts]                        *)
(* ===================================================================== *)

Module ToolUtils.
Import JS.

(** [getToolOutput(part, toolName)]; [null] is [VNull]. *)
Definition getToolOutput (part : value) (toolName : string) : value :=
  if (typeof part =? "object")
     && negb (is_null part)
     && strict_eq_string (field part "type") ("tool-" ++ toolName)
     && truthy (field part "output")
  then field part "output"
  else VNull.

(** [isToolPart(part, toolName)]. *)
Definition isToolPart (part : value) (toolName : string) : bool :=
  (typeof part =? "object")
  && negb (is_null part)
  && strict_eq_string (field part "type") ("tool-" ++ toolName).

End ToolUtils.

(* ===================================================================== *)
(** ** Notions of the specification and sample inputs                     *)
(* ===================================================================== *)

Module Spec.
Import JS.

(** A tool entry of the schema response that has an [output] key. *)
Definition has_output_key (toolConfig : value) : bool :=
  match toolConfig with
  | VObj props => has_own "output" props
  | _ => false
  end.

(** The registry keys as the specification states them: the names of the
    entries that have an [output] key. *)
Definition keys_are_tools_with_output (entries : list (string * value))
    (registry : obj string) : Prop :=
  forall toolName,
    In toolName (keys registry)
    <-> exists toolConfig,
          In (toolName, toolConfig) entries
          /\ has_output_key toolConfig = true.

(** [precedes a b]: the key [a] may come before the key [b] in the
    enumeration of an object.  Before an array index come only array
    indices of smaller value; before any other key come only keys other
    than itself. *)
Definition precedes (a b : string) : Prop :=
  if is_array_index b
  then is_array_index a = true /\ (index_value a < index_value b)%Z
  else a <> b.

Definition not_index (k : string) : bool := negb (is_array_index k).

Fixpoint unseen (seen : list string) (l : list string) : list string :=
  match l with
  | [] => []
  | x :: l' =>
      if str_mem x seen then unseen seen l' else x :: unseen (x :: seen) l'
  end.

(** The names of a list at their first occurrence, in order. *)
Definition first_occurrences (l : list string) : list string := unseen [] l.

(** The order in which an object whose members were declared as [names]
    enumerates its keys [ks]: the same names, array indices first in
    ascending order, then the other names in the order of their first
    declaration. *)
Definition own_property_order (names ks : list string) : Prop :=
  StronglySorted precedes ks
  /\ (forall k, In k ks <-> In k names)
  /\ filter not_index ks = first_occurrences (filter not_index names).

(** The last member of that name, which is the one [JSON.parse] keeps. *)
Definition member (name : string) (members : list (string * json))
  : option json :=
  lookup name (rev members).

(** The tool names of a schema response in the order in which the
    document declares them. *)
Definition declared_tool_names (document : json) : list string :=
  match document with
  | JObject members =>
      match member "tools" members with
      | Some (JObject tool_members) => map fst tool_members
      | _ => []
      end
  | _ => []
  end.

Definition is_string (v : value) : bool :=
  match v with VStr _ => true | _ => false end.

Definition is_plain_object (v : value) : bool :=
  match v with VObj _ => true | _ => false end.

Definition array_of (p : value -> bool) (v : value) : bool :=
  match v with VArr items => forallb p items | _ => false end.

(** An object laid out as the generated [SQLQueryResult] interface of
    [tools.ts]: the required fields [id], [success], [query], [rows] and
    [row_count] present with their types, the optional [error] and
    [column_names] absent or of their types. *)
Definition shaped_as_SQLQueryResult (data : value) : bool :=
  match data with
  | VObj props =>
      match lookup "id" props, lookup "success" props, lookup "query" props,
            lookup "rows" props, lookup "row_count" props with
      | Some (VStr _), Some (VBool _), Some (VStr _), Some rows,
        Some (VNum _) =>
          array_of is_plain_object rows
          && match lookup "error" props with
             | None | Some VNull | Some (VStr _) => true
             | _ => false
             end
          && match lookup "column_names" props with
             | None => true
             | Some names => array_of is_string names
             end
      | _, _, _, _, _ => false
      end
  | _ => false
  end.

End Spec.

Module Samples.
Import JS React GenerateTypes.

Definition empty_world : world := mkWorld [] [] [].

(** A world whose output file holds an earlier artifact. *)
Definition stale_world : world :=
  mkWorld ["./src/types"] [(OUTPUT_FILE, "export type ToolOutputTypes = {};")] [].

(** The lines passed to [console.log], oldest first. *)
Fixpoint log_lines (evs : list event) : list string :=
  match evs with
  | [] => []
  | ConsoleLog line :: evs' => line :: log_lines evs'
  | _ :: evs' => log_lines evs'
  end.

(** A schema endpoint that answers every request with [document]. *)
Definition serve (document : json) : string -> outcome response :=
  fun _ => Ok (mkResponse true "OK" (Ok document)).

(** A stand-in for json-schema-to-typescript on the sample schemas: a
    schema that is a [$ref] is rejected, the samples referring to
    definitions they do not carry, which the library cannot resolve; an
    object schema with a title compiles to an open interface of that
    name, a string schema with a title to a type alias.  The samples have
    no other shape. *)
Definition sample_compile (schema : value) (name : string) : outcome string :=
  match field schema "$ref" with
  | VStr pointer => Throw (Error ("Error resolving $ref pointer " ++ pointer))
  | _ =>
      match field schema "title", field schema "type" with
      | VStr title, VStr kind =>
          if kind =? "object" then
            Ok ("export interface " ++ title ++ " {" ++ nl
                ++ "  [k: string]: unknown;" ++ nl ++ "}" ++ nl)
          else if kind =? "string" then
            Ok ("export type " ++ title ++ " = string;" ++ nl)
          else Throw (Error "unsupported schema")
      | _, _ => Throw (Error "unsupported schema")
      end
  end.

(** [{ $ref: '#/definitions/Missing' }]: a reference to a definition the
    schema does not carry. *)
Definition dangling_schema : json :=
  JObject [("$ref", JString "#/definitions/Missing")].

Definition object_schema (title : string) : json :=
  JObject [("title", JString title); ("type", JString "object")].

(** [{ tools: { get_weather: { output: <Weather> }, ping: {} } }]. *)
Definition weather_document : json :=
  JObject [("tools", JObject
    [ ("get_weather", JObject [("output", object_schema "Weather")]);
      ("ping", JObject []) ])].

(** [{ tools: { a: { output: null }, b: { output: false } } }]. *)
Definition falsy_output_document : json :=
  JObject [("tools", JObject
    [ ("a", JObject [("output", JNull)]);
      ("b", JObject [("output", JBool false)]) ])].

(** [{ tools: { first_name: { output: { title: 'Name', type: 'string' } } } }]:
    a schema that compiles to a type alias. *)
Definition alias_document : json :=
  JObject [("tools", JObject
    [ ("first_name",
       JObject [("output", JObject [ ("title", JString "Name");
                                     ("type", JString "string") ])]) ])].

(** [{ tools: { b: { output: <B> }, 1: { output: <One> } } }], with the
    tool named [1] declared second. *)
Definition index_name_document : json :=
  JObject [("tools", JObject
    [ ("b", JObject [("output", object_schema "B")]);
      ("1", JObject [("output", object_schema "One")]) ])].


(** [{ type: 'tool-get_weather', output: { city: 'Tokyo', temperature: 18 } }]. *)
Definition tokyo : value :=
  VObj [("city", VStr "Tokyo"); ("temperature", VNum 18)].

Definition weather_part : value :=
  VObj [("type", VStr "tool-get_weather"); ("output", tokyo)].

(** [{ type: 'text', text: 'hello' }]. *)
Definition text_part : value :=
  VObj [("type", VStr "text"); ("text", VStr "hello")].

(** [{ type: 'tool-get_weather', output: 'not an object' }]. *)
Definition malformed_part : value :=
  VObj [("type", VStr "tool-get_weather"); ("output", VStr "not an object")].

(** [{ type: 'tool-unknown_tool', output: {} }]. *)
Definition unknown_tool_part : value :=
  VObj [("type", VStr "tool-unknown_tool"); ("output", VObj [])].

(** [{ type: 'tool-__proto__', output: {} }]. *)
Definition proto_part : value :=
  VObj [("type", VStr "tool-__proto__"); ("output", VObj [])].

(** [{ type: 'tool-toString', output: {} }]. *)
Definition toString_part : value :=
  VObj [("type", VStr "tool-toString"); ("output", VObj [])].

(** A successful query result of one row, without the optional
    [column_names]. *)
Definition sql_without_column_names : value :=
  VObj [ ("id", VStr "q1"); ("success", VBool true);
         ("query", VStr "select 1 as a");
         ("rows", VArr [VObj [("a", VNum 1)]]);
         ("row_count", VNum 1) ].

End Samples.

(* ===================================================================== *)
(** ** Further views of a generation run                                  *)
(* ===================================================================== *)

Module RunViews.
Import JS GenerateTypes.

(** The [mkdirSync] calls among some events, oldest first. *)
Fixpoint mkdirs (evs : list event) : list string :=
  match evs with
  | [] => []
  | MkdirSync path :: evs' => path :: mkdirs evs'
  | _ :: evs' => mkdirs evs'
  end.

(** A string of word characters only, and a string that begins with
    one. *)
Fixpoint all_word (s : string) : bool :=
  match s with
  | EmptyString => true
  | String c s' => is_word_char c && all_word s'
  end.

Definition starts_with_word (s : string) : bool :=
  match s with
  | EmptyString => false
  | String c _ => is_word_char c
  end.


Section Views.

Variable compile : value -> string -> outcome string.

(** An entry the first loop gets through: its [output] can be read and,
    when truthy, compiles. *)
Definition passes (toolName : string) (toolConfig : value) : bool :=
  match get toolConfig "output" with
  | Ok output =>
      if truthy output then
        match compile output toolName with
        | Ok _ => true
        | Throw _ => false
        end
      else true
  | Throw _ => false
  end.

(** The code the first loop appends for the entries it compiles: each
    compiled text followed by a line feed, in the order of the entries. *)
Fixpoint emitted_code (entries : list (string * value)) : string :=
  match entries with
  | [] => ""
  | (toolName, toolConfig) :: rest =>
      match get toolConfig "output" with
      | Ok output =>
          if truthy output then
            match compile output toolName with
            | Ok tsCode => tsCode ++ nl ++ emitted_code rest
            | Throw _ => emitted_code rest
            end
          else emitted_code rest
      | Throw _ => emitted_code rest
      end
  end.

End Views.

(** The world in which the first loop starts, once the response has been
    read: the first line is logged and the output directory exists. *)
Definition ready (w : world) : world :=
  let w1 := mkWorld (dirs w) (files w)
              (events w ++ [ConsoleLog "Fetching tool schemas from backend..."]) in
  if str_mem (dirname OUTPUT_FILE) (dirs w) then w1
  else mkWorld (dirname OUTPUT_FILE :: dirs w1) (files w1)
         (events w1 ++ [MkdirSync (dirname OUTPUT_FILE)]).

(** [{}]: a response without a [tools] member. *)
Definition empty_document : json := JObject [].

(** [{ tools: { a: { output: <A> }, b: null } }]: the entry [b] is
    [null]. *)
Definition null_entry_document : json :=
  JObject [("tools", JObject
    [ ("a", JObject [("output", Samples.object_schema "A")]);
      ("b", JNull) ])].

(** [{ tools: { a: { output: <A> },
    broken: { output: { $ref: '#/definitions/Missing' } },
    c: { output: <C> } } }]: the second schema does not compile. *)
Definition second_broken_document : json :=
  JObject [("tools", JObject
    [ ("a", JObject [("output", Samples.object_schema "A")]);
      ("broken", JObject [("output", Samples.dangling_schema)]);
      ("c", JObject [("output", Samples.object_schema "C")]) ])].

(** An endpoint that answers [404 Not Found]. *)
Definition not_found : string -> outcome response :=
  fun _ => Ok (mkResponse false "Not Found" (Throw (Error "no body"))).

(** A world with another file beside the output file. *)
Definition busy_world : world :=
  mkWorld ["./src"] [("./src/main.tsx", "render();")] [].

End RunViews.

Module MoreSamples.
Import JS.

(** A successful query result of two rows and two columns; the second
    row lacks the second column. *)
Definition sql_two_rows : value :=
  VObj [ ("id", VStr "q3"); ("success", VBool true);
         ("query", VStr "select a, b from t");
         ("rows", VArr [ VObj [("a", VNum 1); ("b", VStr "x")];
                         VObj [("a", VNull)] ]);
         ("row_count", VNum 2);
         ("column_names", VArr [VStr "a"; VStr "b"]) ].

End MoreSamples.

(* ===================================================================== *)
(** ** The chat view: [frontend/src/components/Chat.tsx]                  *)
(* ===================================================================== *)

Module Chat.
Import JS React ToolRenderers.

(** *** [String.prototype.trim]

    White space and line terminators of the language, by their UTF-8
    encodings: the controls U+0009 to U+000D and the space; U+00A0;
    U+1680, U+2000 to U+200A, U+2028, U+2029, U+202F, U+205F, U+3000 and
    U+FEFF. *)
Definition is_space1 (c : ascii) : bool :=
  let n := nat_of_ascii c in
  ((9 <=? n) && (n <=? 13) || (n =? 32))%nat.

Definition is_space2 (c1 c2 : ascii) : bool :=
  ((nat_of_ascii c1 =? 194) && (nat_of_ascii c2 =? 160))%nat.

Definition is_space3 (c1 c2 c3 : ascii) : bool :=
  let a := nat_of_ascii c1 in
  let b := nat_of_ascii c2 in
  let c := nat_of_ascii c3 in
  ((a =? 225) && (b =? 154) && (c =? 128)
   || (a =? 226) && (b =? 128)
      && ((128 <=? c) && (c <=? 138) || (c =? 168) || (c =? 169) || (c =? 175))
   || (a =? 226) && (b =? 129) && (c =? 159)
   || (a =? 227) && (b =? 128) && (c =? 128)
   || (a =? 239) && (b =? 187) && (c =? 191))%nat.

(** [s.trimStart()]. *)
Fixpoint trimStart (s : string) : string :=
  match s with
  | EmptyString => s
  | String c1 s1 =>
      if is_space1 c1 then trimStart s1
      else
        match s1 with
        | EmptyString => s
        | String c2 s2 =>
            if is_space2 c1 c2 then trimStart s2
            else
              match s2 with
              | EmptyString => s
              | String c3 s3 =>
                  if is_space3 c1 c2 c3 then trimStart s3 else s
              end
        end
  end.

Fixpoint reverse_onto (acc s : string) : string :=
  match s with
  | EmptyString => acc
  | String c s' => reverse_onto (String c acc) s'
  end.

Definition reverse (s : string) : string := reverse_onto "" s.

(** [trimStart] on a string read backwards: the bytes of a character come
    last byte first. *)
Fixpoint trimStart_backwards (s : string) : string :=
  match s with
  | EmptyString => s
  | String c1 s1 =>
      if is_space1 c1 then trimStart_backwards s1
      else
        match s1 with
        | EmptyString => s
        | String c2 s2 =>
            if is_space2 c2 c1 then trimStart_backwards s2
            else
              match s2 with
              | EmptyString => s
              | String c3 s3 =>
                  if is_space3 c3 c2 c1 then trimStart_backwards s3 else s
              end
        end
  end.

(** [s.trimEnd()]. *)
Definition trimEnd (s : string) : string :=
  reverse (trimStart_backwards (reverse s)).

(** [s.trim()]. *)
Definition trim (s : string) : string := trimEnd (trimStart s).

(** A string of ASCII white space only. *)
Fixpoint blank (s : string) : bool :=
  match s with
  | EmptyString => true
  | String c s' => is_space1 c && blank s'
  end.

(** *** The form *)

(** What a handler does to the outside: the calls it makes, in order. *)
Inductive action : Type :=
| PreventDefault
| SendMessage (text : string)
| SetInput (s : string).

(** [handleSubmit(e)], for the current [input] and [status]. *)
Definition handleSubmit (input status : string) : list action :=
  PreventDefault ::
  (if negb (truthy (VStr (trim input))) || negb (status =? "ready") then []
   else [SendMessage input; SetInput ""]).

(** The [disabled] attribute of the text field and of the button, and the
    label of the button. *)
Definition input_disabled (status : string) : bool :=
  negb (status =? "ready").

Definition submit_disabled (input status : string) : bool :=
  negb (status =? "ready") || negb (truthy (VStr (trim input))).

Definition submit_label (status : string) : string :=
  if negb (status =? "ready") then "Streaming..." else "Send".

(** The value of [input] after some actions. *)
Fixpoint input_after (input : string) (l : list action) : string :=
  match l with
  | [] => input
  | SetInput s :: l' => input_after s l'
  | _ :: l' => input_after input l'
  end.

(** The texts sent by some actions, oldest first. *)
Fixpoint sent (l : list action) : list string :=
  match l with
  | [] => []
  | SendMessage text :: l' => text :: sent l'
  | _ :: l' => sent l'
  end.

(** *** [renderMessage] *)

(** The callback of [message.parts?.map]: the node for one part and the
    lines passed to [console.warn]. *)
Definition render_part (part : value) (idx : nat)
  : outcome jsx * list string :=
  match get part "type" with
  | Throw e => (Throw e, [])
  | Ok type =>
      if strict_eq_string type "text" then
        (Ok (Elem "div" [ ("key", VNum (Z.of_nat idx));
                          ("className", VStr "message-text") ]
               [Expr (field part "text")]), [])
      else
        match renderToolPart part with
        | (Ok (Some toolOutput), warnings) =>
            (Ok (Elem "div" [("key", VNum (Z.of_nat idx))] [toolOutput]),
             warnings)
        | (Ok None, warnings) => (Ok (Expr VNull), warnings)
        | (Throw e, warnings) => (Throw e, warnings)
        end
  end.

(** [parts.map(callback)] from index [idx] on: the callback runs on the
    parts in order and stops at the first exception. *)
Fixpoint render_parts (parts : list value) (idx : nat)
  : outcome (list jsx) * list string :=
  match parts with
  | [] => (Ok [], [])
  | part :: rest =>
      match render_part part idx with
      | (Ok node, warnings) =>
          match render_parts rest (S idx) with
          | (Ok nodes, warnings') =>
              (Ok (node :: nodes), (warnings ++ warnings')%list)
          | (Throw e, warnings') => (Throw e, (warnings ++ warnings')%list)
          end
      | (Throw e, warnings) => (Throw e, warnings)
      end
  end.

(** [renderMessage(message)]. *)
Definition renderMessage (message : value) : outcome jsx * list string :=
  match get message "parts" with
  | Throw e => (Throw e, [])
  | Ok VUndefined =>
      (Ok (Elem "div" (className "message-content") [Expr VUndefined]), [])
  | Ok VNull =>
      (Ok (Elem "div" (className "message-content") [Expr VUndefined]), [])
  | Ok (VArr parts) =>
      match render_parts parts 0 with
      | (Ok nodes, warnings) =>
          (Ok (Elem "div" (className "message-content") [Items nodes]),
           warnings)
      | (Throw e, warnings) => (Throw e, warnings)
      end
  | Ok _ => (Throw (TypeError "message.parts?.map is not a function"), [])
  end.

(** A part the callback cannot fail on: not [null] or [undefined], and if
    its type names a tool, the name is not a member of
    [Object.prototype]. *)
Definition harmless (part : value) : bool :=
  match part with
  | VUndefined | VNull => false
  | _ =>
      match field part "type" with
      | VStr type =>
          negb (startsWith type "tool-"
                && str_mem (slice type 5) object_prototype_keys)
      | _ => true
      end
  end.

End Chat.

(* ===================================================================== *)
(** ** The chart component: [ChartResult.tsx]                             *)
(* ===================================================================== *)

Module Charts.
Import JS.

(** Prop values.  Beside data, the charts are given numbers that are not
    integers, kept by their literals, and values read with a computed
    key, which may come from up the prototype chain. *)
Inductive prop : Type :=
| PData (v : value)
| PNumber (literal : string)
| PMember (base : value) (key : string)   (* [base[key]], found on no own data *)
| PRecord (fields : list (string * prop))
| PList (items : list prop).

(** Elements of a chart: the tag is a host tag or a component of the
    chart library, which React runs later. *)
Inductive chart : Type :=
| El (tag : string) (props : list (string * prop)) (children : list chart)
| Txt (s : string)
| Val (v : value)
| Seq (l : list chart).

Definition str (s : string) : prop := PData (VStr s).
Definition num (n : Z) : prop := PData (VNum n).
Definition flag (b : bool) : prop := PData (VBool b).

Definition cls (c : string) : list (string * prop) :=
  [("className", str c)].

Definition COLORS : list string :=
  [ "#3b82f6"; "#ef4444"; "#10b981"; "#f59e0b";
    "#8b5cf6"; "#ec4899"; "#06b6d4"; "#14b8a6" ].

(** [COLORS[idx % COLORS.length]]. *)
Definition color (idx : nat) : prop :=
  str (nth (idx mod length COLORS) COLORS "").

(** [s.toLowerCase()].  The letters [A] to [Z] go to [a] to [z]; the
    Kelvin sign U+212A goes to [k] and U+0130 to [i] followed by U+0307.
    Every other character outside ASCII is left as it is: its lower case
    is outside ASCII too, and the result is only compared with the ASCII
    labels of the [switch]. *)
Definition lower_ascii (c : ascii) : ascii :=
  let n := nat_of_ascii c in
  if ((65 <=? n) && (n <=? 90))%nat then ascii_of_nat (n + 32) else c.

Definition is_kelvin (c1 c2 c3 : ascii) : bool :=
  ((nat_of_ascii c1 =? 226) && (nat_of_ascii c2 =? 132)
   && (nat_of_ascii c3 =? 170))%nat.

Definition is_dotted_I (c1 c2 : ascii) : bool :=
  ((nat_of_ascii c1 =? 196) && (nat_of_ascii c2 =? 176))%nat.

Fixpoint toLowerCase (s : string) : string :=
  match s with
  | EmptyString => EmptyString
  | String c1 s1 =>
      match s1 with
      | String c2 s2 =>
          if is_dotted_I c1 c2
          then String "i" (String (ascii_of_nat 204) (String (ascii_of_nat 135)
                 (toLowerCase s2)))
          else
            match s2 with
            | String c3 s3 =>
                if is_kelvin c1 c2 c3 then String "k" (toLowerCase s3)
                else String (lower_ascii c1) (toLowerCase s1)
            | EmptyString => String (lower_ascii c1) (toLowerCase s1)
            end
      | EmptyString => String (lower_ascii c1) (toLowerCase s1)
      end
  end.

(** [type.toLowerCase()] for any value: only a string has the method. *)
Definition lower (type : value) : outcome string :=
  match type with
  | VStr s => Ok (toLowerCase s)
  | VUndefined =>
      Throw (TypeError "Cannot read properties of undefined (reading 'toLowerCase')")
  | VNull =>
      Throw (TypeError "Cannot read properties of null (reading 'toLowerCase')")
  | _ => Throw (TypeError "type.toLowerCase is not a function")
  end.

(** The [key] of an element: React keeps [undefined] as no key and turns
    every other value into a string. *)
Definition key_prop (key : value) : outcome (list (string * prop)) :=
  match key with
  | VUndefined => Ok []
  | _ => s <- to_string key ;; Ok [("key", str s)]
  end.

(** [xs.map(f)]: only an array has [map]. *)
Definition array_map {A} (xs : value) (f : value -> nat -> outcome A)
  : outcome (list A) :=
  match xs with
  | VArr items => mapM_idx f 0 items
  | VUndefined =>
      Throw (TypeError "Cannot read properties of undefined (reading 'map')")
  | VNull =>
      Throw (TypeError "Cannot read properties of null (reading 'map')")
  | _ => Throw (TypeError "map is not a function")
  end.

(** [item[key]] with a computed key: the base must not be [undefined] or
    [null]; the key is then [ToPropertyKey(key)].  Own data of a plain
    object or of an array is read as it is, and a name that a plain
    object neither has nor inherits reads [undefined]; anything else is
    left as the read itself. *)
Definition read (item key : value) : outcome prop :=
  match item with
  | VUndefined => Throw (TypeError "Cannot read properties of undefined")
  | VNull => Throw (TypeError "Cannot read properties of null")
  | VObj props =>
      k <- to_string key ;;
      match lookup k props with
      | Some x => Ok (PData x)
      | None =>
          if str_mem k object_prototype_keys then Ok (PMember item k)
          else Ok (PData VUndefined)
      end
  | VArr items =>
      k <- to_string key ;;
      if k =? "length" then Ok (num (Z.of_nat (length items)))
      else if is_array_index k
      then Ok (PData (nth (Z.to_nat (index_value k)) items VUndefined))
      else Ok (PMember item k)
  | _ => k <- to_string key ;; Ok (PMember item k)
  end.

(** [data.length] of an array. *)
Definition array_length (data : value) : nat :=
  match data with
  | VArr items => length items
  | _ => 0
  end.

(** [commonProps]. *)
Definition commonProps (data : value) : list (string * prop) :=
  [ ("data", PData data);
    ("margin", PData (VObj [ ("top", VNum 5); ("right", VNum 30);
                             ("left", VNum 0); ("bottom", VNum 5) ])) ].

(** The axes, tooltip and legend that the cartesian charts share. *)
Definition cartesian (xKey : value) : list chart :=
  [ El "CartesianGrid" [("strokeDasharray", str "3 3")] [];
    El "XAxis" [("dataKey", PData xKey)] [];
    El "YAxis" [] [];
    El "Tooltip" [] [];
    El "Legend" [] [] ].

Definition Line (key : value) (idx : nat) : outcome chart :=
  k <- key_prop key ;;
  Ok (El "Line" (k ++ [ ("type", str "monotone"); ("dataKey", PData key);
                        ("stroke", color idx); ("dot", flag false) ])%list []).

Definition Bar (key : value) (idx : nat) : outcome chart :=
  k <- key_prop key ;;
  Ok (El "Bar" (k ++ [ ("dataKey", PData key); ("fill", color idx) ])%list []).

Definition Area (key : value) (idx : nat) : outcome chart :=
  k <- key_prop key ;;
  Ok (El "Area" (k ++ [ ("type", str "monotone"); ("dataKey", PData key);
                        ("fill", color idx); ("stroke", color idx);
                        ("fillOpacity", PNumber "0.6") ])%list []).

Definition Scatter (key : value) (idx : nat) : outcome chart :=
  k <- key_prop key ;;
  Ok (El "Scatter" (k ++ [ ("name", PData key); ("dataKey", PData key);
                           ("fill", color idx) ])%list []).

Definition Cell (_ : value) (idx : nat) : outcome chart :=
  Ok (El "Cell" [ ("key", str ("cell-" ++ nat_to_string idx));
                  ("fill", color idx) ] []).

(** [renderChart(type, data, xKey, yKeys)]. *)
Definition renderChart (type data xKey yKeys : value) : outcome chart :=
  label <- lower type ;;
  if label =? "line" then
    series <- array_map yKeys Line ;;
    Ok (El "LineChart" (commonProps data) (cartesian xKey ++ [Seq series])%list)
  else if label =? "bar" then
    series <- array_map yKeys Bar ;;
    Ok (El "BarChart" (commonProps data) (cartesian xKey ++ [Seq series])%list)
  else if label =? "area" then
    series <- array_map yKeys Area ;;
    Ok (El "AreaChart" (commonProps data) (cartesian xKey ++ [Seq series])%list)
  else if label =? "scatter" then
    series <- array_map yKeys Scatter ;;
    Ok (El "ScatterChart" (commonProps data)
          (cartesian xKey ++ [Seq series])%list)
  else if label =? "composed" then
    series <- array_map yKeys
                (fun key idx =>
                   if (idx mod 2 =? 0)%nat then Line key idx else Bar key idx) ;;
    Ok (El "ComposedChart" (commonProps data)
          (cartesian xKey ++ [Seq series])%list)
  else if label =? "pie" then
    pieKey <- get yKeys "0" ;;
    cells <- array_map data Cell ;;
    Ok (El "PieChart" []
          [ El "Tooltip" [] [];
            El "Legend" [] [];
            El "Pie" [ ("data", PData data); ("dataKey", PData pieKey);
                       ("nameKey", PData xKey); ("cx", str "50%");
                       ("cy", str "50%"); ("outerRadius", num 120);
                       ("label", flag true) ]
              [Seq cells] ])
  else if label =? "radar" then
    name <- get yKeys "0" ;;
    Ok (El "RadarChart" (commonProps data)
          [ El "PolarGrid" [] [];
            El "PolarAngleAxis" [("dataKey", PData xKey)] [];
            El "PolarRadiusAxis" [] [];
            El "Radar" [ ("name", PData name); ("dataKey", PData name);
                         ("stroke", color 0); ("fill", color 0);
                         ("fillOpacity", PNumber "0.6") ] [];
            El "Tooltip" [] [];
            El "Legend" [] [] ])
  else if label =? "radial_bar" then
    dataKey <- get yKeys "0" ;;
    Ok (El "RadialBarChart"
          (commonProps data
           ++ [("innerRadius", str "10%"); ("outerRadius", str "90%")])%list
          [ El "PolarAngleAxis" [("type", str "number"); ("dataKey", PData xKey)] [];
            El "PolarRadiusAxis"
              [ ("angle", num 90);
                ("domain", PData (VArr [VNum 0; VStr "auto"])) ] [];
            El "RadialBar"
              [ ("label", PData (VObj [ ("position", VStr "insideStart");
                                        ("fill", VStr "#fff") ]));
                ("background", flag true);
                ("dataKey", PData dataKey);
                ("fill", color 0) ] [];
            El "Tooltip" [] [];
            El "Legend" [] [] ])
  else if label =? "funnel" then
    dataKey <- get yKeys "0" ;;
    cells <- array_map data Cell ;;
    Ok (El "FunnelChart" (commonProps data)
          [ El "Tooltip" [] [];
            El "Legend" [] [];
            El "Funnel" [ ("dataKey", PData dataKey); ("data", PData data);
                          ("isAnimationActive", flag true) ]
              [Seq cells] ])
  else if label =? "treemap" then
    dataKey <- get yKeys "0" ;;
    Ok (El "Treemap" [ ("width", num 700); ("height", num 400);
                       ("data", PData data); ("dataKey", PData dataKey);
                       ("stroke", str "#fff"); ("fill", color 0) ]
          [ El "Tooltip" [] [] ])
  else if label =? "sankey" then
    nodes <- array_map data
               (fun item _ => name <- read item xKey ;;
                              Ok (PRecord [("name", name)])) ;;
    links <- array_map data
               (fun item idx =>
                  valueKey <- get yKeys "0" ;;
                  value <- read item valueKey ;;
                  Ok (PRecord
                        [ ("source", num (Z.of_nat idx));
                          ("target",
                           num (Z.of_nat ((idx + 1) mod array_length data)));
                          ("value", value) ])) ;;
    Ok (El "Sankey"
          [ ("width", num 700); ("height", num 400);
            ("data", PRecord [("nodes", PList nodes); ("links", PList links)]);
            ("node", PData (VObj [ ("fill", VStr (nth 0 COLORS ""));
                                   ("fillOpacity", VNum 1) ]));
            ("link", PRecord [ ("stroke", color 0);
                               ("strokeOpacity", PNumber "0.3") ]);
            ("nodePadding", num 50) ]
          [ El "Tooltip" [] [] ])
  else
    Ok (El "div" (cls "chart-error") [Txt "Unsupported chart type: "; Val type]).

(** [ChartResult({ data })]. *)
Definition ChartResult (data : value) : outcome chart :=
  success <- get data "success" ;;
  if negb (truthy success) then
    error <- get data "error" ;;
    Ok (El "div" (cls "tool-result chart-error")
          [ El "div" (cls "tool-result-header")
              [ Txt "❌ Chart Rendering Error" ];
            El "div" (cls "tool-result-content")
              [ El "p" (cls "error-message") [Val error] ] ])
  else
    rows <- get data "rows" ;;
    config <- get data "config" ;;
    if negb (truthy rows) || strict_eq_num (field rows "length") 0 then
      Ok (El "div" (cls "tool-result chart-empty")
            [ El "div" (cls "tool-result-header") [ Txt "📊 Chart" ];
              El "div" (cls "tool-result-content")
                [ El "p" (cls "no-results")
                    [ Txt "No data available to render chart" ] ] ])
    else
      title <- get config "title" ;;
      chartTitle <-
        (if truthy title then Ok title
         else
           chart_type <- get config "chart_type" ;;
           s <- to_string chart_type ;;
           Ok (VStr (s ++ " Chart"))) ;;
      chart_type <- get config "chart_type" ;;
      x_key <- get config "x_key" ;;
      y_keys <- get config "y_keys" ;;
      drawn <- renderChart chart_type rows x_key y_keys ;;
      explanation <- get data "explanation" ;;
      Ok (El "div" (cls "tool-result chart-result")
            [ El "div" (cls "tool-result-header")
                [ Txt "📊 "; Val chartTitle ];
              El "div" (cls "tool-result-content chart-content")
                [ El "ResponsiveContainer"
                    [("width", str "100%"); ("height", num 400)]
                    [drawn];
                  if truthy explanation
                  then El "div" (cls "chart-explanation") [Val explanation]
                  else Val explanation ] ]).

(** An object laid out as the generated [ChartResult] interface of
    [tools.ts]: [success], [chart_id], [chart_type], [rows] and [config]
    present with their types, [error] absent or of its type; in [config],
    [chart_type], [x_key] and [y_keys] with their types and [title]
    absent, [null] or a string. *)
Definition shaped_as_ChartConfig (config : value) : bool :=
  match config with
  | VObj props =>
      match lookup "chart_type" props, lookup "x_key" props,
            lookup "y_keys" props with
      | Some (VStr _), Some (VStr _), Some y_keys =>
          Spec.array_of Spec.is_string y_keys
          && match lookup "title" props with
             | None | Some VNull | Some (VStr _) => true
             | _ => false
             end
      | _, _, _ => false
      end
  | _ => false
  end.

Definition shaped_as_ChartResult (data : value) : bool :=
  match data with
  | VObj props =>
      match lookup "success" props, lookup "chart_id" props,
            lookup "chart_type" props, lookup "rows" props,
            lookup "config" props with
      | Some (VBool _), Some (VStr _), Some (VStr _), Some rows, Some config =>
          Spec.array_of Spec.is_plain_object rows
          && shaped_as_ChartConfig config
          && match lookup "error" props with
             | None | Some VNull | Some (VStr _) => true
             | _ => false
             end
      | _, _, _, _, _ => false
      end
  | _ => false
  end.

(** The series of a chart: the children that come from [yKeys.map]. *)
Definition series_of (c : chart) : list chart :=
  match c with
  | El _ _ children =>
      match last children (Txt "") with
      | Seq l => l
      | _ => []
      end
  | _ => []
  end.

(** The [dataKey] of an element. *)
Definition dataKey_of (c : chart) : option prop :=
  match c with
  | El _ props _ => lookup "dataKey" props
  | _ => None
  end.

(** A series callback that keeps its key as [dataKey]. *)
Definition keeps_key (f : value -> nat -> outcome chart) : Prop :=
  forall key idx,
    Spec.is_string key = true ->
    exists c, f key idx = Ok c /\ dataKey_of c = Some (PData key).

(** The nodes and the links handed to a [Sankey] element. *)
Definition sankey_part (part : string) (c : chart) : list prop :=
  match c with
  | El _ props _ =>
      match lookup "data" props with
      | Some (PRecord fields) =>
          match lookup part fields with
          | Some (PList l) => l
          | _ => []
          end
      | _ => []
      end
  | _ => []
  end.

(** The labels of the [switch], and those whose chart draws one series
    per y key. *)
Definition chart_types : list string :=
  [ "line"; "bar"; "area"; "scatter"; "composed"; "pie"; "radar";
    "radial_bar"; "funnel"; "treemap"; "sankey" ].

Definition series_types : list string :=
  [ "line"; "bar"; "area"; "scatter"; "composed" ].

(** What the component shows when there is nothing to draw. *)
Definition no_data_panel : chart :=
  El "div" (cls "tool-result chart-empty")
    [ El "div" (cls "tool-result-header") [ Txt "📊 Chart" ];
      El "div" (cls "tool-result-content")
        [ El "p" (cls "no-results")
            [ Txt "No data available to render chart" ] ] ].

(** A failed chart, a chart with a title and a chart without rows or
    configuration. *)
Definition sales_chart : value :=
  VObj [ ("success", VBool true); ("chart_id", VStr "c1");
         ("chart_type", VStr "Bar");
         ("rows", VArr [ VObj [("month", VStr "Jan"); ("sales", VNum 3)];
                         VObj [("month", VStr "Feb"); ("sales", VNum 5)] ]);
         ("config", VObj [ ("chart_type", VStr "Bar");
                           ("x_key", VStr "month");
                           ("y_keys", VArr [VStr "sales"]);
                           ("title", VNull) ]) ].

Definition chart_without_config : value :=
  VObj [ ("success", VBool true); ("rows", VArr []) ].

Definition chart_with_rows_only : value :=
  VObj [ ("success", VBool true); ("rows", VArr [VObj [("a", VNum 1)]]) ].

End Charts.

(* ===================================================================== *)
(** ** Facts about property lists                                         *)
(* ===================================================================== *)

Module ObjFacts.
Import JS.

Lemma append_assoc (a b c : string) : (a ++ b) ++ c = a ++ (b ++ c).
Proof.
  induction a as [|x a IH]; simpl; [reflexivity | now rewrite IH].
Qed.

Lemma has_own_In {A} (k : string) (o : obj A) :
  has_own k o = true <-> In k (keys o).
Proof.
  unfold has_own.
  induction o as [|[k' v] o IH]; simpl.
  - split; [discriminate | tauto].
  - destruct (String.eqb_spec k' k) as [->|Hne].
    + split; auto.
    + rewrite IH. split; [auto | intros [H|H]; [contradiction | exact H]].
Qed.

Lemma has_own_false {A} (k : string) (o : obj A) :
  has_own k o = false <-> ~ In k (keys o).
Proof.
  rewrite <- has_own_In. destruct (has_own k o); split; intros; congruence.
Qed.

Lemma keys_replace {A} (k : string) (v : A) (o : obj A) :
  keys (replace k v o) = keys o.
Proof.
  induction o as [|[k' v'] o IH]; simpl; [reflexivity|].
  destruct (k' =? k); simpl; [reflexivity | now rewrite IH].
Qed.

Lemma In_keys_insert_index {A} (k : string) (v : A) (o : obj A) (x : string) :
  In x (keys (insert_index k v o)) <-> x = k \/ In x (keys o).
Proof.
  induction o as [|[k' v'] o IH]; simpl.
  - intuition.
  - destruct (is_array_index k' && (index_value k' <? index_value k)%Z);
      simpl; [rewrite IH|]; intuition.
Qed.

Lemma keys_app {A} (o1 o2 : obj A) : keys (o1 ++ o2)%list = (keys o1 ++ keys o2)%list.
Proof. unfold keys. apply map_app. Qed.

(** Defining a key adds that key and no other. *)
Lemma In_keys_define {A} (k : string) (v : A) (o : obj A) (x : string) :
  In x (keys (define k v o)) <-> x = k \/ In x (keys o).
Proof.
  unfold define.
  destruct (has_own k o) eqn:Hown.
  - rewrite keys_replace. apply has_own_In in Hown.
    split; [auto | intros [->|H]; auto].
  - destruct (is_array_index k).
    + apply In_keys_insert_index.
    + rewrite keys_app, in_app_iff. simpl. intuition.
Qed.

(** A new key that is not an array index goes last. *)
Lemma define_fresh {A} (k : string) (v : A) (o : obj A) :
  ~ In k (keys o) -> is_array_index k = false ->
  define k v o = (o ++ [(k, v)])%list.
Proof.
  intros Hk Hi. unfold define.
  apply has_own_false in Hk. now rewrite Hk, Hi.
Qed.

Lemma lookup_replace {A} (k : string) (v : A) (o : obj A) :
  has_own k o = true -> lookup k (replace k v o) = Some v.
Proof.
  unfold has_own.
  induction o as [|[k' v'] o IH]; simpl; [discriminate|].
  destruct (k' =? k) eqn:E; simpl; rewrite E; auto.
Qed.

Lemma lookup_insert_index {A} (k : string) (v : A) (o : obj A) :
  has_own k o = false -> lookup k (insert_index k v o) = Some v.
Proof.
  unfold has_own.
  induction o as [|[k' v'] o IH]; simpl.
  - now rewrite String.eqb_refl.
  - destruct (k' =? k) eqn:E; [discriminate|]. intros H.
    destruct (is_array_index k' && (index_value k' <? index_value k)%Z);
      simpl.
    + rewrite E. auto.
    + now rewrite String.eqb_refl.
Qed.

Lemma lookup_app_fresh {A} (k : string) (v : A) (o : obj A) :
  has_own k o = false -> lookup k (o ++ [(k, v)])%list = Some v.
Proof.
  unfold has_own.
  induction o as [|[k' v'] o IH]; simpl.
  - now rewrite String.eqb_refl.
  - destruct (k' =? k) eqn:E; [discriminate | auto].
Qed.

(** After [define k v] the key [k] reads [v]. *)
Lemma lookup_define {A} (k : string) (v : A) (o : obj A) :
  lookup k (define k v o) = Some v.
Proof.
  unfold define. destruct (has_own k o) eqn:Hown.
  - now apply lookup_replace.
  - destruct (is_array_index k).
    + now apply lookup_insert_index.
    + now apply lookup_app_fresh.
Qed.

Lemma lookup_replace_other {A} (k k' : string) (v : A) (o : obj A) :
  k <> k' -> lookup k (replace k' v o) = lookup k o.
Proof.
  intros Hne. induction o as [|[k0 v0] o IH]; simpl; [reflexivity|].
  destruct (String.eqb_spec k0 k') as [->|H0]; simpl.
  - destruct (String.eqb_spec k' k) as [->|_]; [contradiction | reflexivity].
  - now rewrite IH.
Qed.

Lemma lookup_insert_index_other {A} (k k' : string) (v : A) (o : obj A) :
  k <> k' -> lookup k (insert_index k' v o) = lookup k o.
Proof.
  intros Hne. induction o as [|[k0 v0] o IH]; simpl.
  - destruct (String.eqb_spec k' k) as [->|_]; [contradiction | reflexivity].
  - destruct (is_array_index k0 && (index_value k0 <? index_value k')%Z); simpl.
    + now rewrite IH.
    + destruct (String.eqb_spec k' k) as [->|_]; [contradiction | reflexivity].
Qed.

Lemma lookup_app_other {A} (k k' : string) (v : A) (o : obj A) :
  k <> k' -> lookup k (o ++ [(k', v)])%list = lookup k o.
Proof.
  intros Hne. induction o as [|[k0 v0] o IH]; simpl.
  - destruct (String.eqb_spec k' k) as [->|_]; [contradiction | reflexivity].
  - now rewrite IH.
Qed.

(** Defining a key leaves the other keys as they read. *)
Lemma lookup_define_other {A} (k k' : string) (v : A) (o : obj A) :
  k <> k' -> lookup k (define k' v o) = lookup k o.
Proof.
  intros Hne. unfold define. destruct (has_own k' o).
  - now apply lookup_replace_other.
  - destruct (is_array_index k').
    + now apply lookup_insert_index_other.
    + now apply lookup_app_other.
Qed.

Lemma lookup_app_last {A} (k : string) (l : obj A) (k' : string) (v : A) :
  lookup k (l ++ [(k', v)])%list
  = match lookup k l with
    | Some x => Some x
    | None => if k' =? k then Some v else None
    end.
Proof.
  induction l as [|[k0 v0] l IH]; simpl; [reflexivity|].
  destruct (k0 =? k); [reflexivity | exact IH].
Qed.

(** An object built member by member reads, at each name, the last
    member of that name. *)
Lemma lookup_fold_define {A B} (f : B -> A) (k : string)
    (members : list (string * B)) :
  forall acc : obj A,
    lookup k (fold_left (fun o m => define (fst m) (f (snd m)) o) members acc)
    = match lookup k (rev members) with
      | Some b => Some (f b)
      | None => lookup k acc
      end.
Proof.
  induction members as [|[k' b] members IH]; intros acc; simpl; [reflexivity|].
  rewrite IH, lookup_app_last.
  destruct (lookup k (rev members)); [reflexivity|].
  destruct (String.eqb_spec k' k) as [->|Hne].
  - apply lookup_define.
  - apply lookup_define_other. congruence.
Qed.

End ObjFacts.

(* ===================================================================== *)
(** ** Facts about the enumeration order of keys                          *)
(* ===================================================================== *)

Module OrderFacts.
Import JS ObjFacts Spec.

Lemma is_array_index_canonical (k : string) :
  is_array_index k = true -> Z_to_string (index_value k) = k.
Proof.
  unfold is_array_index. rewrite !andb_true_iff.
  intros [[[_ _] H] _]. now apply String.eqb_eq.
Qed.

(** Two array indices of the same value are the same key. *)
Lemma index_value_inj (a b : string) :
  is_array_index a = true -> is_array_index b = true ->
  index_value a = index_value b -> a = b.
Proof.
  intros Ha Hb E.
  rewrite <- (is_array_index_canonical a Ha), <- (is_array_index_canonical b Hb).
  now rewrite E.
Qed.

Lemma StronglySorted_app {A} (R : A -> A -> Prop) (l1 l2 : list A) :
  StronglySorted R (l1 ++ l2)
  <-> StronglySorted R l1 /\ StronglySorted R l2
      /\ (forall a b, In a l1 -> In b l2 -> R a b).
Proof.
  induction l1 as [|x l1 IH]; simpl.
  - split.
    + intros H. repeat split; [constructor | exact H | intros a b []].
    + tauto.
  - split.
    + intros H. apply StronglySorted_inv in H. destruct H as [Hs Hf].
      apply IH in Hs. destruct Hs as [H1 [H2 H12]].
      rewrite Forall_app in Hf. destruct Hf as [Hf1 Hf2].
      repeat split.
      * now constructor.
      * exact H2.
      * intros a b [<-|Ha] Hb.
        -- rewrite Forall_forall in Hf2. now apply Hf2.
        -- now apply H12.
    + intros [H1 [H2 H12]]. apply StronglySorted_inv in H1.
      destruct H1 as [Hs Hf]. constructor.
      * apply IH. repeat split; auto.
      * rewrite Forall_app. split; [exact Hf|].
        rewrite Forall_forall. intros b Hb. apply H12; auto.
Qed.

(** [insert_index] puts the new key somewhere among the old ones. *)
Lemma keys_insert_index_split {A} (k : string) (v : A) (o : obj A) :
  exists l1 l2,
    keys o = (l1 ++ l2)%list
    /\ keys (insert_index k v o) = (l1 ++ k :: l2)%list.
Proof.
  induction o as [|[a va] o IH]; simpl.
  - exists [], []. auto.
  - destruct (is_array_index a && (index_value a <? index_value k)%Z); simpl.
    + destruct IH as [l1 [l2 [E1 E2]]].
      exists (a :: l1), l2. simpl. now rewrite E1, E2.
    + exists [], (a :: keys o). auto.
Qed.

(** Inserting a new array index keeps the keys in order. *)
Lemma sorted_insert_index {A} (k : string) (v : A) (o : obj A) :
  is_array_index k = true ->
  ~ In k (keys o) ->
  StronglySorted precedes (keys o) ->
  StronglySorted precedes (keys (insert_index k v o)).
Proof.
  intros Hk. induction o as [|[a va] o IH]; simpl; intros Hfresh Hs.
  - repeat constructor.
  - apply StronglySorted_inv in Hs. destruct Hs as [Hs Hf].
    assert (Hka : a <> k) by tauto.
    assert (Hfresh' : ~ In k (keys o)) by tauto.
    destruct (is_array_index a) eqn:Hia; simpl.
    + destruct (Z.ltb_spec (index_value a) (index_value k)) as [Hlt|Hge]; simpl.
      * constructor; [now apply IH|].
        rewrite Forall_forall in *. intros b Hb.
        apply In_keys_insert_index in Hb. destruct Hb as [->|Hb].
        -- unfold precedes. rewrite Hk. auto.
        -- now apply Hf.
      * assert (Hlt : (index_value k < index_value a)%Z).
        { destruct (Z.eq_dec (index_value a) (index_value k)) as [E|E].
          - exfalso. apply Hka. now apply index_value_inj.
          - lia. }
        constructor; [now constructor|].
        constructor.
        -- unfold precedes. rewrite Hia. auto.
        -- rewrite Forall_forall in *. intros b Hb.
           specialize (Hf b Hb). unfold precedes in *.
           destruct (is_array_index b).
           ++ split; [exact Hk | lia].
           ++ intros ->. contradiction.
    + constructor; [now constructor|].
      constructor.
      * unfold precedes. rewrite Hia. congruence.
      * rewrite Forall_forall in *. intros b Hb.
        specialize (Hf b Hb). unfold precedes in *.
        destruct (is_array_index b).
        -- destruct Hf as [Hf _]. congruence.
        -- intros ->. contradiction.
Qed.

(** An array index larger than every key goes last. *)
Lemma insert_index_last {A} (k : string) (v : A) (o : obj A) :
  (forall a, In a (keys o) ->
             is_array_index a = true /\ (index_value a < index_value k)%Z) ->
  insert_index k v o = (o ++ [(k, v)])%list.
Proof.
  induction o as [|[a va] o IH]; simpl; intros H; [reflexivity|].
  destruct (H a (or_introl eq_refl)) as [-> Hlt].
  apply Z.ltb_lt in Hlt. rewrite Hlt. simpl.
  now rewrite IH by auto.
Qed.

Lemma str_mem_In (k : string) (l : list string) :
  str_mem k l = true <-> In k l.
Proof.
  unfold str_mem. rewrite existsb_exists. split.
  - intros [x [Hx E]]. apply String.eqb_eq in E. now subst.
  - intros H. exists k. split; [exact H | apply String.eqb_refl].
Qed.

Lemma unseen_app_last (l : list string) :
  forall seen k,
    unseen seen (l ++ [k])
    = (unseen seen l
       ++ if str_mem k seen || str_mem k l then [] else [k])%list.
Proof.
  induction l as [|x l IH]; intros seen k; simpl.
  - rewrite orb_false_r. destruct (str_mem k seen); reflexivity.
  - destruct (str_mem x seen) eqn:Hx.
    + rewrite IH. f_equal.
      destruct (String.eqb_spec k x) as [->|Hne]; simpl.
      * now rewrite Hx.
      * reflexivity.
    + rewrite IH. simpl. f_equal. f_equal.
      destruct (String.eqb_spec k x) as [->|Hne]; simpl.
      * now rewrite orb_true_r.
      * reflexivity.
Qed.

Lemma first_occurrences_app_last (l : list string) (k : string) :
  first_occurrences (l ++ [k])
  = (first_occurrences l ++ if str_mem k l then [] else [k])%list.
Proof. unfold first_occurrences. now rewrite unseen_app_last. Qed.

Lemma filter_not_index_insert {A} (k : string) (v : A) (o : obj A) :
  is_array_index k = true ->
  filter not_index (keys (insert_index k v o)) = filter not_index (keys o).
Proof.
  intros Hk. destruct (keys_insert_index_split k v o) as [l1 [l2 [-> ->]]].
  rewrite !filter_app. simpl. unfold not_index at 2. now rewrite Hk.
Qed.

(** Defining one more member keeps the enumeration in own-property
    order. *)
Lemma define_order_step {A} (names : list string) (k : string) (v : A)
    (o : obj A) :
  own_property_order names (keys o) ->
  own_property_order (names ++ [k]) (keys (define k v o)).
Proof.
  intros [Hs [Hin Hrest]]. unfold define.
  destruct (has_own k o) eqn:Hown.
  - (* an existing key keeps its place *)
    apply has_own_In in Hown. rewrite keys_replace.
    split; [exact Hs|]. split.
    + intros x. rewrite Hin, in_app_iff. simpl. split; [auto|].
      intros [H|[<-|[]]]; [exact H | now apply Hin].
    + rewrite filter_app. simpl.
      destruct (not_index k) eqn:Hk; simpl.
      * assert (Hmem : str_mem k (filter not_index names) = true).
        { apply str_mem_In, filter_In. split; [now apply Hin | exact Hk]. }
        rewrite first_occurrences_app_last, Hmem, app_nil_r. exact Hrest.
      * now rewrite app_nil_r.
  - apply has_own_false in Hown.
    destruct (is_array_index k) eqn:Hk.
    + (* a new array index *)
      split; [now apply sorted_insert_index|]. split.
      * intros x. rewrite In_keys_insert_index, Hin, in_app_iff. simpl.
        intuition.
      * rewrite filter_not_index_insert by exact Hk.
        rewrite filter_app. simpl. unfold not_index at 3. rewrite Hk. simpl.
        now rewrite app_nil_r.
    + (* any other new key *)
      rewrite keys_app. simpl. split.
      * apply StronglySorted_app. split; [exact Hs|].
        split; [repeat constructor|].
        intros a b Ha [<-|[]]. unfold precedes. rewrite Hk.
        intros ->. contradiction.
      * split.
        -- intros x. rewrite !in_app_iff, Hin. simpl. tauto.
        -- rewrite !filter_app. simpl. unfold not_index at 2 4.
           rewrite Hk. simpl.
           rewrite first_occurrences_app_last, Hrest.
           assert (Hmem : str_mem k (filter not_index names) = false).
           { destruct (str_mem k (filter not_index names)) eqn:E;
               [|reflexivity].
             apply str_mem_In, filter_In in E. destruct E as [E _].
             apply Hin in E. contradiction. }
           now rewrite Hmem.
Qed.

Lemma fold_define_order {A B} (f : B -> A) (members : list (string * B)) :
  forall (acc : obj A) (names : list string),
    own_property_order names (keys acc) ->
    own_property_order (names ++ map fst members)
      (keys (fold_left (fun o m => define (fst m) (f (snd m)) o) members acc)).
Proof.
  induction members as [|[k b] members IH]; intros acc names H; simpl.
  - now rewrite app_nil_r.
  - change (k :: map fst members) with ([k] ++ map fst members)%list.
    rewrite app_assoc. apply IH. now apply define_order_step.
Qed.

(** An object built from declared members enumerates its keys in
    own-property order. *)
Lemma parsed_keys_order {A B} (f : B -> A) (members : list (string * B)) :
  own_property_order (map fst members)
    (keys (fold_left (fun o m => define (fst m) (f (snd m)) o) members [])).
Proof.
  apply (fold_define_order f members [] []).
  repeat split; simpl; try tauto. constructor.
Qed.

(** A key that every present key may precede is defined last. *)
Lemma define_last {A} (k : string) (v : A) (o : obj A) :
  (forall a, In a (keys o) -> precedes a k) ->
  define k v o = (o ++ [(k, v)])%list.
Proof.
  intros H. unfold define.
  assert (Hfresh : ~ In k (keys o)).
  { intros Hin. specialize (H k Hin). unfold precedes in H.
    destruct (is_array_index k); [lia | congruence]. }
  apply has_own_false in Hfresh. rewrite Hfresh.
  destruct (is_array_index k) eqn:Hk; [|reflexivity].
  apply insert_index_last. intros a Ha. specialize (H a Ha).
  unfold precedes in H. now rewrite Hk in H.
Qed.

Lemma unseen_fresh (l : list string) :
  forall seen,
    NoDup l -> (forall x, In x l -> ~ In x seen) -> unseen seen l = l.
Proof.
  induction l as [|x l IH]; intros seen Hnd Hseen; simpl; [reflexivity|].
  inversion Hnd as [|? ? Hx Hnd']; subst.
  destruct (str_mem x seen) eqn:E.
  - apply str_mem_In in E. exfalso. apply (Hseen x); simpl; auto.
  - f_equal. apply IH; [exact Hnd'|].
    intros y Hy [<-|Hin]; [contradiction|].
    apply (Hseen y); simpl; auto.
Qed.

(** When the declared names are distinct and none is an array index,
    own-property order is declaration order. *)
Lemma own_property_order_declared (names ks : list string) :
  NoDup names ->
  (forall k, In k names -> is_array_index k = false) ->
  own_property_order names ks -> ks = names.
Proof.
  intros Hnd Hidx [_ [Hin Hrest]].
  assert (Hall : forall l, (forall k, In k l -> In k names) ->
                           filter not_index l = l).
  { induction l as [|x l IH]; intros Hl; simpl; [reflexivity|].
    unfold not_index at 1. rewrite (Hidx x) by (apply Hl; simpl; auto).
    simpl. f_equal. apply IH. intros k Hk. apply Hl. simpl. auto. }
  rewrite (Hall ks) in Hrest by (intros k Hk; now apply Hin).
  rewrite (Hall names) in Hrest by auto.
  rewrite Hrest. unfold first_occurrences. apply unseen_fresh; auto.
Qed.

End OrderFacts.

(* ===================================================================== *)
(** ** Facts about the type generator                                     *)
(* ===================================================================== *)

Module GenerateTypesFacts.
Import JS GenerateTypes ObjFacts OrderFacts.

Lemma writes_app (a b : list event) : writes (a ++ b) = (writes a ++ writes b)%list.
Proof.
  induction a as [|e a IH]; simpl; [reflexivity|].
  destruct e; simpl; now rewrite IH.
Qed.

Section Loop.

Variable compile : value -> string -> outcome string.

Local Abbreviation compile_tools := (compile_tools compile).
Local Abbreviation loop_result := (loop_result compile).
Local Abbreviation interface_of := (interface_of compile).
Local Abbreviation record := (record compile).
Local Abbreviation recorded := (recorded compile).

(** The loop only logs: it leaves directories and files alone and its
    completion does not depend on the world. *)
Lemma compile_tools_result entries :
  forall typeDefinitions toolOutputTypes w,
  exists logs,
    compile_tools entries typeDefinitions toolOutputTypes w
    = (loop_result entries typeDefinitions toolOutputTypes,
       mkWorld (dirs w) (files w) (events w ++ logs))
    /\ writes logs = [].
Proof.
  induction entries as [|[toolName toolConfig] rest IH]; intros defs reg w.
  - exists []. simpl. rewrite app_nil_r. destruct w; auto.
  - simpl. unfold sbind, await.
    destruct (get toolConfig "output") as [output|e]; simpl.
    2:{ exists []. rewrite app_nil_r. destruct w; auto. }
    destruct (truthy output); simpl.
    + destruct (compile output toolName) as [tsCode|e]; simpl.
      * match goal with
        | |- context [GenerateTypes.compile_tools _ rest ?d ?r ?w'] =>
            destruct (IH d r w') as [logs [E Hw]]
        end.
        eexists. rewrite E. simpl. rewrite <- app_assoc. split; [reflexivity|].
        simpl. exact Hw.
      * eexists. split; [reflexivity | reflexivity].
    + destruct (IH defs reg w) as [logs [E Hw]]. exists logs. auto.
Qed.

(** The completion of the loop, from any world. *)
Lemma compile_tools_outcome entries typeDefinitions toolOutputTypes w :
  fst (compile_tools entries typeDefinitions toolOutputTypes w)
  = loop_result entries typeDefinitions toolOutputTypes.
Proof.
  destruct (compile_tools_result entries typeDefinitions toolOutputTypes w)
    as [logs [E _]].
  now rewrite E.
Qed.

(** The loop only appends to the type definitions. *)
Lemma loop_result_extends entries :
  forall defs reg defs' reg',
    loop_result entries defs reg = Ok (defs', reg') ->
    exists code, defs' = defs ++ code.
Proof.
  induction entries as [|[toolName toolConfig] rest IH]; intros defs reg defs' reg'; simpl.
  - intros [= <- <-]. exists "". clear. induction defs; simpl; congruence.
  - destruct (get toolConfig "output") as [output|e]; simpl; [|discriminate].
    destruct (truthy output); [|apply IH].
    destruct (compile output toolName) as [tsCode|e]; simpl; [|discriminate].
    intros H. apply IH in H. destruct H as [code ->].
    exists ((tsCode ++ nl) ++ code). now rewrite !append_assoc.
Qed.

Lemma loop_result_registry entries :
  forall defs reg defs' reg',
    loop_result entries defs reg = Ok (defs', reg') ->
    reg' = fold_left (fun r e => record (fst e) (snd e) r) entries reg.
Proof.
  induction entries as [|[toolName toolConfig] rest IH]; intros defs reg defs' reg'; simpl.
  - now intros [= <- <-].
  - unfold record at 2, interface_of. simpl.
    destruct (get toolConfig "output") as [output|e]; simpl; [|discriminate].
    destruct (truthy output); [|apply IH].
    destruct (compile output toolName) as [tsCode|e]; simpl; [|discriminate].
    apply IH.
Qed.

Lemma In_keys_record toolName toolConfig reg x :
  In x (keys (record toolName toolConfig reg))
  <-> (x = toolName /\ recorded toolName toolConfig = true) \/ In x (keys reg).
Proof.
  unfold record, recorded, assign_primitive.
  destruct (interface_of toolName toolConfig) as [typeName|].
  - destruct (toolName =? "__proto__"); simpl.
    + intuition discriminate.
    + rewrite In_keys_define. intuition.
  - rewrite andb_false_r. intuition discriminate.
Qed.

Lemma In_keys_fold_record entries :
  forall reg x,
    In x (keys (fold_left (fun r e => record (fst e) (snd e) r) entries reg))
    <-> (exists toolConfig, In (x, toolConfig) entries
                            /\ recorded x toolConfig = true)
        \/ In x (keys reg).
Proof.
  induction entries as [|[toolName toolConfig] rest IH]; intros reg x; simpl.
  - split; [auto | intros [[c [[] _]]|H]; exact H].
  - rewrite IH, In_keys_record. split.
    + intros [[c [Hin Hr]]|[[-> Hr]|H]].
      * left. exists c. auto.
      * left. exists toolConfig. auto.
      * now right.
    + intros [[c [[[= <- <-]|Hin] Hr]]|H].
      * right. left. auto.
      * left. exists c. auto.
      * right. now right.
Qed.

(** Over entries in own-property order the registry lists the recorded
    tools in the order of the entries. *)
Lemma fold_record_sorted entries :
  forall reg,
    StronglySorted Spec.precedes (keys reg ++ keys entries)%list ->
    keys (fold_left (fun r e => record (fst e) (snd e) r) entries reg)
    = (keys reg
       ++ keys (filter (fun e => recorded (fst e) (snd e)) entries))%list.
Proof.
  induction entries as [|[toolName toolConfig] rest IH]; intros reg Hs; simpl.
  - now rewrite app_nil_r.
  - assert (Hrest : StronglySorted Spec.precedes (keys reg ++ keys rest)%list).
    { apply StronglySorted_app in Hs. destruct Hs as [H1 [H2 H12]].
      apply StronglySorted_inv in H2. destruct H2 as [H2 _].
      apply StronglySorted_app. repeat split; auto.
      intros a b Ha Hb. apply H12; simpl; auto. }
    unfold record at 2, recorded at 1, assign_primitive.
    destruct (interface_of toolName toolConfig) as [typeName|] eqn:Hi;
      [destruct (toolName =? "__proto__") eqn:Hp|]; simpl.
    + now apply IH.
    + rewrite define_last.
      * rewrite IH.
        -- rewrite keys_app. simpl. now rewrite <- app_assoc.
        -- rewrite keys_app. simpl. rewrite <- app_assoc. exact Hs.
      * intros a Ha. apply StronglySorted_app in Hs.
        destruct Hs as [_ [_ H12]]. apply H12; simpl; auto.
    + rewrite andb_false_r. now apply IH.
Qed.

(** A tool whose schema does not compile stops the loop, unless the loop
    has stopped before. *)
Lemma loop_result_compile_fails entries :
  forall defs reg toolName toolConfig output e,
    In (toolName, toolConfig) entries ->
    get toolConfig "output" = Ok output ->
    truthy output = true ->
    compile output toolName = Throw e ->
    exists e', loop_result entries defs reg = Throw e'.
Proof.
  induction entries as [|[n c] rest IH]; intros defs reg toolName toolConfig output e Hin Hget Ht Hc.
  - destruct Hin.
  - simpl. destruct Hin as [[= -> ->]|Hin].
    + rewrite Hget. simpl. rewrite Ht, Hc. simpl. eauto.
    + destruct (get c "output") as [o|e0]; simpl; [|eauto].
      destruct (truthy o); [|eapply IH; eauto].
      destruct (compile o n) as [code|e0]; simpl; [|eauto].
      eapply IH; eauto.
Qed.

(** When every entry can be read and every truthy output compiles, the
    loop runs to its end. *)
Lemma loop_result_succeeds entries :
  forall defs reg,
    (forall toolName toolConfig,
       In (toolName, toolConfig) entries ->
       exists output,
         get toolConfig "output" = Ok output
         /\ (truthy output = true ->
             exists tsCode, compile output toolName = Ok tsCode)) ->
    exists r, loop_result entries defs reg = Ok r.
Proof.
  induction entries as [|[n c] rest IH]; intros defs reg Hall; simpl.
  - eauto.
  - destruct (Hall n c (or_introl eq_refl)) as [output [-> Hc]]. simpl.
    assert (Hrest : forall toolName toolConfig,
               In (toolName, toolConfig) rest ->
               exists output,
                 get toolConfig "output" = Ok output
                 /\ (truthy output = true ->
                     exists tsCode, compile output toolName = Ok tsCode)).
    { intros toolName toolConfig Hin. apply Hall. now right. }
    destruct (truthy output).
    + destruct (Hc eq_refl) as [tsCode ->]. simpl. now apply IH.
    + now apply IH.
Qed.

End Loop.

Section Run.

Variable env_BACKEND_URL : option string.
Variable fetch : string -> outcome response.
Variable compile : value -> string -> outcome string.

Local Abbreviation generateTypes := (generateTypes env_BACKEND_URL fetch compile).
Local Abbreviation run_result := (run_result env_BACKEND_URL fetch compile).
Local Abbreviation loop_result := (loop_result compile).

(** One run from any world: the exit status, the files and the writes
    are fixed by [run_result]. *)
Lemma generateTypes_result (w : world) :
  exists ds evs,
    generateTypes w
    = (match run_result with Ok _ => 0%Z | Throw _ => 1%Z end,
       mkWorld ds
         match run_result with
         | Ok r => define OUTPUT_FILE (artifact r) (files w)
         | Throw _ => files w
         end
         (events w ++ evs))
    /\ writes evs
       = match run_result with
         | Ok r => [(OUTPUT_FILE, artifact r)]
         | Throw _ => []
         end.
Proof.
  unfold GenerateTypes.generateTypes, GenerateTypes.try_block,
    GenerateTypes.run_result, sbind, await, console_log, console_error, emit, throw, ret,
    existsSync, mkdirSync, writeFileSync.
  simpl.
  destruct (fetch _) as [response|e]; simpl.
  2:{ do 2 eexists. rewrite <- app_assoc. split; reflexivity. }
  destruct (ok response); simpl.
  2:{ do 2 eexists. rewrite <- app_assoc. split; reflexivity. }
  destruct (json_body response) as [document|e]; simpl.
  2:{ do 2 eexists. rewrite <- app_assoc. split; reflexivity. }
  destruct (get (parse document) "tools") as [data_tools|e]; simpl.
  2:{ do 2 eexists. rewrite <- app_assoc. split; reflexivity. }
  destruct (str_mem (dirname OUTPUT_FILE) (dirs w)); simpl.
  - match goal with
    | |- context [GenerateTypes.compile_tools _ ?es ?d ?r ?w'] =>
        destruct (compile_tools_result compile es d r w') as [logs [E Hw]]
    end.
    rewrite E. simpl.
    destruct (loop_result _ banner []) as [[defs reg]|e]; simpl.
    + do 2 eexists. rewrite <- !app_assoc. split; [reflexivity|].
      simpl. rewrite !writes_app, Hw. reflexivity.
    + do 2 eexists. rewrite <- !app_assoc. split; [reflexivity|].
      simpl. rewrite !writes_app, Hw. reflexivity.
  - match goal with
    | |- context [GenerateTypes.compile_tools _ ?es ?d ?r ?w'] =>
        destruct (compile_tools_result compile es d r w') as [logs [E Hw]]
    end.
    rewrite E. simpl.
    destruct (loop_result _ banner []) as [[defs reg]|e]; simpl.
    + do 2 eexists. rewrite <- !app_assoc. split; [reflexivity|].
      simpl. rewrite !writes_app, Hw. reflexivity.
    + do 2 eexists. rewrite <- !app_assoc. split; [reflexivity|].
      simpl. rewrite !writes_app, Hw. reflexivity.
Qed.

End Run.

End GenerateTypesFacts.

(* ===================================================================== *)
(** ** Properties of a generation run                                     *)
(* ===================================================================== *)

Module GeneratorClaims.
Import JS GenerateTypes ObjFacts OrderFacts GenerateTypesFacts.

Section Run.

Variable env_BACKEND_URL : option string.
Variable fetch : string -> outcome response.
Variable compile : value -> string -> outcome string.

Local Abbreviation generateTypes := (generateTypes env_BACKEND_URL fetch compile).
Local Abbreviation run_result := (run_result env_BACKEND_URL fetch compile).
Local Abbreviation schema_url := (BACKEND_URL env_BACKEND_URL ++ "/tools-schema").

Lemma run_result_banner defs reg :
  run_result = Ok (defs, reg) -> exists code, defs = banner ++ code.
Proof.
  unfold GenerateTypes.run_result.
  destruct (fetch _) as [response|e]; simpl; [|discriminate].
  destruct (ok response); simpl; [|discriminate].
  destruct (json_body response) as [document|e]; simpl; [|discriminate].
  destruct (get (parse document) "tools") as [data_tools|e]; simpl; [|discriminate].
  apply loop_result_extends.
Qed.

Lemma recorded_iff toolName toolConfig :
  recorded compile toolName toolConfig = true
  <-> toolName <> "__proto__"
      /\ exists output tsCode typeName,
           get toolConfig "output" = Ok output
           /\ truthy output = true
           /\ compile output toolName = Ok tsCode
           /\ match_export_interface tsCode = Some typeName.
Proof.
  unfold recorded, interface_of.
  rewrite andb_true_iff, negb_true_iff, String.eqb_neq.
  split; intros [Hp H]; split; try exact Hp.
  - destruct (get toolConfig "output") as [output|] eqn:Hg; [|discriminate].
    destruct (truthy output) eqn:Ht; [|discriminate].
    destruct (compile output toolName) as [tsCode|] eqn:Hc; [|discriminate].
    destruct (match_export_interface tsCode) as [typeName|] eqn:Hm;
      [|discriminate].
    exists output, tsCode, typeName. repeat split; auto.
  - destruct H as [output [tsCode [typeName [-> [-> [-> ->]]]]]]. reflexivity.
Qed.

(** What a run that exits with status 0 has gone through. *)
Lemma successful_run (w : world) :
  fst (generateTypes w) = 0%Z ->
  exists response document data_tools code_text toolOutputTypes,
    fetch schema_url = Ok response
    /\ ok response = true
    /\ json_body response = Ok document
    /\ get (parse document) "tools" = Ok data_tools
    /\ loop_result compile (Object_entries (tools_of data_tools)) banner []
       = Ok (banner ++ code_text, toolOutputTypes)
    /\ lookup OUTPUT_FILE (files (snd (generateTypes w)))
       = Some (banner ++ code_text ++ mapping_block toolOutputTypes).
Proof.
  destruct (generateTypes_result env_BACKEND_URL fetch compile w)
    as [ds [evs [E _]]].
  rewrite E. cbn [fst snd files].
  destruct run_result as [[defs reg]|e] eqn:Hres; [intros _ | discriminate].
  destruct (run_result_banner defs reg Hres) as [code_text ->].
  revert Hres. unfold GenerateTypes.run_result.
  destruct (fetch _) as [response|e] eqn:Hf; cbn; [|discriminate].
  destruct (ok response) eqn:Hok; cbn; [|discriminate].
  destruct (json_body response) as [document|e] eqn:Hj; cbn; [|discriminate].
  destruct (get (parse document) "tools") as [data_tools|e] eqn:Ht; cbn;
    [|discriminate].
  intros Hloop.
  exists response, document, data_tools, code_text, reg.
  unfold artifact. cbn [fst snd].
  rewrite lookup_define, append_assoc. repeat split; auto.
Qed.

(** C1, as amended.  After a run that exits with status 0 the registry
    the first loop has built, which the artifact ends with, has exactly
    these keys: the names of the
    entries of [tools] whose [output] is truthy and whose compiled code
    declares an [export interface], [__proto__] excepted.  An entry whose
    [output] is absent or falsy, or whose code declares no interface, is
    left out, and no other key appears. *)
Theorem registry_keys_exact (w : world) :
  fst (generateTypes w) = 0%Z ->
  exists response document data_tools code_text toolOutputTypes,
    fetch schema_url = Ok response
    /\ json_body response = Ok document
    /\ get (parse document) "tools" = Ok data_tools
    /\ (forall w0,
          fst (compile_tools compile (Object_entries (tools_of data_tools))
                 banner [] w0)
          = Ok (banner ++ code_text, toolOutputTypes))
    /\ lookup OUTPUT_FILE (files (snd (generateTypes w)))
       = Some (banner ++ code_text ++ mapping_block toolOutputTypes)
    /\ forall toolName,
         In toolName (keys toolOutputTypes)
         <-> toolName <> "__proto__"
             /\ exists toolConfig output tsCode typeName,
                  In (toolName, toolConfig)
                     (Object_entries (tools_of data_tools))
                  /\ get toolConfig "output" = Ok output
                  /\ truthy output = true
                  /\ compile output toolName = Ok tsCode
                  /\ match_export_interface tsCode = Some typeName.
Proof.
  intros Hcode.
  destruct (successful_run w Hcode)
    as [response [document [data_tools [code_text [reg
         [Hf [_ [Hj [Ht [Hloop Hfile]]]]]]]]]].
  exists response, document, data_tools, code_text, reg.
  split; [exact Hf|]. split; [exact Hj|]. split; [exact Ht|].
  split; [intros w0; now rewrite compile_tools_outcome|].
  split; [exact Hfile|].
  intros toolName.
  rewrite (loop_result_registry compile _ _ _ _ _ Hloop).
  rewrite In_keys_fold_record. simpl. split.
  - intros [[toolConfig [Hin Hr]]|[]].
    apply recorded_iff in Hr. destruct Hr as [Hp [o [c [t H]]]].
    split; [exact Hp|]. exists toolConfig, o, c, t. tauto.
  - intros [Hp [toolConfig [o [c [t [Hin H]]]]]].
    left. exists toolConfig. split; [exact Hin|].
    apply recorded_iff. split; [exact Hp|]. exists o, c, t. exact H.
Qed.

(** The [tools] value of a parsed document whose last [tools] member is
    an object. *)
Lemma parsed_tools members tool_members :
  Spec.member "tools" members = Some (JObject tool_members) ->
  get (parse (JObject members)) "tools" = Ok (parse (JObject tool_members)).
Proof.
  unfold Spec.member. intros Hm.
  change (parse (JObject members))
    with (VObj (fold_left (fun o m => define (fst m) (parse (snd m)) o)
                  members [])).
  unfold get. now rewrite lookup_fold_define, Hm.
Qed.

(** C3, as amended.  What a run writes is determined by the schema
    response and the compiler: two runs that both exit with status 0,
    from whatever worlds they start, make one write each, of the same
    content to the output path, and leave the output file with that
    content.
    The first loop visits the tools in the own-property order of the
    parsed [tools] object: the declared names, array indices first in
    ascending order, then the other names in the order of their first
    declaration.  When the declared names are distinct and none of them
    is an array index this is the order in which the document declares
    them.  The registry block lists the recorded tools in the order in
    which the first loop visits them. *)
Theorem generation_deterministic :
  (forall w1 w2 : world,
     fst (generateTypes w1) = 0%Z ->
     fst (generateTypes w2) = 0%Z ->
     exists content,
       writes (events (snd (generateTypes w1)))
       = (writes (events w1) ++ [(OUTPUT_FILE, content)])%list
       /\ writes (events (snd (generateTypes w2)))
          = (writes (events w2) ++ [(OUTPUT_FILE, content)])%list
       /\ lookup OUTPUT_FILE (files (snd (generateTypes w1))) = Some content
       /\ lookup OUTPUT_FILE (files (snd (generateTypes w2))) = Some content)
  /\ (forall (w : world) response members tool_members,
        fetch schema_url = Ok response ->
        json_body response = Ok (JObject members) ->
        Spec.member "tools" members = Some (JObject tool_members) ->
        fst (generateTypes w) = 0%Z ->
        let declared := Spec.declared_tool_names (JObject members) in
        let entries :=
          Object_entries (tools_of (field (parse (JObject members)) "tools")) in
        Spec.own_property_order declared (keys entries)
        /\ (NoDup declared ->
            (forall k, In k declared -> is_array_index k = false) ->
            keys entries = declared)
        /\ exists code_text toolOutputTypes,
             (forall w0,
                fst (compile_tools compile entries banner [] w0)
                = Ok (banner ++ code_text, toolOutputTypes))
             /\ lookup OUTPUT_FILE (files (snd (generateTypes w)))
                = Some (banner ++ code_text ++ mapping_block toolOutputTypes)
             /\ keys toolOutputTypes
                = keys (filter (fun e => recorded compile (fst e) (snd e))
                          entries)).
Proof.
  split.
  - intros w1 w2.
    destruct (generateTypes_result env_BACKEND_URL fetch compile w1)
      as [ds1 [evs1 [E1 H1]]].
    destruct (generateTypes_result env_BACKEND_URL fetch compile w2)
      as [ds2 [evs2 [E2 H2]]].
    rewrite E1, E2. cbn [fst snd files events].
    destruct run_result as [r|e]; [intros _ _|discriminate].
    exists (artifact r). rewrite !writes_app, H1, H2, !lookup_define.
    repeat split; reflexivity.
  - intros w response members tool_members Hf Hj Hm Hcode.
    pose proof (parsed_tools _ _ Hm) as Htools.
    assert (Hdecl : Spec.declared_tool_names (JObject members)
                    = map fst tool_members).
    { unfold Spec.declared_tool_names. now rewrite Hm. }
    assert (Hentries :
              Object_entries (tools_of (field (parse (JObject members)) "tools"))
              = fold_left (fun o m => define (fst m) (parse (snd m)) o)
                  tool_members []).
    { unfold field. rewrite Htools. reflexivity. }
    cbv zeta. rewrite Hdecl, Hentries.
    pose proof (parsed_keys_order parse tool_members) as Horder.
    split; [exact Horder|]. split.
    + intros Hnd Hidx. now apply own_property_order_declared.
    + destruct (successful_run w Hcode)
        as [response' [document [data_tools [code_text [reg
             [Hf' [_ [Hj' [Ht [Hloop Hfile]]]]]]]]]].
      rewrite Hf in Hf'. injection Hf' as <-.
      rewrite Hj in Hj'. injection Hj' as Hj'. subst document.
      rewrite Htools in Ht.
      assert (Hdt : Object_entries (tools_of data_tools)
                    = fold_left (fun o m => define (fst m) (parse (snd m)) o)
                        tool_members []).
      { injection Ht as <-. reflexivity. }
      rewrite Hdt in Hloop.
      exists code_text, reg.
      split; [intros w0; now rewrite compile_tools_outcome|].
      split; [exact Hfile|].
      rewrite (loop_result_registry compile _ _ _ _ _ Hloop).
      rewrite fold_record_sorted; [reflexivity|].
      simpl. apply Horder.
Qed.

End Run.

Import Samples.

(** C1 as stated fails: in the response
    [{ tools: { a: { output: null }, b: { output: false } } }] both tools
    have an [output] key, the run exits with status 0, and the registry
    it writes is empty. *)
Lemma registry_omits_falsy_output :
  let run := generateTypes None (serve falsy_output_document) sample_compile
               empty_world in
  let entries :=
    Object_entries (tools_of (field (parse falsy_output_document) "tools")) in
  fst run = 0%Z
  /\ lookup OUTPUT_FILE (files (snd run)) = Some (banner ++ mapping_block [])
  /\ entries = [ ("a", VObj [("output", VNull)]);
                 ("b", VObj [("output", VBool false)]) ]
  /\ ~ Spec.keys_are_tools_with_output entries [].
Proof.
  cbv zeta. split; [reflexivity|]. split; [reflexivity|].
  split; [reflexivity|].
  intros H. destruct (proj2 (H "a")) as [].
  exists (VObj [("output", VNull)]). split; [now left | reflexivity].
Qed.

(** A tool whose schema compiles to a type alias is written to the
    artifact and left out of the registry. *)
Lemma registry_omits_type_alias :
  let run := generateTypes None (serve alias_document) sample_compile
               empty_world in
  fst run = 0%Z
  /\ lookup OUTPUT_FILE (files (snd run))
     = Some (banner ++ ("export type Name = string;" ++ nl ++ nl)
             ++ mapping_block []).
Proof. split; reflexivity. Qed.

(** The registry written for the response
    [{ tools: { get_weather: { output: ... }, ping: {} } }]. *)
Lemma registry_keys_exact_witness :
  let fetch := serve weather_document in
  let w' := snd (generateTypes None fetch sample_compile empty_world) in
  exists response document data_tools code_text toolOutputTypes,
    fetch (BACKEND_URL None ++ "/tools-schema") = Ok response
    /\ json_body response = Ok document
    /\ get (parse document) "tools" = Ok data_tools
    /\ (forall w0,
          fst (compile_tools sample_compile
                 (Object_entries (tools_of data_tools)) banner [] w0)
          = Ok (banner ++ code_text, toolOutputTypes))
    /\ lookup OUTPUT_FILE (files w')
       = Some (banner ++ code_text ++ mapping_block toolOutputTypes)
    /\ forall toolName,
         In toolName (keys toolOutputTypes)
         <-> toolName <> "__proto__"
             /\ exists toolConfig output tsCode typeName,
                  In (toolName, toolConfig)
                     (Object_entries (tools_of data_tools))
                  /\ get toolConfig "output" = Ok output
                  /\ truthy output = true
                  /\ sample_compile output toolName = Ok tsCode
                  /\ match_export_interface tsCode = Some typeName.
Proof.
  apply (registry_keys_exact None (serve weather_document) sample_compile
           empty_world).
  reflexivity.
Defined.

(** C3 as stated fails on the order: in the response
    [{ tools: { b: ..., 1: ... } }] the tool [1] is declared second and
    visited first, and the registry lists it first. *)
Lemma index_name_visited_first :
  let fetch := serve index_name_document in
  let run := generateTypes None fetch sample_compile empty_world in
  Spec.declared_tool_names index_name_document = ["b"; "1"]
  /\ fst run = 0%Z
  /\ log_lines (events (snd run))
     = [ "Fetching tool schemas from backend...";
         "Generating types for 1...";
         "Generating types for b...";
         "✓ Types generated successfully at ./src/types/tools.ts" ]
  /\ exists typeDefinitions,
       run_result None fetch sample_compile
       = Ok (typeDefinitions, [("1", "One"); ("b", "B")])
       /\ lookup OUTPUT_FILE (files (snd run))
          = Some (typeDefinitions ++ mapping_block [("1", "One"); ("b", "B")]).
Proof.
  cbv zeta. split; [reflexivity|]. split; [reflexivity|].
  split; [reflexivity|]. eexists. split; reflexivity.
Qed.

(** Two runs against the same response, one from an empty world and one
    over an earlier artifact. *)
Lemma generation_deterministic_witness :
  let fetch := serve weather_document in
  let run1 := generateTypes None fetch sample_compile empty_world in
  let run2 := generateTypes None fetch sample_compile stale_world in
  (exists content,
     writes (events (snd run1))
     = (writes (events empty_world) ++ [(OUTPUT_FILE, content)])%list
     /\ writes (events (snd run2))
        = (writes (events stale_world) ++ [(OUTPUT_FILE, content)])%list
     /\ lookup OUTPUT_FILE (files (snd run1)) = Some content
     /\ lookup OUTPUT_FILE (files (snd run2)) = Some content)
  /\ keys (Object_entries (tools_of (field (parse weather_document) "tools")))
     = ["get_weather"; "ping"]
  /\ exists code_text toolOutputTypes,
       lookup OUTPUT_FILE (files (snd run2))
       = Some (banner ++ code_text ++ mapping_block toolOutputTypes)
       /\ keys toolOutputTypes = ["get_weather"].
Proof.
  destruct (generation_deterministic None (serve weather_document)
              sample_compile) as [Hruns Horder].
  split; [apply Hruns; reflexivity|].
  destruct (Horder stale_world
              (mkResponse true "OK" (Ok weather_document))
              [("tools", JObject
                 [ ("get_weather",
                    JObject [("output", object_schema "Weather")]);
                   ("ping", JObject []) ])]
              [ ("get_weather",
                 JObject [("output", object_schema "Weather")]);
                ("ping", JObject []) ]
              eq_refl eq_refl eq_refl eq_refl)
    as [_ [Hdeclared [code_text [reg [_ [Hfile Hkeys]]]]]].
  split.
  - apply Hdeclared.
    + repeat constructor; simpl; intuition discriminate.
    + intros k [<-|[<-|[]]]; reflexivity.
  - exists code_text, reg. split; [exact Hfile | exact Hkeys].
Defined.

End GeneratorClaims.

(* ===================================================================== *)
(** ** Properties of the renderer map, the extractor and the helpers      *)
(* ===================================================================== *)

Module RendererClaims.
Import JS React Components ToolRenderers ToolUtils ToolsTs ObjFacts Samples.

Lemma substring_all (s : string) : substring 0 (String.length s) s = s.
Proof. induction s as [|c s IH]; simpl; [reflexivity | now rewrite IH]. Qed.

(** Removing the five characters of the prefix leaves the bare name. *)
Lemma slice_tool_prefix (toolName : string) :
  slice ("tool-" ++ toolName) 5 = toolName.
Proof. unfold slice. simpl. rewrite Nat.sub_0_r. apply substring_all. Qed.

Lemma startsWith_tool_prefix (toolName : string) :
  startsWith ("tool-" ++ toolName) "tool-" = true.
Proof. unfold startsWith. simpl. now destruct toolName. Qed.

(** The guard [typeof v !== 'object' || v === null] rejects exactly the
    values that are not non-null objects. *)
Lemma object_guard (v : value) :
  negb (typeof v =? "object") || is_null v = negb (is_object v).
Proof. destruct v; reflexivity. Qed.

Lemma truthy_false_cases (v : value) :
  truthy v = false
  <-> v = VUndefined \/ v = VNull \/ v = VBool false \/ v = VNum 0
      \/ v = VStr "".
Proof.
  split.
  - destruct v as [| |b|n|s|items|props]; simpl; intros H;
      try discriminate H; auto.
    + destruct b; [discriminate H | auto].
    + apply negb_false_iff, Z.eqb_eq in H. subst n. auto 6.
    + apply negb_false_iff, String.eqb_eq in H. subst s. auto 6.
  - intros [-> | [-> | [-> | [-> | ->]]]]; reflexivity.
Qed.

(** What the extractor does with a part whose [type] is [tool-] followed
    by a name. *)
Lemma renderToolPart_tool (part : value) (toolName : string) :
  is_object part = true ->
  field part "type" = VStr ("tool-" ++ toolName) ->
  renderToolPart part
  = if negb (hasToolRenderer toolName)
    then (Ok None, ["No renderer found for tool: " ++ toolName])
    else if negb (is_object (field part "output"))
    then (Ok None, ["Invalid output for tool: " ++ toolName])
    else match callToolRenderer toolName (field part "output") with
         | Ok rendered =>
             (Ok (Some (Elem "ToolResultWrapper"
                          [ ("toolName", VStr toolName);
                            ("toolOutput", field part "output") ]
                          [rendered])), [])
         | Throw e => (Throw e, [])
         end.
Proof.
  intros Hobj Htype. unfold renderToolPart.
  rewrite !object_guard, Hobj, Htype. cbn [negb].
  now rewrite startsWith_tool_prefix, slice_tool_prefix.
Qed.

(** C6.  A part that is not a non-null object, or whose [type] is not a
    string, or whose [type] does not start with [tool-], yields [null]:
    nothing is thrown and nothing is logged.  The part
    [{ type: 'text', text: 'hello' }] is such a part. *)
Theorem non_tool_part_yields_null :
  (forall part : value,
     is_object part = false
     \/ Spec.is_string (field part "type") = false
     \/ (exists s, field part "type" = VStr s
                   /\ startsWith s "tool-" = false) ->
     renderToolPart part = (Ok None, []))
  /\ renderToolPart text_part = (Ok None, []).
Proof.
  split; [|reflexivity].
  intros part H. unfold renderToolPart. rewrite object_guard.
  destruct (is_object part) eqn:Hobj; [|reflexivity]. cbn [negb].
  destruct H as [H|[H|[s [Hs Hp]]]].
  - discriminate.
  - destruct (field part "type"); try reflexivity. discriminate.
  - rewrite Hs, Hp. reflexivity.
Qed.

(** A number, [null], a part whose [type] is a number and a part whose
    [type] is [toolbox] all yield [null]. *)
Lemma non_tool_part_yields_null_witness :
  renderToolPart (VNum 42) = (Ok None, [])
  /\ renderToolPart VNull = (Ok None, [])
  /\ renderToolPart (VObj [("type", VNum 7)]) = (Ok None, [])
  /\ renderToolPart (VObj [("type", VStr "toolbox")]) = (Ok None, []).
Proof.
  destruct non_tool_part_yields_null as [H _].
  split; [apply H; left; reflexivity|].
  split; [apply H; left; reflexivity|].
  split; [apply H; right; left; reflexivity|].
  apply H. right. right. exists "toolbox". split; reflexivity.
Defined.

(** Every key of the renderer map is recognized. *)
Lemma registered_has_renderer (toolName : string) :
  In toolName (keys toolRenderers) -> hasToolRenderer toolName = true.
Proof.
  intros Hin. unfold hasToolRenderer, js_in.
  apply has_own_In in Hin. now rewrite Hin.
Qed.

(** C7.  For a part whose [type] names a tool of the renderer map, an
    [output] that is missing ([undefined]), [null] or not an object
    yields [null] with the warning [Invalid output for tool]: no renderer
    runs and nothing is thrown. *)
Theorem recognized_tool_invalid_output (part : value) (toolName : string) :
  is_object part = true ->
  field part "type" = VStr ("tool-" ++ toolName) ->
  In toolName (keys toolRenderers) ->
  is_object (field part "output") = false ->
  renderToolPart part
  = (Ok None, ["Invalid output for tool: " ++ toolName]).
Proof.
  intros Hobj Htype Hin Hout.
  rewrite (renderToolPart_tool part toolName Hobj Htype).
  now rewrite (registered_has_renderer toolName Hin), Hout.
Qed.

(** The part [{ type: 'tool-get_weather', output: 'not an object' }]
    yields [null] with a warning. *)
Lemma recognized_tool_invalid_output_witness :
  renderToolPart malformed_part
  = (Ok None, ["Invalid output for tool: get_weather"]).
Proof.
  apply (recognized_tool_invalid_output malformed_part "get_weather").
  - reflexivity.
  - reflexivity.
  - simpl. auto.
  - reflexivity.
Defined.

(** C9.  For a part whose [type] is [tool-] followed by a name and whose
    [output] is a non-null object, the name looked up in the renderer map
    is that bare name and the value handed over is that [output]: without
    a renderer the warning carries the name; with one, the renderer is
    applied to the output and the wrapper receives the name and the
    output.  The part [{ type: 'tool-get_weather', output: { city:
    'Tokyo', temperature: 18 } }] is wrapped with [toolName]
    [get_weather] and that output. *)
Theorem tool_part_dispatch :
  (forall (part : value) (toolName : string) (output : value),
     is_object part = true ->
     field part "type" = VStr ("tool-" ++ toolName) ->
     field part "output" = output ->
     is_object output = true ->
     (hasToolRenderer toolName = false ->
      renderToolPart part
      = (Ok None, ["No renderer found for tool: " ++ toolName]))
     /\ (hasToolRenderer toolName = true ->
         renderToolPart part
         = match callToolRenderer toolName output with
           | Ok rendered =>
               (Ok (Some (Elem "ToolResultWrapper"
                            [ ("toolName", VStr toolName);
                              ("toolOutput", output) ]
                            [rendered])), [])
           | Throw e => (Throw e, [])
           end)
     /\ (forall renderer,
           lookup toolName toolRenderers = Some renderer ->
           renderToolPart part
           = (Ok (Some (Elem "ToolResultWrapper"
                          [ ("toolName", VStr toolName);
                            ("toolOutput", output) ]
                          [renderer output])), [])))
  /\ renderToolPart weather_part
     = (Ok (Some (Elem "ToolResultWrapper"
                    [ ("toolName", VStr "get_weather");
                      ("toolOutput", tokyo) ]
                    [Elem "WeatherResult" [("data", tokyo)] []])), []).
Proof.
  split; [|reflexivity].
  intros part toolName output Hobj Htype Hout Hoo.
  rewrite (renderToolPart_tool part toolName Hobj Htype), Hout, Hoo.
  cbn [negb]. split; [|split].
  - now intros ->.
  - now intros ->.
  - intros renderer Hr. unfold hasToolRenderer, js_in, has_own, callToolRenderer.
    rewrite Hr. reflexivity.
Qed.

(** The part [{ type: 'tool-unknown_tool', output: {} }] is looked up
    under [unknown_tool] and not found. *)
Lemma tool_part_dispatch_witness :
  renderToolPart unknown_tool_part
  = (Ok None, ["No renderer found for tool: unknown_tool"]).
Proof.
  destruct tool_part_dispatch as [H _].
  apply (H unknown_tool_part "unknown_tool" (VObj [])); reflexivity.
Defined.

(** A name that is neither a key of the renderer map nor a member of
    [Object.prototype] has no renderer. *)
Lemma hasToolRenderer_false (toolName : string) :
  hasToolRenderer toolName = false
  <-> ~ In toolName (keys toolRenderers)
      /\ ~ In toolName object_prototype_keys.
Proof.
  unfold hasToolRenderer, js_in. rewrite orb_false_iff, has_own_false.
  assert (Hmem : str_mem toolName object_prototype_keys = false
                 <-> ~ In toolName object_prototype_keys).
  { unfold str_mem. split.
    - intros Hf Hin.
      assert (existsb (String.eqb toolName) object_prototype_keys = true).
      { apply existsb_exists. exists toolName. split; [exact Hin|].
        apply String.eqb_refl. }
      congruence.
    - intros Hn. destruct (existsb _ _) eqn:E; [|reflexivity].
      apply existsb_exists in E. destruct E as [x [Hx Hex]].
      apply String.eqb_eq in Hex. subst x. contradiction. }
  now rewrite Hmem.
Qed.

(** C8: where the code departs from it.  [__proto__] and [toString] are
    not keys of the renderer map, yet [hasToolRenderer] accepts them,
    because [in] also finds the members of [Object.prototype].  With a
    well-formed output, the part [{ type: 'tool-__proto__', output: {} }]
    makes [renderToolPart] throw a [TypeError], and the part
    [{ type: 'tool-toString', output: {} }] is rendered instead of being
    reported as not found. *)
Theorem inherited_member_taken_for_renderer :
  ~ In "__proto__" (keys toolRenderers)
  /\ ~ In "toString" (keys toolRenderers)
  /\ hasToolRenderer "__proto__" = true
  /\ hasToolRenderer "toString" = true
  /\ renderToolPart proto_part
     = (Throw (TypeError "toolRenderers[toolName] is not a function"), [])
  /\ renderToolPart toString_part
     = (Ok (Some (Elem "ToolResultWrapper"
                    [ ("toolName", VStr "toString");
                      ("toolOutput", VObj []) ]
                    [Text "[object Object]"])), []).
Proof.
  repeat split; try reflexivity; simpl; intuition discriminate.
Qed.

(** C2: where the code departs from it.  [get_weather] is a key of the
    renderer map and not a key of the generated registry, so the keys of
    the renderer map are not included in the keys of the registry. *)
Theorem renderer_without_registered_type :
  In "get_weather" (keys toolRenderers)
  /\ ~ In "get_weather" (keys ToolOutputTypes)
  /\ ~ incl (keys toolRenderers) (keys ToolOutputTypes).
Proof.
  assert (Hin : In "get_weather" (keys toolRenderers)) by (simpl; auto).
  assert (Hout : ~ In "get_weather" (keys ToolOutputTypes))
    by (simpl; intuition discriminate).
  split; [exact Hin|]. split; [exact Hout|].
  intros Hincl. apply Hout, Hincl, Hin.
Qed.

(** Reading a field of a non-null object does not throw. *)
Lemma get_field (data : value) (k : string) :
  is_object data = true -> get data k = Ok (field data k).
Proof.
  intros Hobj. unfold field.
  destruct data as [| | | | |items|props]; try discriminate Hobj; unfold get.
  - destruct (k =? "length"); [reflexivity|].
    destruct (is_array_index k); reflexivity.
  - destruct (lookup k props); reflexivity.
Qed.

(** With a falsy [success] the query component shows its error panel. *)
Lemma sql_failure_panel (data : value) :
  is_object data = true ->
  truthy (field data "success") = false ->
  SQLQueryResult data
  = Ok (Elem "div" (className "tool-result sql-error")
          [ Elem "div" (className "tool-result-header")
              [ Text "❌ SQL Query Error" ];
            Elem "div" (className "tool-result-content")
              [ Elem "div" (className "query-display")
                  [ Elem "code" [] [Expr (field data "query")] ];
                Elem "p" (className "error-message")
                  [Expr (field data "error")] ] ]).
Proof.
  intros Hobj Hs. unfold SQLQueryResult.
  rewrite (get_field data "success" Hobj). cbn [bind].
  rewrite Hs. cbn [negb].
  rewrite (get_field data "query" Hobj), (get_field data "error" Hobj).
  reflexivity.
Qed.

(** The weather component reads four fields and never throws on a
    non-null object. *)
Lemma weather_result_total (data : value) :
  is_object data = true -> exists node, WeatherResult data = Ok node.
Proof.
  intros Hobj. unfold WeatherResult.
  rewrite !(get_field data _ Hobj). cbn [bind]. eauto.
Qed.

(** C5: where the code departs from it.  A successful query result of
    one row that omits the optional [column_names] is laid out as the
    generated interface declares, and [SQLQueryResult] throws on it when
    it reads [data.column_names.map]. *)
Theorem sql_result_without_column_names_throws :
  Spec.shaped_as_SQLQueryResult sql_without_column_names = true
  /\ SQLQueryResult sql_without_column_names
     = Throw (TypeError "Cannot read properties of undefined (reading 'map')").
Proof. split; reflexivity. Qed.

(** C10.  For a part whose [type] is [tool-] followed by the tool name,
    [getToolOutput] returns the [output] field as it is whenever that
    field is truthy, object or not, and [null] whenever it is falsy, that
    is missing, [null], [false], [0] or the empty string. *)
Theorem getToolOutput_checks_truthiness_only
    (part : value) (toolName : string) :
  is_object part = true ->
  field part "type" = VStr ("tool-" ++ toolName) ->
  (truthy (field part "output") = true ->
   getToolOutput part toolName = field part "output")
  /\ (truthy (field part "output") = false ->
      getToolOutput part toolName = VNull)
  /\ (truthy (field part "output") = false
      <-> field part "output" = VUndefined \/ field part "output" = VNull
          \/ field part "output" = VBool false
          \/ field part "output" = VNum 0
          \/ field part "output" = VStr "").
Proof.
  intros Hobj Htype. unfold getToolOutput.
  assert (Hguard : (typeof part =? "object") && negb (is_null part) = true)
    by (destruct part; try discriminate; reflexivity).
  rewrite Hguard, Htype. cbn [strict_eq_string andb].
  rewrite String.eqb_refl.
  split; [|split].
  - now intros ->.
  - now intros ->.
  - apply truthy_false_cases.
Qed.

(** A string output is returned as it is; the output [0] gives
    [null]. *)
Lemma getToolOutput_checks_truthiness_only_witness :
  getToolOutput malformed_part "get_weather" = VStr "not an object"
  /\ getToolOutput
       (VObj [("type", VStr "tool-get_weather"); ("output", VNum 0)])
       "get_weather" = VNull.
Proof.
  split.
  - apply (getToolOutput_checks_truthiness_only malformed_part "get_weather");
      reflexivity.
  - apply (getToolOutput_checks_truthiness_only
             (VObj [("type", VStr "tool-get_weather"); ("output", VNum 0)])
             "get_weather"); reflexivity.
Defined.

(** A part from which [getToolOutput] extracts an output is a tool part
    of that tool. *)
Lemma getToolOutput_isToolPart (part : value) (toolName : string) :
  getToolOutput part toolName <> VNull -> isToolPart part toolName = true.
Proof.
  unfold getToolOutput, isToolPart.
  destruct ((typeof part =? "object") && negb (is_null part)
            && strict_eq_string (field part "type") ("tool-" ++ toolName));
    [reflexivity|].
  cbn [andb]. congruence.
Qed.

End RendererClaims.

(* ===================================================================== *)
(** ** Facts about prefixes                                               *)
(* ===================================================================== *)

Module StringFacts.
Import JS.

Lemma append_cancel (a b c : string) : a ++ b = a ++ c -> b = c.
Proof. induction a as [|x a IH]; simpl; [auto | intros [= H]; auto]. Qed.

Lemma startsWith_split (p s : string) :
  startsWith s p = true -> s = p ++ slice s (String.length p).
Proof.
  unfold startsWith, slice. revert s.
  induction p as [|c p IH]; intros s H.
  - simpl. rewrite Nat.sub_0_r. symmetry. apply RendererClaims.substring_all.
  - destruct s as [|d s]; [discriminate|]. simpl in H.
    destruct (Ascii.ascii_dec c d) as [->|]; [|discriminate].
    simpl. f_equal. apply IH. exact H.
Qed.

Lemma startsWith_app (p s : string) : startsWith (p ++ s) p = true.
Proof.
  unfold startsWith. induction p as [|c p IH]; simpl.
  - now destruct s.
  - destruct (Ascii.ascii_dec c c); [exact IH | contradiction].
Qed.

Lemma slice_app (p s : string) : slice (p ++ s) (String.length p) = s.
Proof.
  unfold slice. induction p as [|c p IH]; simpl.
  - rewrite Nat.sub_0_r. apply RendererClaims.substring_all.
  - exact IH.
Qed.

End StringFacts.

(* ===================================================================== *)
(** ** Further properties of a generation run                             *)
(* ===================================================================== *)

Module GeneratorExtras.
Import JS GenerateTypes RunViews ObjFacts OrderFacts GenerateTypesFacts
  GeneratorClaims StringFacts.

Lemma mkdirs_app (a b : list event) :
  mkdirs (a ++ b) = (mkdirs a ++ mkdirs b)%list.
Proof.
  induction a as [|e a IH]; simpl; [reflexivity|].
  destruct e; simpl; now rewrite IH.
Qed.

Lemma mkdirs_logs (lines : list string) : mkdirs (map ConsoleLog lines) = [].
Proof. induction lines; simpl; auto. Qed.


(** Keys in own-property order are distinct. *)
Lemma sorted_keys_NoDup (l : list string) :
  StronglySorted Spec.precedes l -> NoDup l.
Proof.
  induction 1 as [|a l Hs IH Hf]; constructor; [|exact IH].
  intros Hin. rewrite Forall_forall in Hf. specialize (Hf a Hin).
  unfold Spec.precedes in Hf. destruct (is_array_index a); [lia | congruence].
Qed.



Lemma take_word_split (s : string) :
  exists rest,
    s = take_word s ++ rest
    /\ starts_with_word rest = false
    /\ all_word (take_word s) = true.
Proof.
  induction s as [|c s [rest [E [Hr Hw]]]]; simpl.
  - exists "". auto.
  - destruct (is_word_char c) eqn:Hc; simpl.
    + exists rest. rewrite Hc, Hw, <- E. auto.
    + exists (String c s). simpl. auto.
Qed.

Lemma take_word_starts (s : string) :
  starts_with_word s = true -> take_word s <> "".
Proof. destruct s as [|c s]; simpl; [discriminate|]. now intros ->. Qed.

(** X10.  The model of [/export interface (\w+)/]: a match is a
    non-empty run of word characters that follows the leftmost
    [export interface ] that has one, taken as far as it goes; there is
    no match exactly when no [export interface ] is followed by a word
    character. *)
Theorem interface_match_is_leftmost_word (code : string) :
  (forall w,
     match_export_interface code = Some w ->
     w <> "" /\ all_word w = true
     /\ exists pre post,
          code = pre ++ "export interface " ++ w ++ post
          /\ starts_with_word post = false
          /\ forall pre' post',
               code = pre' ++ "export interface " ++ post' ->
               starts_with_word post' = true ->
               String.length pre <= String.length pre')
  /\ (match_export_interface code = None ->
      forall pre post,
        code = pre ++ "export interface " ++ post ->
        starts_with_word post = false).
Proof.
  induction code as [|c code [IHs IHn]].
  - split.
    + discriminate.
    + intros _ pre post H. destruct pre; discriminate.
  - assert (Hhere : forall post',
              String c code = "export interface " ++ post' ->
              starts_with_word post' = true ->
              startsWith (String c code) "export interface " = true
              /\ take_word (slice (String c code) 17) <> "").
    { intros post' E Hw. rewrite E. split; [apply startsWith_app|].
      change 17 with (String.length "export interface ").
      rewrite slice_app. now apply take_word_starts. }
    cbn [match_export_interface].
    destruct (startsWith (String c code) "export interface ") eqn:Hp.
    + destruct (String.eqb_spec (take_word (slice (String c code) 17)) "")
        as [Hw|Hw].
      * (* the run is empty here: the search goes on *)
        split.
        -- intros w Hm. destruct (IHs w Hm) as [Hne [Hall [pre [post [E [Hpost Hleft]]]]]].
           split; [exact Hne|]. split; [exact Hall|].
           exists (String c pre), post. split; [simpl; now rewrite E|].
           split; [exact Hpost|].
           intros pre' post' E' Hw'. destruct pre' as [|c' pre'].
           ++ destruct (Hhere post' E' Hw') as [_ Hc]. contradiction.
           ++ simpl in E'. injection E' as _ E'. simpl.
              apply le_n_S. now apply (Hleft pre' post').
        -- intros Hm pre post E. destruct pre as [|c' pre].
           ++ destruct (starts_with_word post) eqn:Hsw; [|reflexivity].
              destruct (Hhere post E Hsw) as [_ Hc]. contradiction.
           ++ simpl in E. injection E as _ E. now apply (IHn Hm pre post).
      * (* the match is here *)
        split; [|discriminate].
        intros w [= <-]. split; [exact Hw|].
        destruct (take_word_split (slice (String c code) 17))
          as [post [E [Hpost Hall]]].
        split; [exact Hall|].
        exists "", post. split.
        -- rewrite (startsWith_split _ _ Hp) at 1.
           change (String.length "export interface ") with 17.
           rewrite E at 1. reflexivity.
        -- split; [exact Hpost|]. intros pre' post' _ _. simpl. lia.
    + split.
      * intros w Hm. destruct (IHs w Hm) as [Hne [Hall [pre [post [E [Hpost Hleft]]]]]].
        split; [exact Hne|]. split; [exact Hall|].
        exists (String c pre), post. split; [simpl; now rewrite E|].
        split; [exact Hpost|].
        intros pre' post' E' Hw'. destruct pre' as [|c' pre'].
        -- destruct (Hhere post' E' Hw') as [Hc _]. congruence.
        -- simpl in E'. injection E' as _ E'. simpl.
           apply le_n_S. now apply (Hleft pre' post').
      * intros Hm pre post E. destruct pre as [|c' pre].
        -- destruct (starts_with_word post) eqn:Hsw; [|reflexivity].
           destruct (Hhere post E Hsw) as [Hc _]. congruence.
        -- simpl in E. injection E as _ E. now apply (IHn Hm pre post).
Qed.

Section Run.

Variable env_BACKEND_URL : option string.
Variable fetch : string -> outcome response.
Variable compile : value -> string -> outcome string.

Local Abbreviation generateTypes := (generateTypes env_BACKEND_URL fetch compile).
Local Abbreviation schema_url := (BACKEND_URL env_BACKEND_URL ++ "/tools-schema").
Local Abbreviation compile_tools := (compile_tools compile).
Local Abbreviation loop_result := (loop_result compile).
Local Abbreviation run_result := (run_result env_BACKEND_URL fetch compile).

(** An entry that cannot be read stops the loop. *)
Lemma loop_result_unreadable entries :
  forall defs reg toolName toolConfig e,
    In (toolName, toolConfig) entries ->
    get toolConfig "output" = Throw e ->
    exists e', loop_result entries defs reg = Throw e'.
Proof.
  induction entries as [|[n c] rest IH]; intros defs reg toolName toolConfig e Hin Hget.
  - destruct Hin.
  - simpl. destruct Hin as [[= -> ->]|Hin].
    + rewrite Hget. simpl. eauto.
    + destruct (get c "output") as [o|e0]; simpl; [|eauto].
      destruct (truthy o); [|eapply IH; eauto].
      destruct (compile o n) as [code|e0]; simpl; [|eauto].
      eapply IH; eauto.
Qed.

(** Over entries with distinct names the registry holds, for each name,
    what the loop recorded for the entry of that name. *)
Lemma lookup_fold_record entries :
  forall reg name,
    NoDup (keys entries) ->
    lookup name
      (fold_left (fun r e => record compile (fst e) (snd e) r) entries reg)
    = match lookup name entries with
      | Some toolConfig =>
          if recorded compile name toolConfig
          then interface_of compile name toolConfig
          else lookup name reg
      | None => lookup name reg
      end.
Proof.
  induction entries as [|[k c] rest IH]; intros reg name Hnd; [reflexivity|].
  cbn [fold_left fst snd lookup].
  inversion Hnd as [|? ? Hk Hnd']; subst.
  rewrite IH by exact Hnd'.
  destruct (String.eqb_spec k name) as [->|Hne].
  - assert (Hnone : lookup name rest = None).
    { destruct (lookup name rest) eqn:E; [|reflexivity].
      exfalso. apply Hk. apply has_own_In. unfold has_own. now rewrite E. }
    rewrite Hnone. unfold record, recorded, assign_primitive.
    destruct (interface_of compile name c) as [ty|]; cbn [andb negb].
    + destruct (name =? "__proto__"); cbn [negb andb]; [reflexivity|].
      apply lookup_define.
    + now rewrite andb_false_r.
  - assert (Hreg : lookup name (record compile k c reg) = lookup name reg).
    { unfold record, assign_primitive.
      destruct (interface_of compile k c); [|reflexivity].
      destruct (k =? "__proto__"); [reflexivity|].
      apply lookup_define_other. congruence. }
    now rewrite Hreg.
Qed.

(** The first loop changes the world by console lines only. *)
Lemma compile_tools_logs entries :
  forall typeDefinitions toolOutputTypes w,
  exists lines,
    compile_tools entries typeDefinitions toolOutputTypes w
    = (loop_result entries typeDefinitions toolOutputTypes,
       mkWorld (dirs w) (files w) (events w ++ map ConsoleLog lines)).
Proof.
  induction entries as [|[toolName toolConfig] rest IH]; intros defs reg w.
  - exists []. simpl. rewrite app_nil_r. destruct w; auto.
  - simpl. unfold sbind, await.
    destruct (get toolConfig "output") as [output|e]; simpl.
    2:{ exists []. simpl. rewrite app_nil_r. destruct w; auto. }
    destruct (truthy output); simpl.
    + destruct (compile output toolName) as [tsCode|e]; simpl.
      * match goal with
        | |- context [GenerateTypes.compile_tools _ rest ?d ?r ?w'] =>
            destruct (IH d r w') as [lines E]
        end.
        exists (("Generating types for " ++ toolName ++ "...") :: lines).
        rewrite E. simpl. now rewrite <- app_assoc.
      * exists [("Generating types for " ++ toolName ++ "...")]. reflexivity.
    + destruct (IH defs reg w) as [lines E]. exists lines. auto.
Qed.

(** When the loop reaches a tool whose schema does not compile, the last
    thing it has logged is the line that names this tool. *)
Lemma compile_tools_fails_at pre :
  forall toolName toolConfig post output e defs reg w,
    (forall n c, In (n, c) pre -> passes compile n c = true) ->
    get toolConfig "output" = Ok output ->
    truthy output = true ->
    compile output toolName = Throw e ->
    exists lines,
      compile_tools (pre ++ (toolName, toolConfig) :: post) defs reg w
      = (Throw e,
         mkWorld (dirs w) (files w)
           (events w ++ map ConsoleLog lines
            ++ [ConsoleLog ("Generating types for " ++ toolName ++ "...")])).
Proof.
  induction pre as [|[n c] pre IH];
    intros toolName toolConfig post output e defs reg w Hpre Hget Ht Hc.
  - exists []. simpl. unfold sbind, await. rewrite Hget. simpl.
    rewrite Ht. simpl. rewrite Hc. reflexivity.
  - assert (Hn : passes compile n c = true) by (apply Hpre; now left).
    assert (Hpre' : forall n' c', In (n', c') pre -> passes compile n' c' = true)
      by (intros n' c' H; apply Hpre; now right).
    simpl. unfold sbind, await. unfold passes in Hn.
    destruct (get c "output") as [o|]; [|discriminate]. simpl.
    destruct (truthy o); simpl.
    + destruct (compile o n) as [code|]; [|discriminate]. simpl.
      match goal with
      | |- context [GenerateTypes.compile_tools _ _ ?d ?r ?w'] =>
          destruct (IH toolName toolConfig post output e d r w'
                      Hpre' Hget Ht Hc) as [lines E]
      end.
      exists (("Generating types for " ++ n ++ "...") :: lines).
      rewrite E. simpl. now rewrite <- !app_assoc.
    + destruct (IH toolName toolConfig post output e defs reg w
                  Hpre' Hget Ht Hc) as [lines E].
      exists lines. exact E.
Qed.

(** The type definitions the loop returns are what it was given followed
    by the code of the tools it compiled. *)
Lemma loop_result_emitted entries :
  forall defs reg defs' reg',
    loop_result entries defs reg = Ok (defs', reg') ->
    defs' = defs ++ emitted_code compile entries.
Proof.
  induction entries as [|[n c] rest IH]; intros defs reg defs' reg'; simpl.
  - intros [= <- <-]. clear. induction defs; simpl; congruence.
  - destruct (get c "output") as [o|]; simpl; [|discriminate].
    destruct (truthy o); [|apply IH].
    destruct (compile o n) as [code|]; simpl; [|discriminate].
    intros H. apply IH in H. rewrite H. now rewrite !append_assoc.
Qed.

(** A run whose response is [ok], parses and has a readable [tools]:
    the loop starts in the [ready] world, and what follows it is either
    the write and the last line, or the report of the exception. *)
Lemma run_from_ready (w : world) response document data_tools :
  fetch schema_url = Ok response ->
  ok response = true ->
  json_body response = Ok document ->
  get (parse document) "tools" = Ok data_tools ->
  generateTypes w
  = match compile_tools (Object_entries (tools_of data_tools)) banner []
            (ready w) with
    | (Ok r, w2) =>
        (0%Z,
         mkWorld (dirs w2)
           (define OUTPUT_FILE (artifact r) (files w2))
           (events w2
            ++ [ WriteFileSync OUTPUT_FILE (artifact r);
                 ConsoleLog ("✓ Types generated successfully at "
                             ++ OUTPUT_FILE) ]))
    | (Throw e, w2) =>
        (1%Z,
         mkWorld (dirs w2) (files w2)
           (events w2
            ++ [ConsoleError ("Failed to generate types: " ++ message_of e)]))
    end.
Proof.
  intros Hf Hok Hj Ht.
  unfold GenerateTypes.generateTypes, GenerateTypes.try_block, sbind, await,
    console_log, console_error, emit, throw, ret, existsSync, mkdirSync,
    writeFileSync, ready.
  cbn [dirs files events]. rewrite Hf. cbn [fst snd]. rewrite Hok. cbn [negb].
  rewrite Hj, Ht. cbn [dirs files events].
  destruct (str_mem (dirname OUTPUT_FILE) (dirs w)); cbn [negb dirs files events].
  - destruct (GenerateTypes.compile_tools _ _ _ _ _) as [[[defs reg]|e] w2];
      cbn [fst snd dirs files events]; unfold artifact; cbn [fst snd];
      rewrite <- ?app_assoc; reflexivity.
  - destruct (GenerateTypes.compile_tools _ _ _ _ _) as [[[defs reg]|e] w2];
      cbn [fst snd dirs files events]; unfold artifact; cbn [fst snd];
      rewrite <- ?app_assoc; reflexivity.
Qed.

(** The output directory exists in the world the loop starts in, and
    the loop and what follows it leave the directories alone. *)
Lemma ready_has_directory (w : world) :
  str_mem (dirname OUTPUT_FILE) (dirs (ready w)) = true.
Proof.
  unfold ready. destruct (str_mem (dirname OUTPUT_FILE) (dirs w)) eqn:Hd;
    cbn [dirs]; [exact Hd|].
  unfold str_mem. cbn [existsb]. now rewrite String.eqb_refl.
Qed.


(** X1.  When the first loop reaches a tool whose schema does not
    compile, every tool before it having gone through, the run exits with
    status 1, leaves the files as they were, and the last two things it
    prints are the line naming that tool and the report of the
    compiler's message. *)
Theorem failing_tool_is_named (w : world) response document data_tools
    pre toolName toolConfig post output e :
  fetch schema_url = Ok response ->
  ok response = true ->
  json_body response = Ok document ->
  get (parse document) "tools" = Ok data_tools ->
  Object_entries (tools_of data_tools) = (pre ++ (toolName, toolConfig) :: post)%list ->
  (forall n c, In (n, c) pre -> passes compile n c = true) ->
  get toolConfig "output" = Ok output ->
  truthy output = true ->
  compile output toolName = Throw e ->
  fst (generateTypes w) = 1%Z
  /\ files (snd (generateTypes w)) = files w
  /\ exists lines,
       events (snd (generateTypes w))
       = (events (ready w) ++ map ConsoleLog lines
          ++ [ ConsoleLog ("Generating types for " ++ toolName ++ "...");
               ConsoleError ("Failed to generate types: " ++ message_of e) ])%list.
Proof.
  intros Hf Hok Hj Ht Hentries Hpre Hget Htr Hc.
  rewrite (run_from_ready w response document data_tools Hf Hok Hj Ht), Hentries.
  destruct (compile_tools_fails_at pre toolName toolConfig post output e
              banner [] (ready w) Hpre Hget Htr Hc) as [lines E].
  rewrite E. cbn [fst snd files events dirs].
  split; [reflexivity|]. split.
  - unfold ready. destruct (str_mem _ _); reflexivity.
  - exists lines. now rewrite <- !app_assoc.
Qed.

(** X2.  A rejected fetch and a response that is not [ok] leave the
    disk alone, the output directory included: the run prints its first
    line and the report, carrying the rejection's message or the
    [statusText], and exits with status 1. *)
Theorem failed_fetch_changes_nothing (w : world) :
  (forall e,
     fetch schema_url = Throw e ->
     generateTypes w
     = (1%Z,
        mkWorld (dirs w) (files w)
          (events w
           ++ [ ConsoleLog "Fetching tool schemas from backend...";
                ConsoleError ("Failed to generate types: " ++ message_of e) ])))
  /\ (forall response,
        fetch schema_url = Ok response ->
        ok response = false ->
        generateTypes w
        = (1%Z,
           mkWorld (dirs w) (files w)
             (events w
              ++ [ ConsoleLog "Fetching tool schemas from backend...";
                   ConsoleError ("Failed to generate types: "
                                 ++ "Failed to fetch schemas: "
                                 ++ statusText response) ]))).
Proof.
  split.
  - intros e He.
    unfold GenerateTypes.generateTypes, GenerateTypes.try_block, sbind, await,
      console_log, console_error, emit.
    cbn [dirs files events]. rewrite He. cbn [dirs files events].
    now rewrite <- app_assoc.
  - intros response Hr Hok.
    unfold GenerateTypes.generateTypes, GenerateTypes.try_block, sbind, await,
      console_log, console_error, emit, throw.
    cbn [dirs files events]. rewrite Hr. cbn [fst snd]. rewrite Hok.
    cbn [negb dirs files events message_of Error]. now rewrite <- app_assoc.
Qed.

(** X3.  After a run that exits with status 0 the output directory
    exists, and [mkdirSync] has been called once, on that directory, when
    it was missing, and not at all when it was there. *)
Theorem output_directory_is_ensured (w : world) :
  fst (generateTypes w) = 0%Z ->
  let w' := snd (generateTypes w) in
  str_mem (dirname OUTPUT_FILE) (dirs w') = true
  /\ mkdirs (events w')
     = (mkdirs (events w)
        ++ if str_mem (dirname OUTPUT_FILE) (dirs w) then []
           else [dirname OUTPUT_FILE])%list.
Proof.
  intros Hcode.
  destruct (successful_run env_BACKEND_URL fetch compile w Hcode)
    as [response [document [data_tools [code_text [reg
         [Hf [Hok [Hj [Ht _]]]]]]]]].
  cbv zeta.
  rewrite (run_from_ready w response document data_tools Hf Hok Hj Ht).
  destruct (compile_tools_logs (Object_entries (tools_of data_tools))
              banner [] (ready w)) as [lines E].
  rewrite E.
  pose proof (ready_has_directory w) as Hdir.
  assert (Hmk : mkdirs (events (ready w))
                = (mkdirs (events w)
                   ++ if str_mem (dirname OUTPUT_FILE) (dirs w) then []
                      else [dirname OUTPUT_FILE])%list).
  { unfold ready. destruct (str_mem (dirname OUTPUT_FILE) (dirs w));
      cbn [events]; rewrite ?mkdirs_app; cbn [mkdirs];
      now rewrite ?app_nil_r. }
  destruct (loop_result _ banner []) as [r|e]; cbn [fst snd dirs events];
    (split; [exact Hdir|]);
    rewrite !mkdirs_app, mkdirs_logs, Hmk; cbn [mkdirs];
    now rewrite !app_nil_r.
Qed.

(** X4.  The artifact of a successful run is the banner, then the code
    of every tool the loop compiled, each followed by a line feed and in
    the order of the loop, then the registry block.  The code of a tool
    is there whether or not the registry lists the tool. *)
Theorem artifact_holds_all_compiled_code (w : world) :
  fst (generateTypes w) = 0%Z ->
  exists response document data_tools toolOutputTypes,
    fetch schema_url = Ok response
    /\ json_body response = Ok document
    /\ get (parse document) "tools" = Ok data_tools
    /\ lookup OUTPUT_FILE (files (snd (generateTypes w)))
       = Some (banner
               ++ emitted_code compile (Object_entries (tools_of data_tools))
               ++ mapping_block toolOutputTypes).
Proof.
  intros Hcode.
  destruct (successful_run env_BACKEND_URL fetch compile w Hcode)
    as [response [document [data_tools [code_text [reg
         [Hf [_ [Hj [Ht [Hloop Hfile]]]]]]]]]].
  exists response, document, data_tools, reg.
  repeat (split; [assumption|]).
  apply loop_result_emitted, append_cancel in Hloop. now subst code_text.
Qed.

(** X5.  After a successful run on a response whose [tools] member is an
    object, the registry maps a tool name to exactly the interface name
    found first in the code compiled for the entry of that name. *)
Theorem registry_values (w : world) response members tool_members :
  fetch schema_url = Ok response ->
  json_body response = Ok (JObject members) ->
  Spec.member "tools" members = Some (JObject tool_members) ->
  fst (generateTypes w) = 0%Z ->
  exists code_text toolOutputTypes,
    lookup OUTPUT_FILE (files (snd (generateTypes w)))
    = Some (banner ++ code_text ++ mapping_block toolOutputTypes)
    /\ (forall w0,
          fst (compile_tools
                 (Object_entries
                    (tools_of (field (parse (JObject members)) "tools")))
                 banner [] w0)
          = Ok (banner ++ code_text, toolOutputTypes))
    /\ forall toolName typeName,
         lookup toolName toolOutputTypes = Some typeName
         <-> toolName <> "__proto__"
             /\ exists toolConfig output tsCode,
                  lookup toolName
                    (Object_entries
                       (tools_of (field (parse (JObject members)) "tools")))
                  = Some toolConfig
                  /\ get toolConfig "output" = Ok output
                  /\ truthy output = true
                  /\ compile output toolName = Ok tsCode
                  /\ match_export_interface tsCode = Some typeName.
Proof.
  intros Hf Hj Hm Hcode.
  pose proof (parsed_tools _ _ Hm) as Htools.
  destruct (successful_run env_BACKEND_URL fetch compile w Hcode)
    as [response' [document [data_tools [code_text [reg
         [Hf' [_ [Hj' [Ht [Hloop Hfile]]]]]]]]]].
  rewrite Hf in Hf'. injection Hf' as <-.
  rewrite Hj in Hj'. injection Hj' as Hj'. subst document.
  assert (Hdt : data_tools = field (parse (JObject members)) "tools").
  { unfold field. rewrite Ht. reflexivity. }
  subst data_tools.
  exists code_text, reg. split; [exact Hfile|].
  split; [intros w0; now rewrite compile_tools_outcome|].
  assert (Hnd : NoDup (keys (Object_entries
                  (tools_of (field (parse (JObject members)) "tools"))))).
  { unfold field. rewrite Htools.
    change (parse (JObject tool_members))
      with (VObj (fold_left (fun o m => define (fst m) (parse (snd m)) o)
                    tool_members [])).
    cbn [tools_of truthy Object_entries].
    apply sorted_keys_NoDup. apply (parsed_keys_order parse tool_members). }
  intros toolName typeName.
  rewrite (loop_result_registry compile _ _ _ _ _ Hloop).
  rewrite lookup_fold_record by exact Hnd. cbn [lookup].
  unfold recorded, interface_of.
  destruct (String.eqb_spec toolName "__proto__") as [Hp|Hp]; cbn [negb andb].
  - split.
    + destruct (lookup toolName _); discriminate.
    + intros [H _]. contradiction.
  - destruct (lookup toolName _) as [toolConfig|] eqn:Hl.
    + destruct (get toolConfig "output") as [output|e] eqn:Hg.
      * destruct (truthy output) eqn:Htr.
        -- destruct (compile output toolName) as [tsCode|e] eqn:Hc.
           ++ destruct (match_export_interface tsCode) as [ty|] eqn:Hmatch.
              ** split.
                 --- intros [= <-]. split; [exact Hp|].
                     exists toolConfig, output, tsCode. auto.
                 --- intros [_ [c [o [t [[= <-] [Ho [_ [Hcc Hmm]]]]]]]].
                     rewrite Hg in Ho. injection Ho as <-.
                     rewrite Hc in Hcc. injection Hcc as <-.
                     rewrite Hmatch in Hmm. exact Hmm.
              ** split; [discriminate|].
                 intros [_ [c [o [t [[= <-] [Ho [_ [Hcc Hmm]]]]]]]].
                 rewrite Hg in Ho. injection Ho as <-.
                 rewrite Hc in Hcc. injection Hcc as <-.
                 rewrite Hmatch in Hmm. discriminate.
           ++ split; [discriminate|].
              intros [_ [c [o [t [[= <-] [Ho [_ [Hcc _]]]]]]]].
              rewrite Hg in Ho. injection Ho as <-.
              rewrite Hc in Hcc. discriminate.
        -- split; [discriminate|].
           intros [_ [c [o [t [[= <-] [Ho [Htt _]]]]]]].
           rewrite Hg in Ho. injection Ho as <-. congruence.
      * split; [discriminate|].
        intros [_ [c [o [t [[= <-] [Ho _]]]]]]. congruence.
    + split; [discriminate|].
      intros [_ [c [o [t [H _]]]]]. discriminate.
Qed.

(** X6.  When [data.tools] is missing or falsy no tool is compiled and
    nothing fails before the disk is reached: the [try] block comes to
    the write with the banner and an empty registry.  A run that then
    exits with status 0 leaves the output file with the banner followed
    by an empty registry block, whatever the file held before. *)
Theorem no_tools_gives_empty_registry (w : world) response document data_tools :
  fetch schema_url = Ok response ->
  ok response = true ->
  json_body response = Ok document ->
  get (parse document) "tools" = Ok data_tools ->
  truthy data_tools = false ->
  run_result = Ok (banner, [])
  /\ (fst (generateTypes w) = 0%Z ->
      lookup OUTPUT_FILE (files (snd (generateTypes w)))
      = Some (banner ++ mapping_block [])).
Proof.
  intros Hf Hok Hj Ht Hfalsy. split.
  - unfold GenerateTypes.run_result. rewrite Hf. cbn [bind]. rewrite Hok.
    cbn [negb bind]. rewrite Hj. cbn [bind]. rewrite Ht. cbn [bind].
    unfold tools_of. rewrite Hfalsy. reflexivity.
  - intros _.
    rewrite (run_from_ready w response document data_tools Hf Hok Hj Ht).
    unfold tools_of. rewrite Hfalsy. cbn [Object_entries].
    cbn [GenerateTypes.compile_tools ret fst snd files].
    unfold artifact. cbn [fst snd]. now rewrite lookup_define.
Qed.

(** X7.  A body that is [null], and an entry of [tools] that is [null],
    abort the run: it exits with status 1 and every file is as
    before. *)
Theorem null_in_response_aborts (w : world) :
  (forall response,
     fetch schema_url = Ok response ->
     json_body response = Ok JNull ->
     fst (generateTypes w) = 1%Z
     /\ files (snd (generateTypes w)) = files w)
  /\ (forall response document data_tools toolName,
        fetch schema_url = Ok response ->
        json_body response = Ok document ->
        get (parse document) "tools" = Ok data_tools ->
        In (toolName, VNull) (Object_entries (tools_of data_tools)) ->
        fst (generateTypes w) = 1%Z
        /\ files (snd (generateTypes w)) = files w).
Proof.
  destruct (generateTypes_result env_BACKEND_URL fetch compile w)
    as [ds [evs [E _]]].
  rewrite E. cbn [fst snd files].
  split.
  - intros response Hf Hj. unfold GenerateTypes.run_result.
    rewrite Hf. cbn [bind].
    destruct (ok response); cbn [negb bind]; [|auto].
    rewrite Hj. cbn [bind parse get]. auto.
  - intros response document data_tools toolName Hf Hj Ht Hin.
    unfold GenerateTypes.run_result. rewrite Hf. cbn [bind].
    destruct (ok response); cbn [negb bind]; [|auto].
    rewrite Hj. cbn [bind]. rewrite Ht. cbn [bind].
    destruct (loop_result_unreadable _ banner [] toolName VNull _ Hin eq_refl)
      as [e' ->].
    auto.
Qed.

(** X8.  A run writes to the output file only: every other path reads
    after the run as it did before. *)
Theorem other_files_untouched (w : world) (path : string) :
  path <> OUTPUT_FILE ->
  lookup path (files (snd (generateTypes w))) = lookup path (files w).
Proof.
  intros Hpath.
  destruct (generateTypes_result env_BACKEND_URL fetch compile w)
    as [ds [evs [E _]]].
  rewrite E. cbn [snd files].
  destruct run_result; [|reflexivity].
  now apply lookup_define_other.
Qed.


End Run.

Import Samples.

(** Of three tools the second does not compile: its line is the last
    one logged before the report, and the third tool is not reached. *)
Lemma failing_tool_is_named_witness :
  let run := generateTypes None (serve second_broken_document) sample_compile
               empty_world in
  fst run = 1%Z
  /\ files (snd run) = files empty_world
  /\ exists lines,
       events (snd run)
       = (events (ready empty_world) ++ map ConsoleLog lines
          ++ [ ConsoleLog "Generating types for broken...";
               ConsoleError
                 "Failed to generate types: Error resolving $ref pointer #/definitions/Missing" ])%list.
Proof.
  apply (failing_tool_is_named None (serve second_broken_document)
           sample_compile empty_world
           (mkResponse true "OK" (Ok second_broken_document))
           second_broken_document
           (parse (JObject
              [ ("a", JObject [("output", object_schema "A")]);
                ("broken", JObject [("output", dangling_schema)]);
                ("c", JObject [("output", object_schema "C")]) ]))
           [("a", parse (JObject [("output", object_schema "A")]))]
           "broken"
           (parse (JObject [("output", dangling_schema)]))
           [("c", parse (JObject [("output", object_schema "C")]))]
           (parse dangling_schema)
           (Error "Error resolving $ref pointer #/definitions/Missing"));
    try reflexivity.
  intros n c [[= <- <-]|[]]. reflexivity.
Defined.

(** A [404] leaves a world with other files exactly as it was, two
    console lines apart. *)
Lemma failed_fetch_changes_nothing_witness :
  generateTypes None not_found sample_compile busy_world
  = (1%Z,
     mkWorld ["./src"] [("./src/main.tsx", "render();")]
       [ ConsoleLog "Fetching tool schemas from backend...";
         ConsoleError
           "Failed to generate types: Failed to fetch schemas: Not Found" ]).
Proof.
  apply (proj2 (failed_fetch_changes_nothing None not_found sample_compile
                  busy_world)
           (mkResponse false "Not Found" (Throw (Error "no body"))));
    reflexivity.
Defined.

(** A successful run from an empty disk has created the directory. *)
Lemma output_directory_is_ensured_witness :
  let w' := snd (generateTypes None (serve weather_document) sample_compile
                   empty_world) in
  str_mem (dirname OUTPUT_FILE) (dirs w') = true
  /\ mkdirs (events w') = ["./src/types"].
Proof.
  apply (output_directory_is_ensured None (serve weather_document)
           sample_compile empty_world).
  reflexivity.
Defined.

(** The type alias of a tool the registry leaves out is in the
    artifact. *)
Lemma artifact_holds_all_compiled_code_witness :
  let fetch := serve alias_document in
  let run := generateTypes None fetch sample_compile empty_world in
  exists response document data_tools toolOutputTypes,
    fetch (BACKEND_URL None ++ "/tools-schema") = Ok response
    /\ json_body response = Ok document
    /\ get (parse document) "tools" = Ok data_tools
    /\ lookup OUTPUT_FILE (files (snd run))
       = Some (banner
               ++ emitted_code sample_compile
                    (Object_entries (tools_of data_tools))
               ++ mapping_block toolOutputTypes).
Proof.
  apply (artifact_holds_all_compiled_code None (serve alias_document)
           sample_compile empty_world).
  reflexivity.
Defined.

(** The registry of the weather response maps [get_weather] to
    [Weather]. *)
Lemma registry_values_witness :
  let run := generateTypes None (serve weather_document) sample_compile
               empty_world in
  exists code_text toolOutputTypes,
    lookup OUTPUT_FILE (files (snd run))
    = Some (banner ++ code_text ++ mapping_block toolOutputTypes)
    /\ lookup "get_weather" toolOutputTypes = Some "Weather"
    /\ lookup "ping" toolOutputTypes = None.
Proof.
  destruct (registry_values None (serve weather_document) sample_compile
              empty_world
              (mkResponse true "OK" (Ok weather_document))
              [("tools", JObject
                 [ ("get_weather",
                    JObject [("output", object_schema "Weather")]);
                   ("ping", JObject []) ])]
              [ ("get_weather",
                 JObject [("output", object_schema "Weather")]);
                ("ping", JObject []) ]
              eq_refl eq_refl eq_refl eq_refl)
    as [code_text [reg [Hfile [_ Hvalues]]]].
  exists code_text, reg. split; [exact Hfile|]. split.
  - apply Hvalues. split; [discriminate|].
    exists (parse (JObject [("output", object_schema "Weather")])),
      (parse (object_schema "Weather")),
      ("export interface Weather {" ++ nl ++ "  [k: string]: unknown;" ++ nl
       ++ "}" ++ nl).
    repeat split; reflexivity.
  - destruct (lookup "ping" reg) as [ty|] eqn:E; [|reflexivity].
    apply Hvalues in E.
    destruct E as [_ [c [o [t [Hl [Ho [Ht _]]]]]]].
    injection Hl as <-. injection Ho as <-. discriminate.
Defined.

(** A response without [tools] replaces an earlier artifact by an empty
    registry. *)
Lemma no_tools_gives_empty_registry_witness :
  let run := generateTypes None (serve empty_document) sample_compile
               stale_world in
  run_result None (serve empty_document) sample_compile = Ok (banner, [])
  /\ lookup OUTPUT_FILE (files (snd run)) = Some (banner ++ mapping_block []).
Proof.
  destruct (no_tools_gives_empty_registry None (serve empty_document)
              sample_compile stale_world
              (mkResponse true "OK" (Ok empty_document)) empty_document
              VUndefined eq_refl eq_refl eq_refl eq_refl eq_refl)
    as [Hresult Hfile].
  split; [exact Hresult|]. apply Hfile. reflexivity.
Defined.

(** An entry that is [null] aborts the run although the entry before it
    compiles. *)
Lemma null_in_response_aborts_witness :
  let run := generateTypes None (serve null_entry_document) sample_compile
               stale_world in
  fst run = 1%Z /\ files (snd run) = files stale_world.
Proof.
  apply (proj2 (null_in_response_aborts None (serve null_entry_document)
                  sample_compile stale_world)
           (mkResponse true "OK" (Ok null_entry_document))
           null_entry_document
           (parse (JObject
              [ ("a", JObject [("output", object_schema "A")]);
                ("b", JNull) ]))
           "b");
    try reflexivity.
  simpl. auto.
Defined.

(** A successful run beside another file leaves that file as it is. *)
Lemma other_files_untouched_witness :
  lookup "./src/main.tsx"
    (files (snd (generateTypes None (serve weather_document) sample_compile
                   busy_world)))
  = Some "render();".
Proof.
  apply (other_files_untouched None (serve weather_document) sample_compile
           busy_world "./src/main.tsx").
  discriminate.
Defined.


(** In [export interface  X; export interface Foo_1 {] the first
    occurrence is followed by a blank, so the match is [Foo_1]. *)
Lemma interface_match_is_leftmost_word_witness :
  let code := "export interface  X; export interface Foo_1 {" in
  "Foo_1" <> "" /\ all_word "Foo_1" = true
  /\ exists pre post,
       code = pre ++ "export interface " ++ "Foo_1" ++ post
       /\ starts_with_word post = false
       /\ forall pre' post',
            code = pre' ++ "export interface " ++ post' ->
            starts_with_word post' = true ->
            String.length pre <= String.length pre'.
Proof.
  apply (proj1 (interface_match_is_leftmost_word
                  "export interface  X; export interface Foo_1 {") "Foo_1").
  reflexivity.
Defined.

End GeneratorExtras.

(* ===================================================================== *)
(** ** All or nothing                                                     *)
(* ===================================================================== *)

Module ArtifactClaims.
Import JS GenerateTypes RunViews ObjFacts OrderFacts GenerateTypesFacts
  GeneratorClaims StringFacts GeneratorExtras.



Section Run.

Variable env_BACKEND_URL : option string.
Variable fetch : string -> outcome response.
Variable compile : value -> string -> outcome string.

Local Abbreviation generateTypes := (generateTypes env_BACKEND_URL fetch compile).
Local Abbreviation schema_url := (BACKEND_URL env_BACKEND_URL ++ "/tools-schema").
Local Abbreviation compile_tools := (compile_tools compile).
Local Abbreviation loop_result := (loop_result compile).
Local Abbreviation run_result := (run_result env_BACKEND_URL fetch compile).






End Run.

Import Samples.


End ArtifactClaims.

(* ===================================================================== *)
(** ** Further properties of the extractor and the helpers                *)
(* ===================================================================== *)

Module RendererExtras.
Import JS React Components ToolRenderers ToolUtils ObjFacts OrderFacts
  StringFacts Samples.

Lemma is_object_truthy (v : value) : is_object v = true -> truthy v = true.
Proof. destruct v; simpl; congruence. Qed.

(** A part that gets past the two guards of the extractor. *)
Lemma renderToolPart_cases (part : value) :
  (exists toolName,
     is_object part = true
     /\ field part "type" = VStr ("tool-" ++ toolName))
  \/ renderToolPart part = (Ok None, []).
Proof.
  unfold renderToolPart. rewrite RendererClaims.object_guard.
  destruct (is_object part) eqn:Hobj; [|now right]. cbn [negb].
  destruct (field part "type") as [| | | |s| |] eqn:Htype; try now right.
  destruct (startsWith s "tool-") eqn:Hp; [|now right].
  left. exists (slice s 5). split; [reflexivity|].
  f_equal. apply (startsWith_split "tool-" s Hp).
Qed.

(** X11.  The extractor throws only through a name inherited from
    [Object.prototype]: when [renderToolPart] throws, the part's [type]
    is [tool-] followed by a member of [Object.prototype] that is not a
    key of the renderer map, its [output] is a non-null object, and
    nothing was logged. *)
Theorem renderToolPart_throws_only_for_inherited (part : value) (e : exn)
    (warnings : list string) :
  renderToolPart part = (Throw e, warnings) ->
  exists toolName,
    field part "type" = VStr ("tool-" ++ toolName)
    /\ In toolName object_prototype_keys
    /\ ~ In toolName (keys toolRenderers)
    /\ is_object (field part "output") = true
    /\ warnings = [].
Proof.
  intros H.
  destruct (renderToolPart_cases part) as [[toolName [Hobj Htype]]|Hnull];
    [|congruence].
  rewrite (RendererClaims.renderToolPart_tool part toolName Hobj Htype) in H.
  exists toolName. split; [exact Htype|].
  destruct (hasToolRenderer toolName) eqn:Hhas; cbn [negb] in H;
    [|discriminate].
  destruct (is_object (field part "output")) eqn:Hout; cbn [negb] in H;
    [|discriminate].
  unfold callToolRenderer in H.
  destruct (lookup toolName toolRenderers) as [renderer|] eqn:Hl;
    [discriminate|].
  assert (Hown : has_own toolName toolRenderers = false)
    by (unfold has_own; now rewrite Hl).
  unfold hasToolRenderer, js_in in Hhas. rewrite Hown in Hhas.
  cbn [orb] in Hhas.
  split; [now apply str_mem_In|].
  split; [now apply has_own_false|].
  split; [reflexivity|].
  destruct (call_inherited toolName (field part "output")); congruence.
Qed.

Lemma renderToolPart_throws_only_for_inherited_witness :
  exists toolName,
    field proto_part "type" = VStr ("tool-" ++ toolName)
    /\ In toolName object_prototype_keys
    /\ ~ In toolName (keys toolRenderers)
    /\ is_object (field proto_part "output") = true
    /\ @nil string = [].
Proof.
  apply (renderToolPart_throws_only_for_inherited proto_part
           (TypeError "toolRenderers[toolName] is not a function") []).
  reflexivity.
Defined.

(** X12.  What the extractor returns tells how it went.  A node comes
    without a warning and is the wrapper around what the renderer of the
    part's tool made of the part's own [output], a non-null object.  A
    warning comes alone and with [null]. *)
Theorem renderToolPart_result_shape (part : value) :
  (forall node warnings,
     renderToolPart part = (Ok (Some node), warnings) ->
     warnings = []
     /\ exists toolName rendered,
          field part "type" = VStr ("tool-" ++ toolName)
          /\ hasToolRenderer toolName = true
          /\ is_object (field part "output") = true
          /\ callToolRenderer toolName (field part "output") = Ok rendered
          /\ node = Elem "ToolResultWrapper"
                      [ ("toolName", VStr toolName);
                        ("toolOutput", field part "output") ]
                      [rendered])
  /\ (forall result warnings,
        renderToolPart part = (result, warnings) ->
        warnings <> [] ->
        result = Ok None /\ length warnings = 1).
Proof.
  destruct (renderToolPart_cases part) as [[toolName [Hobj Htype]]|Hnull].
  - rewrite (RendererClaims.renderToolPart_tool part toolName Hobj Htype).
    destruct (hasToolRenderer toolName) eqn:Hhas; cbn [negb].
    + destruct (is_object (field part "output")) eqn:Hout; cbn [negb].
      * destruct (callToolRenderer toolName (field part "output"))
          as [rendered|e] eqn:Hcall.
        -- split.
           ++ intros node warnings [= <- <-]. split; [reflexivity|].
              exists toolName, rendered. auto 6.
           ++ intros result warnings [= <- <-] Hw. contradiction.
        -- split; [discriminate|].
           intros result warnings [= <- <-] Hw. contradiction.
      * split; [discriminate|]. intros result warnings [= <- <-] _. auto.
    + split; [discriminate|]. intros result warnings [= <- <-] _. auto.
  - rewrite Hnull. split; [discriminate|].
    intros result warnings [= <- <-] Hw. contradiction.
Qed.

Lemma renderToolPart_result_shape_witness :
  (@nil string = []
   /\ exists toolName rendered,
        field weather_part "type" = VStr ("tool-" ++ toolName)
        /\ hasToolRenderer toolName = true
        /\ is_object (field weather_part "output") = true
        /\ callToolRenderer toolName (field weather_part "output") = Ok rendered
        /\ Elem "ToolResultWrapper"
             [ ("toolName", VStr "get_weather"); ("toolOutput", tokyo) ]
             [Elem "WeatherResult" [("data", tokyo)] []]
           = Elem "ToolResultWrapper"
               [ ("toolName", VStr toolName);
                 ("toolOutput", field weather_part "output") ]
               [rendered])
  /\ (@Ok (option jsx) None = Ok None
      /\ length ["Invalid output for tool: get_weather"] = 1).
Proof.
  split.
  - apply (proj1 (renderToolPart_result_shape weather_part)). reflexivity.
  - apply (proj2 (renderToolPart_result_shape malformed_part)
             (Ok None) ["Invalid output for tool: get_weather"]).
    + reflexivity.
    + discriminate.
Defined.

(** X13.  A part is a tool part of at most one tool: [isToolPart] holds
    for one name at most, and so [getToolOutput] extracts an output
    under one name at most. *)
Theorem isToolPart_names_one_tool (part : value) (a b : string) :
  (isToolPart part a = true -> isToolPart part b = true -> a = b)
  /\ (getToolOutput part a <> VNull -> getToolOutput part b <> VNull -> a = b).
Proof.
  assert (H : isToolPart part a = true -> isToolPart part b = true -> a = b).
  { unfold isToolPart. rewrite !andb_true_iff.
    intros [_ Ha] [_ Hb]. unfold strict_eq_string in *.
    destruct (field part "type"); try discriminate.
    apply String.eqb_eq in Ha, Hb. subst s.
    now apply append_cancel in Hb. }
  split; [exact H|].
  intros Ha Hb. apply H; now apply RendererClaims.getToolOutput_isToolPart.
Qed.

Lemma isToolPart_names_one_tool_witness :
  "get_weather" = "get_weather".
Proof.
  apply (proj1 (isToolPart_names_one_tool weather_part
                  "get_weather" "get_weather")); reflexivity.
Defined.

(** X14.  The extractor and the helpers agree on what gets rendered:
    when [renderToolPart] returns a node, the wrapper's [toolName] is a
    name under which [isToolPart] holds and [getToolOutput] returns the
    very output the wrapper received. *)
Theorem rendered_part_is_extracted (part : value) (node : jsx)
    (warnings : list string) :
  renderToolPart part = (Ok (Some node), warnings) ->
  exists toolName rendered,
    node = Elem "ToolResultWrapper"
             [ ("toolName", VStr toolName);
               ("toolOutput", getToolOutput part toolName) ]
             [rendered]
    /\ isToolPart part toolName = true
    /\ getToolOutput part toolName = field part "output"
    /\ is_object (getToolOutput part toolName) = true.
Proof.
  intros H.
  destruct (renderToolPart_cases part) as [[toolName [Hobj Htype]]|Hnull];
    [|congruence].
  rewrite (RendererClaims.renderToolPart_tool part toolName Hobj Htype) in H.
  destruct (hasToolRenderer toolName); cbn [negb] in H; [|discriminate].
  destruct (is_object (field part "output")) eqn:Hout; cbn [negb] in H;
    [|discriminate].
  destruct (callToolRenderer toolName (field part "output")) as [rendered|];
    [|discriminate].
  injection H as <- _.
  assert (Hguard : (typeof part =? "object") && negb (is_null part) = true)
    by (destruct part; try discriminate; reflexivity).
  assert (Hget : getToolOutput part toolName = field part "output").
  { unfold getToolOutput. rewrite Hguard, Htype.
    cbn [strict_eq_string andb]. rewrite String.eqb_refl.
    now rewrite (is_object_truthy _ Hout). }
  exists toolName, rendered. rewrite Hget.
  split; [reflexivity|]. split; [|auto].
  unfold isToolPart. rewrite Hguard, Htype.
  cbn [strict_eq_string andb]. apply String.eqb_refl.
Qed.

Lemma rendered_part_is_extracted_witness :
  exists toolName rendered,
    Elem "ToolResultWrapper"
      [ ("toolName", VStr "get_weather"); ("toolOutput", tokyo) ]
      [Elem "WeatherResult" [("data", tokyo)] []]
    = Elem "ToolResultWrapper"
        [ ("toolName", VStr toolName);
          ("toolOutput", getToolOutput weather_part toolName) ]
        [rendered]
    /\ isToolPart weather_part toolName = true
    /\ getToolOutput weather_part toolName = field weather_part "output"
    /\ is_object (getToolOutput weather_part toolName) = true.
Proof.
  apply (rendered_part_is_extracted weather_part _ []).
  reflexivity.
Defined.

End RendererExtras.

(* ===================================================================== *)
(** ** Further properties of the result components                        *)
(* ===================================================================== *)

Module ComponentExtras.
Import JS React Components ObjFacts Samples.

Lemma mapM_idx_pure {A B} (g : A -> nat -> B) (l : list A) :
  forall i,
    exists l', mapM_idx (fun a n => Ok (g a n)) i l = Ok l'
               /\ length l' = length l.
Proof.
  induction l as [|a l IH]; intros i; simpl.
  - exists []. auto.
  - destruct (IH (S i)) as [l' [-> Hl]]. simpl. eexists. split; [reflexivity|].
    simpl. now rewrite Hl.
Qed.

Lemma mapM_idx_map {A B} (g : A -> B) (l : list A) :
  forall i, mapM_idx (fun a _ => Ok (g a)) i l = Ok (map g l).
Proof.
  induction l as [|a l IH]; intros i; simpl; [reflexivity|].
  now rewrite IH.
Qed.

(** A mapping whose function succeeds on every element succeeds, with
    one result per element. *)
Lemma mapM_idx_ok {A B} (f : A -> nat -> outcome B) (P : B -> Prop)
    (l : list A) :
  forall i,
    (forall a n, In a l -> exists b, f a n = Ok b /\ P b) ->
    exists l', mapM_idx f i l = Ok l'
               /\ length l' = length l /\ Forall P l'.
Proof.
  induction l as [|a l IH]; intros i H; simpl.
  - exists []. auto.
  - destruct (H a i (or_introl eq_refl)) as [b [-> Hb]]. simpl.
    destruct (IH (S i)) as [l' [-> [Hl HP]]].
    { intros a' n Ha'. apply H. now right. }
    simpl. eexists. split; [reflexivity|]. split; [simpl; now rewrite Hl|].
    now constructor.
Qed.

(** A cell that is not an object or an array always prints. *)
Lemma formatValue_primitive (v : value) :
  is_object v = false -> exists cell, formatValue v = Ok cell.
Proof.
  destruct v; simpl; try discriminate; eauto.
Qed.

Lemma format_cell_plain (props : list (string * value)) (k : string) :
  (forall key v, lookup key props = Some v -> is_object v = false) ->
  exists cell, format_cell (VObj props) (VStr k) = Ok cell.
Proof.
  intros Hprim. unfold format_cell. cbn [to_string bind].
  destruct (lookup k props) as [x|] eqn:Hl.
  - apply formatValue_primitive. now apply (Hprim k).
  - destruct (k =? "__proto__"); [eauto|].
    destruct (str_mem k object_prototype_keys); simpl; eauto.
Qed.

(** X15.  A successful result that reports no rows is shown as [No
    results returned] whatever else it holds: neither [rows] nor
    [column_names] is read. *)
Theorem sql_no_rows_reads_no_table (data : value) :
  is_object data = true ->
  truthy (field data "success") = true ->
  field data "row_count" = VNum 0 ->
  SQLQueryResult data
  = Ok (Elem "div" (className "tool-result sql-query")
          [ Elem "div" (className "tool-result-header")
              [ Text "📊 SQL Query Results ("; Expr (VNum 0); Text " row";
                Text "s"; Text ")";
                Elem "span" (className "result-id")
                  [Text "#"; Expr (field data "id")] ];
            Elem "div" (className "tool-result-content")
              [ Elem "div" (className "query-display")
                  [ Elem "code" [] [Expr (field data "query")] ];
                Elem "p" (className "no-results")
                  [Text "No results returned"] ] ]).
Proof.
  intros Hobj Hs Hrc. unfold SQLQueryResult.
  rewrite (RendererClaims.get_field data "success" Hobj). cbn [bind].
  rewrite Hs. cbn [negb].
  rewrite (RendererClaims.get_field data "row_count" Hobj),
    (RendererClaims.get_field data "id" Hobj),
    (RendererClaims.get_field data "query" Hobj), Hrc.
  reflexivity.
Qed.

Lemma sql_no_rows_reads_no_table_witness :
  exists node,
    SQLQueryResult (VObj [ ("id", VStr "q2"); ("success", VBool true);
                           ("query", VStr "select 1 where false");
                           ("row_count", VNum 0) ])
    = Ok node.
Proof.
  eexists.
  apply (sql_no_rows_reads_no_table
           (VObj [ ("id", VStr "q2"); ("success", VBool true);
                   ("query", VStr "select 1 where false");
                   ("row_count", VNum 0) ]));
    reflexivity.
Defined.

(** X16.  A successful result with rows, whose [column_names] are
    strings and whose rows are plain objects with cells that are not
    objects or arrays, is shown as a table and nothing is thrown: the
    head has one cell per column name, the body one row per row of the
    result, and each row one cell per column name. *)
Theorem sql_table_dimensions (data : value) (columns rows : list value) :
  is_object data = true ->
  truthy (field data "success") = true ->
  strict_eq_num (field data "row_count") 0 = false ->
  field data "column_names" = VArr columns ->
  field data "rows" = VArr rows ->
  Forall (fun col => Spec.is_string col = true) columns ->
  Forall (fun row =>
            exists props,
              row = VObj props
              /\ forall key v, lookup key props = Some v -> is_object v = false)
         rows ->
  exists table_rows,
    SQLQueryResult data
    = Ok (Elem "div" (className "tool-result sql-query")
            [ Elem "div" (className "tool-result-header")
                [ Text "📊 SQL Query Results ("; Expr (field data "row_count");
                  Text " row";
                  Text (if negb (strict_eq_num (field data "row_count") 1)
                        then "s" else "");
                  Text ")";
                  Elem "span" (className "result-id")
                    [Text "#"; Expr (field data "id")] ];
              Elem "div" (className "tool-result-content")
                [ Elem "div" (className "query-display")
                    [ Elem "code" [] [Expr (field data "query")] ];
                  Elem "div" (className "table-container")
                    [ Elem "table" (className "results-table")
                        [ Elem "thead" []
                            [ Elem "tr" []
                                [ Items (map (fun col =>
                                                Elem "th" [("key", col)]
                                                  [Expr col]) columns) ] ];
                          Elem "tbody" [] [Items table_rows] ] ] ] ])
    /\ length table_rows = length rows
    /\ Forall (fun tr =>
                 exists key cells,
                   tr = Elem "tr" [("key", key)] [Items cells]
                   /\ length cells = length columns)
              table_rows.
Proof.
  intros Hobj Hs Hrc Hcols Hrows Hstr Hplain.
  remember (SQLQueryResult data) as result eqn:Hres.
  unfold SQLQueryResult in Hres.
  rewrite (RendererClaims.get_field data "success" Hobj) in Hres.
  cbn [bind] in Hres. rewrite Hs in Hres. cbn [negb] in Hres.
  rewrite (RendererClaims.get_field data "row_count" Hobj),
    (RendererClaims.get_field data "id" Hobj),
    (RendererClaims.get_field data "query" Hobj) in Hres.
  cbn [bind] in Hres. rewrite Hrc in Hres.
  rewrite (RendererClaims.get_field data "column_names" Hobj), Hcols in Hres.
  cbn [bind array_map] in Hres. rewrite mapM_idx_map in Hres.
  cbn [bind] in Hres.
  rewrite (RendererClaims.get_field data "rows" Hobj), Hrows in Hres.
  cbn [bind array_map] in Hres.
  match type of Hres with
  | context [mapM_idx ?f 0 rows] =>
      destruct (mapM_idx_ok f
                  (fun tr =>
                     exists key cells,
                       tr = Elem "tr" [("key", key)] [Items cells]
                       /\ length cells = length columns)
                  rows 0) as [table_rows [Hmap [Hlen Hall]]]
  end.
  { intros row idx Hin. rewrite Forall_forall in Hplain.
    destruct (Hplain row Hin) as [props [-> Hprim]].
    cbn [bind array_map].
    match goal with
    | |- context [mapM_idx ?g 0 columns] =>
        destruct (mapM_idx_ok g (fun _ => True) columns 0)
          as [cells [-> [Hlen _]]]
    end.
    { intros col n Hc. rewrite Forall_forall in Hstr.
      specialize (Hstr col Hc). destruct col; try discriminate.
      cbn [to_string bind].
      destruct (format_cell_plain props s Hprim) as [cell ->].
      cbn [bind]. eexists. split; [reflexivity | exact I]. }
    cbn [bind]. eexists. split; [reflexivity|]. eauto. }
  rewrite Hmap in Hres. cbn [bind] in Hres.
  exists table_rows. rewrite Hres. auto.
Qed.

Lemma lookup_value_In {A} (k : string) (o : obj A) (v : A) :
  lookup k o = Some v -> In v (map snd o).
Proof.
  induction o as [|[k' v'] o IH]; simpl; [discriminate|].
  destruct (k' =? k); [intros [= ->]; auto | auto].
Qed.

Lemma sql_table_dimensions_witness :
  exists table_rows,
    (exists node, SQLQueryResult MoreSamples.sql_two_rows = Ok node)
    /\ length table_rows = 2
    /\ Forall (fun tr =>
                 exists key cells,
                   tr = Elem "tr" [("key", key)] [Items cells]
                   /\ length cells = 2)
              table_rows.
Proof.
  destruct (sql_table_dimensions MoreSamples.sql_two_rows
              [VStr "a"; VStr "b"]
              [ VObj [("a", VNum 1); ("b", VStr "x")]; VObj [("a", VNull)] ])
    as [table_rows [Hres [Hlen Hall]]]; try reflexivity.
  - repeat constructor.
  - constructor.
    + exists [("a", VNum 1); ("b", VStr "x")]. split; [reflexivity|].
      intros key v Hl. apply lookup_value_In in Hl.
      destruct Hl as [<-|[<-|[]]]; reflexivity.
    + constructor; [|constructor].
      exists [("a", VNull)]. split; [reflexivity|].
      intros key v Hl. apply lookup_value_In in Hl.
      destruct Hl as [<-|[]]; reflexivity.
  - exists table_rows. split; [eauto | auto].
Defined.

(** X17.  The weather component throws exactly when its data is [null]
    or [undefined]: on any other value a missing field is shown as
    nothing. *)
Theorem weather_throws_only_without_data (data : value) :
  (exists e, WeatherResult data = Throw e)
  <-> data = VUndefined \/ data = VNull.
Proof.
  split.
  - intros [e H].
    destruct data as [| |b|n|s|items|props]; auto; exfalso;
      unfold WeatherResult in H.
    + discriminate H.
    + discriminate H.
    + assert (forall k, k <> "length" -> is_array_index k = false ->
                        get (VStr s) k = Ok VUndefined) as Hg.
      { intros k Hk Hi. unfold get.
        apply String.eqb_neq in Hk. now rewrite Hk, Hi. }
      rewrite !Hg in H by (try discriminate; reflexivity). discriminate H.
    + assert (forall k, k <> "length" -> is_array_index k = false ->
                        get (VArr items) k = Ok VUndefined) as Hg.
      { intros k Hk Hi. unfold get.
        apply String.eqb_neq in Hk. now rewrite Hk, Hi. }
      rewrite !Hg in H by (try discriminate; reflexivity). discriminate H.
    + rewrite !(RendererClaims.get_field (VObj props)) in H by reflexivity.
      discriminate H.
  - intros [->| ->]; eexists; reflexivity.
Qed.

End ComponentExtras.

(* ===================================================================== *)
(** ** The chat view                                                      *)
(* ===================================================================== *)

Module ChatExtras.
Import JS React ToolRenderers Chat ObjFacts OrderFacts StringFacts.

Lemma trimStart_blank (s : string) : blank s = true -> trimStart s = "".
Proof.
  induction s as [|c s IH]; [reflexivity|].
  cbn [blank]. intros H. apply andb_true_iff in H as [Hc Hs].
  cbn [trimStart]. rewrite Hc. now apply IH.
Qed.

Lemma trim_blank (s : string) : blank s = true -> trim s = "".
Proof.
  intros H. unfold trim. now rewrite (trimStart_blank s H).
Qed.

Lemma render_parts_nth (parts : list value) :
  forall i nodes warnings,
    render_parts parts i = (Ok nodes, warnings) ->
    length nodes = length parts
    /\ (forall k part,
          nth_error parts k = Some part ->
          exists node, fst (render_part part (i + k)) = Ok node
                       /\ nth_error nodes k = Some node)
    /\ (forall line,
          In line warnings <->
          exists k part, nth_error parts k = Some part
                         /\ In line (snd (render_part part (i + k)))).
Proof.
  induction parts as [|part rest IH]; intros i nodes warnings H.
  - cbn in H. injection H as <- <-. split; [reflexivity|]. split.
    + intros [|k] p Hk; discriminate.
    + intros line. split; [intros []|].
      intros [[|k] [p [Hk _]]]; discriminate.
  - cbn [render_parts] in H.
    destruct (render_part part i) as [[node|e] ws] eqn:Hp; [|discriminate].
    destruct (render_parts rest (S i)) as [[nodes'|e] ws'] eqn:Hr;
      [|discriminate].
    injection H as <- <-.
    destruct (IH _ _ _ Hr) as [Hlen [Hnth Hws]].
    split; [cbn; now rewrite Hlen|]. split.
    + intros [|k] p Hk.
      * cbn in Hk. injection Hk as <-. exists node.
        rewrite Nat.add_0_r, Hp. now split.
      * cbn in Hk. destruct (Hnth k p Hk) as [n [Hn Hn']].
        exists n. rewrite Nat.add_succ_r. now split.
    + intros line. rewrite in_app_iff, Hws. split.
      * intros [Hin|[k [p [Hk Hin]]]].
        -- exists 0%nat, part. rewrite Nat.add_0_r, Hp. now split.
        -- exists (S k), p. rewrite Nat.add_succ_r. now split.
      * intros [[|k] [p [Hk Hin]]].
        -- cbn in Hk. injection Hk as <-.
           rewrite Nat.add_0_r, Hp in Hin. now left.
        -- right. exists k, p. rewrite Nat.add_succ_r in Hin. now split.
Qed.

Lemma render_parts_throws (parts : list value) :
  forall i,
    (exists e warnings, render_parts parts i = (Throw e, warnings))
    <-> exists k part e, nth_error parts k = Some part
                         /\ fst (render_part part (i + k)) = Throw e.
Proof.
  induction parts as [|part rest IH]; intros i.
  - split.
    + intros [e [ws H]]. discriminate.
    + intros [[|k] [p [e [Hk _]]]]; discriminate.
  - cbn [render_parts].
    destruct (render_part part i) as [[node|e] ws] eqn:Hp.
    + destruct (render_parts rest (S i)) as [[nodes'|e'] ws'] eqn:Hr.
      * split; [intros [e [w H]]; discriminate|].
        intros [[|k] [p [e [Hk He]]]].
        -- cbn in Hk. injection Hk as <-.
           rewrite Nat.add_0_r, Hp in He. discriminate.
        -- cbn in Hk. rewrite Nat.add_succ_r in He.
           assert (Hex : exists k part e, nth_error rest k = Some part
                     /\ fst (render_part part (S i + k)) = Throw e)
             by (exists k, p, e; now split).
           apply IH in Hex. destruct Hex as [e0 [w0 H0]]. congruence.
      * split; [|intros _; now exists e', (ws ++ ws')%list].
        intros _.
        assert (Hex : exists e warnings,
                   render_parts rest (S i) = (Throw e, warnings))
          by (now exists e', ws').
        apply IH in Hex. destruct Hex as [k [p [e0 [Hk He]]]].
        exists (S k), p, e0. rewrite Nat.add_succ_r. now split.
    + split; [|intros _; now exists e, ws].
      intros _. exists 0%nat, part, e. rewrite Nat.add_0_r, Hp. now split.
Qed.

Lemma harmless_get (part : value) (k : string) :
  harmless part = true -> get part k = Ok (field part k).
Proof.
  destruct part as [| | | |s|items|props]; cbn [harmless];
    try discriminate; intros _; unfold field; cbn [get];
    try reflexivity.
  - destruct (k =? "length"); [reflexivity|].
    now destruct (is_array_index k).
  - destruct (k =? "length"); [reflexivity|].
    now destruct (is_array_index k).
  - now destruct (lookup k props).
Qed.

(** The callback throws on a part that is [null] or [undefined] and on
    a part on which the extractor throws, and on no other. *)
Lemma render_part_throws (part : value) (idx : nat) :
  (exists e, fst (render_part part idx) = Throw e)
  <-> part = VUndefined \/ part = VNull
      \/ exists e warnings, renderToolPart part = (Throw e, warnings).
Proof.
  split.
  - intros [e He]. unfold render_part in He.
    destruct (get part "type") as [type|e0] eqn:Hg.
    + destruct (strict_eq_string type "text"); [discriminate|].
      destruct (renderToolPart part) as [[[node|]|e1] ws]; try discriminate.
      right. right. now exists e1, ws.
    + destruct part as [| | | | | |props]; cbn in Hg; try discriminate; auto.
      destruct (lookup "type" props); discriminate.
  - intros [-> | [-> | [e [ws He]]]]; [now eexists | now eexists |].
    destruct (RendererExtras.renderToolPart_cases part)
      as [[toolName [Hobj Htype]]|Hnull]; [|congruence].
    unfold render_part.
    rewrite (RendererClaims.get_field part "type" Hobj), Htype, He.
    exists e. reflexivity.
Qed.

(** The callback completes on a harmless part. *)
Lemma render_part_harmless (part : value) (idx : nat) :
  harmless part = true ->
  exists node warnings, render_part part idx = (Ok node, warnings).
Proof.
  intros H. unfold render_part. rewrite (harmless_get part "type" H).
  destruct (strict_eq_string (field part "type") "text"); [eauto|].
  destruct (RendererExtras.renderToolPart_cases part)
    as [[toolName [Hobj Htype]]|Hnull].
  2:{ rewrite Hnull. eauto. }
  rewrite (RendererClaims.renderToolPart_tool part toolName Hobj Htype).
  destruct (hasToolRenderer toolName) eqn:Hhas; cbn [negb]; [|eauto].
  destruct (is_object (field part "output")); cbn [negb]; [|eauto].
  unfold callToolRenderer.
  destruct (lookup toolName toolRenderers) as [renderer|] eqn:Hl; [eauto|].
  exfalso.
  assert (Hin : str_mem toolName object_prototype_keys = true).
  { unfold hasToolRenderer, js_in, has_own in Hhas. rewrite Hl in Hhas.
    exact Hhas. }
  assert (Hh : harmless part = true) by exact H.
  unfold harmless in Hh. rewrite Htype in Hh.
  rewrite (startsWith_app "tool-" toolName) in Hh.
  change 5%nat with (String.length "tool-") in Hh.
  rewrite (slice_app "tool-" toolName), Hin in Hh.
  destruct part; discriminate.
Qed.

(** X18.  A submit sends exactly when the button is enabled: with the
    button enabled, [handleSubmit] sends the input as typed, once, and
    clears the field; with the button disabled it sends nothing and
    leaves the field as it is. *)
Theorem submit_agrees_with_button (input status : string) :
  sent (handleSubmit input status)
  = (if submit_disabled input status then [] else [input])
  /\ input_after input (handleSubmit input status)
     = (if submit_disabled input status then input else "").
Proof.
  unfold handleSubmit, submit_disabled.
  destruct (truthy (VStr (trim input))), (status =? "ready");
    split; reflexivity.
Qed.

(** X19.  Two submits in a row, with nothing typed in between, send at
    most one message, whatever the status is at each. *)
Theorem resubmit_sends_once (input status status' : string) :
  (length (sent (handleSubmit input status)
           ++ sent (handleSubmit
                      (input_after input (handleSubmit input status))
                      status'))
   <= 1)%nat.
Proof.
  unfold handleSubmit at 1 3.
  destruct (negb (truthy (VStr (trim input))) || negb (status =? "ready"))
    eqn:Hg.
  - cbn [sent input_after app]. unfold handleSubmit.
    destruct (negb (truthy (VStr (trim input))) || negb (status' =? "ready"));
      cbn; lia.
  - cbn [sent input_after app]. unfold handleSubmit.
    change (trim "") with "". cbn. lia.
Qed.

(** X20.  An input of ASCII white space only is never sent: the handler
    only prevents the default action of the form, and the button is
    disabled. *)
Theorem blank_input_is_not_sent (input status : string) :
  blank input = true ->
  handleSubmit input status = [PreventDefault]
  /\ submit_disabled input status = true.
Proof.
  intros H. unfold handleSubmit, submit_disabled.
  rewrite (trim_blank input H). cbn. split; [reflexivity|].
  apply orb_true_r.
Qed.

Lemma blank_input_is_not_sent_witness :
  blank "   " = true
  /\ handleSubmit "   " "ready" = [PreventDefault]
  /\ submit_disabled "   " "ready" = true.
Proof.
  split; [reflexivity|].
  apply (blank_input_is_not_sent "   " "ready"). reflexivity.
Defined.

(** X21.  A message that renders has one slot per part, in the order of
    the parts: slot [k] is what the callback gives for part [k] with
    index [k], and the warnings logged are those of the parts. *)
Theorem renderMessage_one_slot_per_part (message : value)
    (parts : list value) (node : jsx) (warnings : list string) :
  get message "parts" = Ok (VArr parts) ->
  renderMessage message = (Ok node, warnings) ->
  exists slots,
    node = Elem "div" (className "message-content") [Items slots]
    /\ length slots = length parts
    /\ (forall k part,
          nth_error parts k = Some part ->
          exists slot, fst (render_part part k) = Ok slot
                       /\ nth_error slots k = Some slot)
    /\ (forall line,
          In line warnings <->
          exists k part, nth_error parts k = Some part
                         /\ In line (snd (render_part part k))).
Proof.
  intros Hparts H. unfold renderMessage in H. rewrite Hparts in H.
  destruct (render_parts parts 0) as [[nodes|e] ws] eqn:Hr; [|discriminate].
  injection H as <- <-. exists nodes. split; [reflexivity|].
  exact (render_parts_nth parts 0 nodes ws Hr).
Qed.

Lemma renderMessage_one_slot_per_part_witness :
  exists slots,
    fst (renderMessage
           (VObj [("parts", VArr [Samples.text_part; Samples.weather_part])]))
    = Ok (Elem "div" (className "message-content") [Items slots])
    /\ length slots = 2%nat.
Proof.
  destruct (renderMessage_one_slot_per_part
              (VObj [("parts", VArr [Samples.text_part; Samples.weather_part])])
              [Samples.text_part; Samples.weather_part]
              (match fst (renderMessage
                 (VObj [("parts",
                         VArr [Samples.text_part; Samples.weather_part])]))
               with Ok n => n | Throw _ => Text "" end)
              []
              eq_refl eq_refl)
    as [slots [Hnode [Hlen _]]].
  exists slots. split; [|exact Hlen].
  rewrite <- Hnode. reflexivity.
Defined.

(** X22.  The call [renderMessage(message)], on a message whose parts
    are an array, throws exactly when one of the parts is [null] or
    [undefined] or [renderToolPart] throws on one of them: one such part
    takes the whole call down, and nothing else does.  This is about the
    call alone; the elements it returns name components that React runs
    afterwards. *)
Theorem renderMessage_throws_iff_a_part_throws (message : value)
    (parts : list value) :
  get message "parts" = Ok (VArr parts) ->
  (exists e warnings, renderMessage message = (Throw e, warnings))
  <-> exists part,
        In part parts
        /\ (part = VUndefined \/ part = VNull
            \/ exists e warnings, renderToolPart part = (Throw e, warnings)).
Proof.
  intros Hparts. unfold renderMessage. rewrite Hparts.
  assert (Hiff : (exists e warnings,
                    render_parts parts 0 = (Throw e, warnings))
                 <-> exists part,
                       In part parts
                       /\ (part = VUndefined \/ part = VNull
                           \/ exists e warnings,
                                renderToolPart part = (Throw e, warnings))).
  { rewrite (render_parts_throws parts 0). split.
    - intros [k [part [e [Hk He]]]]. exists part.
      split; [exact (nth_error_In parts k Hk)|].
      apply (render_part_throws part (0 + k)). now exists e.
    - intros [part [Hin Hbad]].
      destruct (In_nth_error parts part Hin) as [k Hk].
      destruct (proj2 (render_part_throws part (0 + k)) Hbad) as [e He].
      now exists k, part, e. }
  rewrite <- Hiff.
  destruct (render_parts parts 0) as [[nodes|e] ws].
  - split; intros [e [w H]]; discriminate.
  - split; intros _; now exists e, ws.
Qed.

Lemma renderMessage_throws_iff_a_part_throws_witness :
  exists e warnings,
    renderMessage
      (VObj [("parts", VArr [Samples.text_part; Samples.proto_part])])
    = (Throw e, warnings).
Proof.
  apply (renderMessage_throws_iff_a_part_throws
           (VObj [("parts", VArr [Samples.text_part; Samples.proto_part])])
           [Samples.text_part; Samples.proto_part] eq_refl).
  exists Samples.proto_part. split; [right; now left|].
  right. right. eexists. eexists. reflexivity.
Defined.

(** X23.  The call [renderMessage(message)] returns its element and does
    not throw when every part is harmless: no part is [null] or
    [undefined], and no part's type is [tool-] followed by a member of
    [Object.prototype].  This is about the call alone: the element it
    returns names the tool components, which React runs afterwards and
    which may throw on their own data. *)
Theorem renderMessage_harmless_parts (message : value) (parts : list value) :
  get message "parts" = Ok (VArr parts) ->
  forallb harmless parts = true ->
  exists node warnings, renderMessage message = (Ok node, warnings).
Proof.
  intros Hparts Hall. unfold renderMessage. rewrite Hparts.
  destruct (render_parts parts 0) as [[nodes|e] ws] eqn:Hr; [eauto|].
  exfalso.
  assert (Hex : exists e warnings, render_parts parts 0 = (Throw e, warnings))
    by (now exists e, ws).
  apply render_parts_throws in Hex.
  destruct Hex as [k [part [e0 [Hk He]]]].
  rewrite forallb_forall in Hall.
  destruct (render_part_harmless part (0 + k)
              (Hall part (nth_error_In parts k Hk))) as [n [w Hn]].
  rewrite Hn in He. discriminate.
Qed.

Lemma renderMessage_harmless_parts_witness :
  exists node warnings,
    renderMessage
      (VObj [("parts", VArr [Samples.text_part; Samples.unknown_tool_part;
                             Samples.weather_part])])
    = (Ok node, warnings).
Proof.
  apply (renderMessage_harmless_parts
           (VObj [("parts", VArr [Samples.text_part; Samples.unknown_tool_part;
                                  Samples.weather_part])])
           [Samples.text_part; Samples.unknown_tool_part; Samples.weather_part]);
    reflexivity.
Defined.

End ChatExtras.

(* ===================================================================== *)
(** ** The chart component                                                *)
(* ===================================================================== *)

Module ChartExtras.
Import JS Charts ObjFacts OrderFacts.

Lemma array_map_nth {A} (f : value -> nat -> outcome A) (l : list value) :
  forall i l',
    mapM_idx f i l = Ok l' ->
    length l' = length l
    /\ forall k a, nth_error l k = Some a ->
                   exists b, f a (i + k)%nat = Ok b /\ nth_error l' k = Some b.
Proof.
  induction l as [|a l IH]; intros i l' H.
  - cbn in H. injection H as <-. split; [reflexivity|].
    intros [|k] x Hk; discriminate.
  - cbn [mapM_idx bind] in H.
    destruct (f a i) as [b|e] eqn:Hf; [|discriminate].
    destruct (mapM_idx f (S i) l) as [bs|e] eqn:Hm; [|discriminate].
    injection H as <-. destruct (IH _ _ Hm) as [Hlen Hnth].
    split; [cbn; now rewrite Hlen|].
    intros [|k] x Hk; cbn in Hk.
    + injection Hk as <-. exists b. rewrite Nat.add_0_r. now split.
    + destruct (Hnth k x Hk) as [y [Hy Hy']]. exists y.
      rewrite Nat.add_succ_r. now split.
Qed.

Lemma array_map_total {A} (f : value -> nat -> outcome A) (p : value -> bool)
    (l : list value) :
  forallb p l = true ->
  (forall a n, p a = true -> exists b, f a n = Ok b) ->
  forall i, exists l', mapM_idx f i l = Ok l'.
Proof.
  intros Hall Hf. induction l as [|a l IH]; intros i; [now exists []|].
  cbn [forallb] in Hall. apply andb_true_iff in Hall as [Ha Hl].
  cbn [mapM_idx bind]. destruct (Hf a i Ha) as [b ->].
  destruct (IH Hl (S i)) as [bs ->]. now eexists.
Qed.

Lemma series_keep_keys (f : value -> nat -> outcome chart)
    (keys : list value) :
  keeps_key f ->
  forallb Spec.is_string keys = true ->
  forall i, exists l,
    mapM_idx f i keys = Ok l
    /\ map dataKey_of l = map (fun key => Some (PData key)) keys.
Proof.
  intros Hf Hall. induction keys as [|key keys IH]; intros i.
  - now exists [].
  - cbn [forallb] in Hall. apply andb_true_iff in Hall as [Hk Hl].
    cbn [mapM_idx bind]. destruct (Hf key i Hk) as [c [-> Hc]].
    destruct (IH Hl (S i)) as [l [-> Hm]].
    eexists. split; [reflexivity|]. cbn [map]. now rewrite Hc, Hm.
Qed.

Lemma Line_keeps_key : keeps_key Line.
Proof.
  intros [| | | |s| |] idx H; try discriminate.
  eexists. split; reflexivity.
Qed.

Lemma Bar_keeps_key : keeps_key Bar.
Proof.
  intros [| | | |s| |] idx H; try discriminate.
  eexists. split; reflexivity.
Qed.

Lemma Area_keeps_key : keeps_key Area.
Proof.
  intros [| | | |s| |] idx H; try discriminate.
  eexists. split; reflexivity.
Qed.

Lemma Scatter_keeps_key : keeps_key Scatter.
Proof.
  intros [| | | |s| |] idx H; try discriminate.
  eexists. split; reflexivity.
Qed.

Lemma composed_keeps_key :
  keeps_key (fun key idx =>
               if (idx mod 2 =? 0)%nat then Line key idx else Bar key idx).
Proof.
  intros key idx H. destruct (idx mod 2 =? 0)%nat.
  - now apply Line_keeps_key.
  - now apply Bar_keeps_key.
Qed.

Lemma read_plain (item key : value) :
  Spec.is_plain_object item = true ->
  (key = VUndefined \/ Spec.is_string key = true) ->
  exists p, read item key = Ok p.
Proof.
  destruct item as [| | | | | |props]; try discriminate. intros _ Hkey.
  assert (Hs : exists k, to_string key = Ok k).
  { destruct Hkey as [->|Hkey]; [now eexists|].
    destruct key; try discriminate. now eexists. }
  destruct Hs as [k Hk]. cbn [read]. rewrite Hk. cbn [bind].
  destruct (lookup k props); [now eexists|].
  destruct (str_mem k object_prototype_keys); now eexists.
Qed.

Lemma first_key (keys : list value) :
  forallb Spec.is_string keys = true ->
  exists key, get (VArr keys) "0" = Ok key
              /\ (key = VUndefined \/ Spec.is_string key = true).
Proof.
  intros H. destruct keys as [|key keys].
  - exists VUndefined. split; [reflexivity|now left].
  - exists key. split; [reflexivity|]. right.
    cbn [forallb] in H. now apply andb_true_iff in H as [H _].
Qed.

Lemma cells_total (items : list value) :
  forall i, exists l, mapM_idx Cell i items = Ok l.
Proof.
  induction items as [|a items IH]; intros i; [now exists []|].
  cbn [mapM_idx]. unfold Cell at 1. cbn [bind].
  destruct (IH (S i)) as [l ->]. now eexists.
Qed.

(** [renderChart] completes on rows and keys of the declared types. *)
Lemma renderChart_total (type xKey : string) (rows keys : list value) :
  forallb Spec.is_plain_object rows = true ->
  forallb Spec.is_string keys = true ->
  exists c, renderChart (VStr type) (VArr rows) (VStr xKey) (VArr keys) = Ok c.
Proof.
  intros Hrows Hkeys. unfold renderChart. cbn [lower bind].
  destruct (first_key keys Hkeys) as [key0 [Hget0 Hkey0]].
  destruct (cells_total rows 0) as [cells Hcells].
  repeat match goal with
         | |- context [if ?l =? ?lab then _ else _] =>
             destruct (l =? lab)
         end.
  - destruct (series_keep_keys Line keys Line_keeps_key Hkeys 0) as [l [Hl _]].
    cbn [array_map]. rewrite Hl. now eexists.
  - destruct (series_keep_keys Bar keys Bar_keeps_key Hkeys 0) as [l [Hl _]].
    cbn [array_map]. rewrite Hl. now eexists.
  - destruct (series_keep_keys Area keys Area_keeps_key Hkeys 0) as [l [Hl _]].
    cbn [array_map]. rewrite Hl. now eexists.
  - destruct (series_keep_keys Scatter keys Scatter_keeps_key Hkeys 0)
      as [l [Hl _]].
    cbn [array_map]. rewrite Hl. now eexists.
  - destruct (series_keep_keys _ keys composed_keeps_key Hkeys 0)
      as [l [Hl _]].
    cbn [array_map]. rewrite Hl. now eexists.
  - rewrite Hget0. cbn [bind array_map]. rewrite Hcells. now eexists.
  - rewrite Hget0. now eexists.
  - rewrite Hget0. now eexists.
  - rewrite Hget0. cbn [bind array_map]. rewrite Hcells. now eexists.
  - rewrite Hget0. now eexists.
  - cbn [array_map].
    destruct (array_map_total
                (fun item (_ : nat) =>
                   name <- read item (VStr xKey) ;;
                   Ok (PRecord [("name", name)]))
                Spec.is_plain_object rows Hrows) with (i := 0%nat)
      as [nodes Hnodes].
    { intros a n Ha.
      destruct (read_plain a (VStr xKey) Ha (or_intror eq_refl)) as [p ->].
      now eexists. }
    rewrite Hnodes. cbn [bind].
    match goal with
    | |- context [mapM_idx ?f 0 rows] =>
        destruct (array_map_total f Spec.is_plain_object rows Hrows)
          with (i := 0%nat) as [links Hlinks]
    end.
    { intros a n Ha. rewrite Hget0. cbn [bind].
      destruct (read_plain a key0 Ha Hkey0) as [p ->]. now eexists. }
    rewrite Hlinks. now eexists.
  - now eexists.
Qed.

Lemma truthy_field_object (data : value) (k : string) :
  k <> "length" -> is_array_index k = false ->
  truthy (field data k) = true -> is_object data = true.
Proof.
  intros Hk Hi. apply String.eqb_neq in Hk.
  destruct data; unfold field; cbn [get truthy]; try discriminate;
    try reflexivity.
  now rewrite Hk, Hi.
Qed.

(** X24.  On an object laid out as the generated [ChartResult] type the
    chart component always returns an element: every field it
    dereferences is one the type requires. *)
Theorem ChartResult_total_on_declared_shape (data : value) :
  shaped_as_ChartResult data = true ->
  exists c, ChartResult data = Ok c.
Proof.
  destruct data as [| | | | | |props]; try discriminate.
  cbn [shaped_as_ChartResult]. intros H.
  destruct (lookup "success" props) as [[| |success| | | |]|] eqn:Hsuccess;
    try discriminate.
  destruct (lookup "chart_id" props) as [[| | | |chart_id| |]|]; try discriminate.
  destruct (lookup "chart_type" props) as [[| | | |chart_type| |]|];
    try discriminate.
  destruct (lookup "rows" props) as [rows|] eqn:Hrows; try discriminate.
  destruct (lookup "config" props) as [config|] eqn:Hconfig; try discriminate.
  apply andb_true_iff in H as [H _]. apply andb_true_iff in H as [Hr Hc].
  destruct rows as [| | | | |rows|]; try discriminate. cbn in Hr.
  destruct config as [| | | | | |cprops]; try discriminate.
  cbn [shaped_as_ChartConfig] in Hc.
  destruct (lookup "chart_type" cprops) as [[| | | |type| |]|] eqn:Htype;
    try discriminate.
  destruct (lookup "x_key" cprops) as [[| | | |xKey| |]|] eqn:Hx;
    try discriminate.
  destruct (lookup "y_keys" cprops) as [y_keys|] eqn:Hy; try discriminate.
  apply andb_true_iff in Hc as [Hkeys Htitle].
  destruct y_keys as [| | | | |keys|]; try discriminate. cbn in Hkeys.
  unfold ChartResult. cbn [get]. rewrite Hsuccess. cbn [bind truthy].
  destruct success; cbn [negb].
  2:{ destruct (lookup "error" props); now eexists. }
  rewrite Hrows, Hconfig. cbn [bind truthy negb orb get].
  unfold field. cbn [get]. change ("length" =? "length") with true.
  cbn [strict_eq_num].
  destruct (Z.of_nat (length rows) =? 0)%Z; [now eexists|].
  rewrite Htype, Hx, Hy. cbn [bind].
  destruct (renderChart_total type xKey rows keys Hr Hkeys) as [c Hc].
  destruct (lookup "title" cprops) as [title|]; cbn [bind] in *.
  - destruct (truthy title).
    + cbn [bind]. rewrite Hc. cbn [bind].
      destruct (lookup "explanation" props); now eexists.
    + cbn [bind to_string]. rewrite Hc. cbn [bind].
      destruct (lookup "explanation" props); now eexists.
  - cbn [truthy bind to_string]. rewrite Hc. cbn [bind].
    destruct (lookup "explanation" props); now eexists.
Qed.

Lemma ChartResult_total_on_declared_shape_witness :
  shaped_as_ChartResult sales_chart = true
  /\ exists c, ChartResult sales_chart = Ok c.
Proof.
  split; [reflexivity|].
  apply (ChartResult_total_on_declared_shape sales_chart). reflexivity.
Defined.

(** X25.  Without rows the configuration is not needed: when [success]
    is truthy and [rows] is falsy or an empty array, the component shows
    the no-data panel, whatever [config] is, missing included. *)
Theorem chart_without_rows_needs_no_config (data : value) :
  truthy (field data "success") = true ->
  truthy (field data "rows") = false \/ field data "rows" = VArr [] ->
  ChartResult data = Ok no_data_panel.
Proof.
  intros Hs Hrows.
  assert (Hobj : is_object data = true).
  { apply (truthy_field_object data "success"); [discriminate|reflexivity|].
    exact Hs. }
  unfold ChartResult.
  rewrite !(RendererClaims.get_field data _ Hobj). cbn [bind].
  rewrite Hs. cbn [negb].
  destruct Hrows as [Hr|Hr]; rewrite Hr; reflexivity.
Qed.

Lemma chart_without_rows_needs_no_config_witness :
  ChartResult chart_without_config = Ok no_data_panel.
Proof.
  apply (chart_without_rows_needs_no_config chart_without_config).
  - reflexivity.
  - right. reflexivity.
Defined.

(** X26.  With rows the configuration is needed: when [success] is
    truthy, [rows] is a non-empty array and [config] is missing or
    [null], the component throws. *)
Theorem chart_with_rows_needs_config (data row : value) (rows : list value) :
  truthy (field data "success") = true ->
  field data "rows" = VArr (row :: rows) ->
  field data "config" = VUndefined \/ field data "config" = VNull ->
  exists e, ChartResult data = Throw e.
Proof.
  intros Hs Hrows Hconfig.
  assert (Hobj : is_object data = true).
  { apply (truthy_field_object data "success"); [discriminate|reflexivity|].
    exact Hs. }
  unfold ChartResult.
  rewrite !(RendererClaims.get_field data _ Hobj). cbn [bind].
  rewrite Hs, Hrows. cbn [negb truthy orb].
  unfold field at 1. cbn [get]. change ("length" =? "length") with true.
  cbn [strict_eq_num].
  replace (Z.of_nat (length (row :: rows)) =? 0)%Z with false
    by (symmetry; apply Z.eqb_neq; cbn [length]; lia).
  destruct Hconfig as [-> | ->]; cbn [get bind]; now eexists.
Qed.

Lemma chart_with_rows_needs_config_witness :
  exists e, ChartResult chart_with_rows_only = Throw e.
Proof.
  apply (chart_with_rows_needs_config chart_with_rows_only
           (VObj [("a", VNum 1)]) []).
  - reflexivity.
  - reflexivity.
  - left. reflexivity.
Defined.

(** X27.  The line, bar, area, scatter and composed charts draw one
    series per y key, in the order of the keys, each with its key as
    [dataKey]. *)
Theorem one_series_per_key (type : string) (data xKey : value)
    (keys : list value) :
  In (toLowerCase type) series_types ->
  forallb Spec.is_string keys = true ->
  exists c,
    renderChart (VStr type) data xKey (VArr keys) = Ok c
    /\ map dataKey_of (series_of c) = map (fun key => Some (PData key)) keys.
Proof.
  intros Hin Hkeys. unfold renderChart. cbn [lower bind array_map].
  cbn [In series_types] in Hin.
  destruct Hin as [<- | [<- | [<- | [<- | [<- | []]]]]]; cbn [String.eqb Ascii.eqb Bool.eqb].
  - destruct (series_keep_keys Line keys Line_keeps_key Hkeys 0) as [l [-> Hl]].
    eexists. split; [reflexivity|exact Hl].
  - destruct (series_keep_keys Bar keys Bar_keeps_key Hkeys 0) as [l [-> Hl]].
    eexists. split; [reflexivity|exact Hl].
  - destruct (series_keep_keys Area keys Area_keeps_key Hkeys 0) as [l [-> Hl]].
    eexists. split; [reflexivity|exact Hl].
  - destruct (series_keep_keys Scatter keys Scatter_keeps_key Hkeys 0)
      as [l [-> Hl]].
    eexists. split; [reflexivity|exact Hl].
  - destruct (series_keep_keys _ keys composed_keeps_key Hkeys 0)
      as [l [-> Hl]].
    eexists. split; [reflexivity|exact Hl].
Qed.

Lemma one_series_per_key_witness :
  exists c,
    renderChart (VStr "Line") (VArr []) (VStr "month")
      (VArr [VStr "sales"; VStr "costs"]) = Ok c
    /\ map dataKey_of (series_of c)
       = [Some (PData (VStr "sales")); Some (PData (VStr "costs"))].
Proof.
  apply (one_series_per_key "Line" (VArr []) (VStr "month")
           [VStr "sales"; VStr "costs"]).
  - left. reflexivity.
  - reflexivity.
Defined.

(** X28.  The chart type is matched without regard to case: two types
    with the same lower case that name a supported chart draw the same
    chart. *)
Theorem chart_type_ignores_case (type1 type2 : string)
    (data xKey yKeys : value) :
  toLowerCase type1 = toLowerCase type2 ->
  In (toLowerCase type1) chart_types ->
  renderChart (VStr type1) data xKey yKeys
  = renderChart (VStr type2) data xKey yKeys.
Proof.
  intros Heq Hin. unfold renderChart. cbn [lower bind]. rewrite <- Heq.
  cbn [In chart_types] in Hin.
  repeat (destruct Hin as [<- | Hin];
          [cbn [String.eqb Ascii.eqb Bool.eqb]; reflexivity|]).
  destruct Hin.
Qed.

Lemma chart_type_ignores_case_witness :
  renderChart (VStr "PIE") (VArr [Samples.tokyo]) (VStr "city")
    (VArr [VStr "temperature"])
  = renderChart (VStr "Pie") (VArr [Samples.tokyo]) (VStr "city")
      (VArr [VStr "temperature"]).
Proof.
  apply (chart_type_ignores_case "PIE" "Pie").
  - reflexivity.
  - do 5 right. left. reflexivity.
Defined.

(** X29.  The Sankey diagram gets one node and one link per row, and the
    links form a ring: link [k] goes from node [k] to node [k + 1], the
    last one back to node [0]. *)
Theorem sankey_links_form_a_ring (type xKey : string)
    (rows keys : list value) :
  toLowerCase type = "sankey" ->
  forallb Spec.is_plain_object rows = true ->
  forallb Spec.is_string keys = true ->
  exists c,
    renderChart (VStr type) (VArr rows) (VStr xKey) (VArr keys) = Ok c
    /\ length (sankey_part "nodes" c) = length rows
    /\ length (sankey_part "links" c) = length rows
    /\ forall k row,
         nth_error rows k = Some row ->
         exists v,
           nth_error (sankey_part "links" c) k
           = Some (PRecord
                     [ ("source", num (Z.of_nat k));
                       ("target", num (Z.of_nat ((k + 1) mod length rows)));
                       ("value", v) ]).
Proof.
  intros Htype Hrows Hkeys. unfold renderChart. cbn [lower bind].
  rewrite Htype. cbn [String.eqb Ascii.eqb Bool.eqb array_map].
  destruct (first_key keys Hkeys) as [key0 [Hget0 Hkey0]].
  destruct (array_map_total
              (fun item (_ : nat) =>
                 name <- read item (VStr xKey) ;;
                 Ok (PRecord [("name", name)]))
              Spec.is_plain_object rows Hrows) with (i := 0%nat)
    as [nodes Hnodes].
  { intros a n Ha.
    destruct (read_plain a (VStr xKey) Ha (or_intror eq_refl)) as [p ->].
    now eexists. }
  rewrite Hnodes. cbn [bind].
  match goal with
  | |- context [mapM_idx ?f 0 rows] =>
      destruct (array_map_total f Spec.is_plain_object rows Hrows)
        with (i := 0%nat) as [links Hlinks];
      [|pose proof (array_map_nth f rows 0 links Hlinks) as [Hlen Hnth]]
  end.
  { intros a n Ha. rewrite Hget0. cbn [bind].
    destruct (read_plain a key0 Ha Hkey0) as [p ->]. now eexists. }
  rewrite Hlinks. cbn [bind].
  eexists. split; [reflexivity|].
  cbn [sankey_part lookup String.eqb Ascii.eqb Bool.eqb].
  split; [exact (proj1 (array_map_nth _ rows 0 nodes Hnodes))|].
  split; [exact Hlen|].
  intros k row Hk. destruct (Hnth k row Hk) as [b [Hb Hb']].
  cbn [Nat.add] in Hb. rewrite Hget0 in Hb. cbn [bind] in Hb.
  destruct (read row key0) as [v|e]; [|discriminate].
  cbn [bind array_length] in Hb. injection Hb as <-.
  exists v. exact Hb'.
Qed.

Lemma sankey_links_form_a_ring_witness :
  exists c,
    renderChart (VStr "Sankey")
      (VArr [ VObj [("from", VStr "a"); ("n", VNum 1)];
              VObj [("from", VStr "b"); ("n", VNum 2)] ])
      (VStr "from") (VArr [VStr "n"]) = Ok c
    /\ nth_error (sankey_part "links" c) 1
       = Some (PRecord [ ("source", num 1); ("target", num 0);
                         ("value", PData (VNum 2)) ]).
Proof.
  destruct (sankey_links_form_a_ring "Sankey" "from"
              [ VObj [("from", VStr "a"); ("n", VNum 1)];
                VObj [("from", VStr "b"); ("n", VNum 2)] ]
              [VStr "n"] eq_refl eq_refl eq_refl)
    as [c [Hc [_ [_ Hlinks]]]].
  exists c. split; [exact Hc|].
  destruct (Hlinks 1%nat (VObj [("from", VStr "b"); ("n", VNum 2)]) eq_refl)
    as [v Hv].
  rewrite Hv. cbn in Hc. injection Hc as <-. cbn in Hv.
  injection Hv as <-. reflexivity.
Defined.

End ChartExtras.
